(** * Nanoverse Battery: the simulation kernel of [models.py] and [game.py]

    A shallow embedding of the energy economy, the cell bank, the building
    registry, the clock, the needs and the walk of the nanos, the buttons
    and the death handling of the colony game, followed by the properties
    of the specification that were checked against it and by further
    properties of the code.

    Conventions of the embedding.
    - A Python [float] is an exact rational of [Q]; numeric results are
      compared with [==] ([Qeq]).  Rounding of IEEE doubles is not modelled.
    - A Python [int] is a [Z].
    - A Python [dict] is an association list in insertion order (Python
      dicts iterate in insertion order, and several loops of the source stop
      at the first match).
    - A method that mutates [self] takes the object and returns the new one;
      a method with a result returns a pair (result, new object).
    - Python's [min(a, b)] and [max(a, b)] return [a] on a tie, as [Qmin] and
      [Qmax] do.
    - A [while] loop is run with a bound on its iterations and returns
      [None] when the bound is reached first.
    - A random choice of the source (the target of a power effect) is an
      argument; labels, logging and drawing are left out. *)

From Stdlib Require Import ZArith QArith Qminmax Qpower Qabs Qround.
From Stdlib Require Import List Bool Lia Lra Psatz.
Import ListNotations.

Set Implicit Arguments.

Local Open Scope Q_scope.

(** ** Comparisons on floats, as booleans *)

Definition Qleb (a b : Q) : bool := Qle_bool a b.
Definition Qgeb (a b : Q) : bool := Qle_bool b a.
Definition Qltb (a b : Q) : bool := negb (Qle_bool b a).
Definition Qgtb (a b : Q) : bool := negb (Qle_bool a b).

(** ** Python dictionaries with integer keys *)

Module Dict.

Definition t (V : Type) : Type := list (Z * V).

Definition keys {V} (d : t V) : list Z := map fst d.
Definition values {V} (d : t V) : list V := map snd d.
Definition len {V} (d : t V) : Z := Z.of_nat (length d).

(** [d[k]], [None] standing for [KeyError] *)
Fixpoint get {V} (k : Z) (d : t V) : option V :=
  match d with
  | [] => None
  | (k', v) :: r => if (k =? k')%Z then Some v else get k r
  end.

(** [k in d] *)
Definition mem {V} (k : Z) (d : t V) : bool :=
  match get k d with Some _ => true | None => false end.

(** [d[k] = v]: an existing key keeps its place, a new key goes last *)
Fixpoint set {V} (k : Z) (v : V) (d : t V) : t V :=
  match d with
  | [] => [(k, v)]
  | (k', v') :: r =>
      if (k =? k')%Z then (k, v) :: r else (k', v') :: set k v r
  end.

(** [del d[k]]: a dictionary holds a key at most once; every entry for
    [k] is dropped, so that the key is gone whatever the list. *)
Fixpoint del {V} (k : Z) (d : t V) : t V :=
  match d with
  | [] => []
  | (k', v') :: r => if (k =? k')%Z then del k r else (k', v') :: del k r
  end.

(** Every value updated in place by [f] (a loop over [d.values()] that
    mutates each object independently of the others). *)
Definition map_values {V} (f : V -> V) (d : t V) : t V :=
  map (fun kv => (fst kv, f (snd kv))) d.

End Dict.

(** ** Enumerations *)

Inductive BuildingType := CELL | BIO | TENT | STUDY | MUSIC | CAMP.

Inductive NanoState :=
  IDLE | WORKING | SLEEPING | LEARNING | TRAINING | MOVING | HAPPY_TIME.

Definition NanoState_eqb (a b : NanoState) : bool :=
  match a, b with
  | IDLE, IDLE | WORKING, WORKING | SLEEPING, SLEEPING | LEARNING, LEARNING
  | TRAINING, TRAINING | MOVING, MOVING | HAPPY_TIME, HAPPY_TIME => true
  | _, _ => false
  end.

(** [a == b] on building types *)
Definition BuildingType_eqb (a b : BuildingType) : bool :=
  match a, b with
  | CELL, CELL | BIO, BIO | TENT, TENT
  | STUDY, STUDY | MUSIC, MUSIC | CAMP, CAMP => true
  | _, _ => false
  end.

(** ** class Resource *)

Module Resource.

(** The fields of [Resource] that the modelled operations read or write
    ([eu], [know] and [milint] are never touched by them). *)
Record t := mk {
  credits : Q;
  surge_capacitor : Q;
  work_power : Q;
  sell_rate : Q;
  sell_floor : Q
}.

(** [Resource.__init__] *)
Definition init : t :=
  mk 1000 0 (1 # 10) 1000 10.

Definition with_credits (v : Q) (r : t) : t :=
  mk v (surge_capacitor r) (work_power r) (sell_rate r) (sell_floor r).
Definition with_surge (v : Q) (r : t) : t :=
  mk (credits r) v (work_power r) (sell_rate r) (sell_floor r).
Definition with_sell_rate (v : Q) (r : t) : t :=
  mk (credits r) (surge_capacitor r) (work_power r) v (sell_floor r).

Definition add_eu (amount : Q) (r : t) : t :=
  with_surge (surge_capacitor r + amount) r.

Definition drain_eu (amount : Q) (r : t) : bool * t :=
  if Qgeb (surge_capacitor r) amount
  then (true, with_surge (surge_capacitor r - amount) r)
  else (false, r).

Definition sell_eu (amount : Q) (r : t) : bool * t :=
  if Qgeb (surge_capacitor r) amount then
    let r1 := with_surge (surge_capacitor r - amount) r in
    let credits_earned := amount * sell_rate r1 in
    let r2 := with_credits (credits r1 + credits_earned) r1 in
    (true, with_sell_rate (Qmax (sell_rate r2 * (9 # 10)) (sell_floor r2)) r2)
  else (false, r).

Definition spend_credits (amount : Q) (r : t) : bool * t :=
  if Qgeb (credits r) amount
  then (true, with_credits (credits r - amount) r)
  else (false, r).

Definition dissipate_energy (cells_count : Z) (dt : Q) (r : t) : t :=
  if (cells_count =? 0)%Z then
    let dissipation_rate :=
      if Qleb (surge_capacitor r) (3 # 2)
      then (1 # 1000) * dt
      else surge_capacitor r * (5 # 1000) * dt in
    with_surge (Qmax 0 (surge_capacitor r - dissipation_rate)) r
  else r.

Definition with_work_power (v : Q) (r : t) : t :=
  mk (credits r) (surge_capacitor r) v (sell_rate r) (sell_floor r).

End Resource.

(** ** class Cell *)

Module Cell.

Record t := mk {
  cell_number : Z;
  x : Z;
  y : Z;
  level : Z;
  active : bool;
  stored_energy : Q
}.

(** [Cell.__init__] *)
Definition init (cell_number x y : Z) : t :=
  mk cell_number x y 1 true 0.

Definition with_level (v : Z) (c : t) : t :=
  mk (cell_number c) (x c) (y c) v (active c) (stored_energy c).
Definition with_stored_energy (v : Q) (c : t) : t :=
  mk (cell_number c) (x c) (y c) (level c) (active c) v.

(** [(EU_cost, Credits_cost)] *)
Definition get_purchase_cost (c : t) : Q * Q :=
  (inject_Z (cell_number c), 100).

Definition get_upgrade_cost (c : t) : Q * Q :=
  (inject_Z (cell_number c * level c),
   inject_Z (cell_number c * level c) * 100).

End Cell.

(** ** Python lists of integers *)

(** [x in l] *)
Definition list_mem (x : Z) (l : list Z) : bool := existsb (Z.eqb x) l.

(** [l.remove(x)] when [x in l]: the first occurrence goes *)
Fixpoint list_remove (x : Z) (l : list Z) : list Z :=
  match l with
  | [] => []
  | y :: r => if (x =? y)%Z then r else y :: list_remove x r
  end.

(** Truth value of an optional integer: [None] and [0] are false *)
Definition truthy (o : option Z) : bool :=
  match o with
  | None => false
  | Some v => negb (v =? 0)%Z
  end.

Definition option_Z_eqb (a b : option Z) : bool :=
  match a, b with
  | Some u, Some v => (u =? v)%Z
  | None, None => true
  | _, _ => false
  end.

(** ** class Building *)

Module Building.

Record t := mk {
  type : BuildingType;
  x : Z;
  y : Z;
  level : Z;
  workers : list Z;
  capacity : Z;
  building_id : option Z
}.

Definition get_capacity_of (ty : BuildingType) : Z :=
  match ty with
  | BIO => 1
  | TENT => 2
  | STUDY => 3
  | MUSIC => 5
  | CAMP => 4
  | CELL => 1
  end.

Definition get_capacity (b : t) : Z := get_capacity_of (type b).

(** [Building.__init__] with the default [level = 1] *)
Definition init (ty : BuildingType) (x y : Z) : t :=
  mk ty x y 1 [] (get_capacity_of ty) None.

Definition with_workers (w : list Z) (b : t) : t :=
  mk (type b) (x b) (y b) (level b) w (capacity b) (building_id b).
Definition with_building_id (i : option Z) (b : t) : t :=
  mk (type b) (x b) (y b) (level b) (workers b) (capacity b) i.

(** [(EU_cost, Credits_cost)] *)
Definition get_build_cost (b : t) : Q * Q :=
  match type b with
  | CELL => (1, 100)
  | BIO => (10, 1000)
  | TENT => (10, 100)
  | STUDY => (10, 100)
  | MUSIC => (10, 500)
  | CAMP => (10, 250)
  end.

Definition can_accept_worker (b : t) : bool :=
  (Z.of_nat (length (workers b)) <? capacity b)%Z.

Definition add_worker (nano_id : Z) (b : t) : bool * t :=
  if can_accept_worker b && negb (list_mem nano_id (workers b))
  then (true, with_workers (workers b ++ [nano_id]) b)
  else (false, b).

Definition remove_worker (nano_id : Z) (b : t) : bool * t :=
  if list_mem nano_id (workers b)
  then (true, with_workers (list_remove nano_id (workers b)) b)
  else (false, b).

End Building.

(** ** class Nano *)

Module Nano.

(** The fields read or written by the modelled methods; [skill_worker] is
    [skills[SkillType.WORKER]]. *)
Record t := mk {
  id : Z;
  age : Z;
  max_lifespan : Z;
  health : Q;
  skill_worker : Q;
  x : Q;
  y : Q;
  moving : bool;
  state : NanoState;
  assigned_building : option Z;
  home_building : option Z;
  current_building : option Z;
  inside_building : bool;
  meals_today : Z;
  hours_without_food : Z
}.

Definition with_building (cur : option Z) (inside : bool) (n : t) : t :=
  mk (id n) (age n) (max_lifespan n) (health n) (skill_worker n) (x n) (y n)
     (moving n) (state n) (assigned_building n) (home_building n)
     cur inside (meals_today n) (hours_without_food n).

Definition with_meal (h : Q) (meals hungry : Z) (n : t) : t :=
  mk (id n) (age n) (max_lifespan n) h (skill_worker n) (x n) (y n)
     (moving n) (state n) (assigned_building n) (home_building n)
     (current_building n) (inside_building n) meals hungry.

Definition is_dead (n : t) : bool :=
  (age n >=? max_lifespan n)%Z || Qleb (health n) 0.

(** [enter_building(building_id, buildings)]: result, the nano, the
    buildings *)
Definition enter_building (building_id : Z) (buildings : Dict.t Building.t)
    (n : t) : bool * t * Dict.t Building.t :=
  match Dict.get building_id buildings with
  | Some building =>
      let (ok, building') := Building.add_worker (id n) building in
      if ok
      then (true, with_building (Some building_id) true n,
            Dict.set building_id building' buildings)
      else (false, n, buildings)
  | None => (false, n, buildings)
  end.

Definition exit_building (buildings : Dict.t Building.t) (n : t)
    : t * Dict.t Building.t :=
  if truthy (current_building n) then
    match current_building n with
    | Some cur =>
        match Dict.get cur buildings with
        | Some building =>
            let (_, building') := Building.remove_worker (id n) building in
            (with_building None false n, Dict.set cur building' buildings)
        | None => (n, buildings)
        end
    | None => (n, buildings)
    end
  else (n, buildings).

(** EU produced per hour at [building] *)
Definition work (building : Building.t) (n : t) : Q :=
  match Building.type building with
  | BIO => 1 * (skill_worker n / 10)
  | _ => 0
  end.

Definition consume_meal (resources : Resource.t) (n : t)
    : bool * t * Resource.t :=
  let (ok, resources') := Resource.drain_eu (3 # 10) resources in
  if ok
  then (true, with_meal (health n) (meals_today n + 1) 0 n, resources')
  else (false,
        with_meal (health n - 5) (meals_today n) (hours_without_food n + 1) n,
        resources').

Definition with_home (home : option Z) (n : t) : t :=
  mk (id n) (age n) (max_lifespan n) (health n) (skill_worker n) (x n) (y n)
     (moving n) (state n) (assigned_building n) home
     (current_building n) (inside_building n) (meals_today n)
     (hours_without_food n).

Definition needs_home (n : t) : bool :=
  match home_building n with
  | None => true
  | Some _ => false
  end.

End Nano.

(** ** class GameState *)

Module GameState.

(** The resources, the three dictionaries, the hour of the clock and the
    counter of building identifiers. *)
Record t := mk {
  resources : Resource.t;
  cells : Dict.t Cell.t;
  buildings : Dict.t Building.t;
  nanos : Dict.t Nano.t;
  game_hour : Z;
  next_building_id : Z
}.

(** [GameState.__init__] *)
Definition init : t := mk Resource.init [] [] [] 0 1.

Definition with_resources (r : Resource.t) (s : t) : t :=
  mk r (cells s) (buildings s) (nanos s) (game_hour s) (next_building_id s).
Definition with_cells (c : Dict.t Cell.t) (s : t) : t :=
  mk (resources s) c (buildings s) (nanos s) (game_hour s)
     (next_building_id s).
Definition with_buildings (b : Dict.t Building.t) (nid : Z) (s : t) : t :=
  mk (resources s) (cells s) b (nanos s) (game_hour s) nid.
Definition with_nanos (n : Dict.t Nano.t) (s : t) : t :=
  mk (resources s) (cells s) (buildings s) n (game_hour s)
     (next_building_id s).

(** [sum(...)] over the values of a dictionary *)
Definition Qsum (l : list Q) : Q := fold_right Qplus 0 l.

Definition get_total_system_capacity (s : t) : Q :=
  Qsum (map (fun c => inject_Z (Cell.level c)) (Dict.values (cells s))).

Definition get_total_cell_energy (s : t) : Q :=
  Qsum (map Cell.stored_energy (Dict.values (cells s))).

Definition get_total_system_energy (s : t) : Q :=
  fold_left (fun total c => total + Cell.stored_energy c)
            (Dict.values (cells s))
            (Resource.surge_capacitor (resources s)).

(** The loop of [drain_cell_energy]: what is left to drain and the cells
    after it. *)
Fixpoint drain_loop (remaining_to_drain : Q) (cs : Dict.t Cell.t)
    : Q * Dict.t Cell.t :=
  match cs with
  | [] => (remaining_to_drain, [])
  | (k, cell) :: rest =>
      if Qleb remaining_to_drain 0 then (remaining_to_drain, cs)
      else
        let cell_energy := Cell.stored_energy cell in
        if Qgtb cell_energy 0 then
          let drain_from_cell := Qmin cell_energy remaining_to_drain in
          let (r, rest') :=
            drain_loop (remaining_to_drain - drain_from_cell) rest in
          (r, (k, Cell.with_stored_energy (cell_energy - drain_from_cell)
                    cell) :: rest')
        else
          let (r, rest') := drain_loop remaining_to_drain rest in
          (r, (k, cell) :: rest')
  end.

Definition drain_cell_energy (amount : Q) (s : t) : bool * t :=
  if (Dict.len (cells s) =? 0)%Z then (false, s)
  else if Qltb (get_total_cell_energy s) amount then (false, s)
  else
    let (remaining_to_drain, cs) := drain_loop amount (cells s) in
    (Qleb remaining_to_drain (1 # 1000), with_cells cs s).

Definition sell_cell_energy (amount : Q) (s : t) : bool * t :=
  let (ok, s1) := drain_cell_energy amount s in
  if ok then
    let current_rate := Resource.sell_rate (resources s1) in
    let credits_earned := amount * current_rate in
    let r1 := Resource.with_credits
                (Resource.credits (resources s1) + credits_earned)
                (resources s1) in
    let r2 := Resource.with_sell_rate
                (Qmax (Resource.sell_rate r1 * (9 # 10))
                      (Resource.sell_floor r1)) r1 in
    (true, with_resources r2 s1)
  else (false, s1).

Definition work_button_pressed (s : t) : t :=
  let has_cells := (Dict.len (cells s) >? 0)%Z in
  if has_cells then
    let total_capacity := get_total_system_capacity s in
    let current_surge_energy := Resource.surge_capacitor (resources s) in
    if Qltb current_surge_energy total_capacity then
      let energy_to_add :=
        Qmin (Resource.work_power (resources s))
             (total_capacity - current_surge_energy) in
      if Qgtb energy_to_add 0
      then with_resources (Resource.add_eu energy_to_add (resources s)) s
      else s
    else s
  else
    if Qltb (Resource.surge_capacitor (resources s)) (3 # 2) then
      let energy_to_add :=
        Qmin (Resource.work_power (resources s))
             ((3 # 2) - Resource.surge_capacitor (resources s)) in
      if Qgtb energy_to_add 0
      then with_resources (Resource.add_eu energy_to_add (resources s)) s
      else s
    else s.

(** A method of [self.resources] called from the state *)
Definition on_resources (f : Resource.t -> bool * Resource.t) (s : t)
    : bool * t :=
  let (ok, r) := f (resources s) in
  (ok, with_resources r s).

(** [self.resources.credits += amount] *)
Definition add_credits (amount : Q) (s : t) : t :=
  with_resources
    (Resource.with_credits (Resource.credits (resources s) + amount)
                           (resources s)) s.

Definition build_cell (x y : Z) (s : t) : bool * t :=
  let next_cell_number := (Dict.len (cells s) + 1)%Z in
  if (next_cell_number >? 100)%Z then (false, s)
  else
    let temp_cell := Cell.init next_cell_number x y in
    let (cost_eu, cost_credits) := Cell.get_purchase_cost temp_cell in
    let has_cells := (Dict.len (cells s) >? 0)%Z in
    let (can_afford_eu, s1) :=
      if has_cells then drain_cell_energy cost_eu s
      else on_resources (Resource.drain_eu cost_eu) s in
    let (can_afford_credits, s2) :=
      on_resources (Resource.spend_credits cost_credits) s1 in
    if can_afford_eu && can_afford_credits then
      let cell := Cell.init next_cell_number x y in
      (true, with_cells (Dict.set next_cell_number cell (cells s2)) s2)
    else
      (* Refund if only one succeeded *)
      if can_afford_credits then (false, add_credits cost_credits s2)
      else (false, s2).

Definition upgrade_cell (cell_number : Z) (s : t) : bool * t :=
  match Dict.get cell_number (cells s) with
  | None => (false, s)
  | Some cell =>
      if (Cell.level cell >=? 100)%Z then (false, s)
      else
        let (cost_eu, cost_credits) := Cell.get_upgrade_cost cell in
        let has_cells := (Dict.len (cells s) >? 0)%Z in
        let (can_afford_eu, s1) :=
          if has_cells then drain_cell_energy cost_eu s
          else on_resources (Resource.drain_eu cost_eu) s in
        let (can_afford_credits, s2) :=
          on_resources (Resource.spend_credits cost_credits) s1 in
        if can_afford_eu && can_afford_credits then
          (* [cell] is the object held by the dictionary: its level is
             raised after the drain changed its stored energy *)
          match Dict.get cell_number (cells s2) with
          | Some cell2 =>
              (true,
               with_cells
                 (Dict.set cell_number
                    (Cell.with_level (Cell.level cell2 + 1) cell2)
                    (cells s2)) s2)
          | None => (true, s2)
          end
        else
          (* Refund if only one succeeded *)
          if can_afford_credits then (false, add_credits cost_credits s2)
          else (false, s2)
  end.

Definition build_building (building_type : BuildingType) (x y : Z) (s : t)
    : bool * t :=
  let building := Building.init building_type x y in
  let (cost_eu, cost_credits) := Building.get_build_cost building in
  let has_cells := (Dict.len (cells s) >? 0)%Z in
  let (can_afford_eu, s1) :=
    if has_cells then drain_cell_energy cost_eu s
    else on_resources (Resource.drain_eu cost_eu) s in
  let (can_afford_credits, s2) :=
    on_resources (Resource.spend_credits cost_credits) s1 in
  if can_afford_eu && can_afford_credits then
    let building' :=
      Building.with_building_id (Some (next_building_id s2)) building in
    (true,
     with_buildings
       (Dict.set (next_building_id s2) building' (buildings s2))
       (next_building_id s2 + 1) s2)
  else
    (* Refund if only one succeeded *)
    if can_afford_credits then (false, add_credits cost_credits s2)
    else (false, s2).

(** BIO production: into the surge capacitor, up to its ceiling *)
Definition distribute_energy_to_cells (energy_amount : Q) (s : t) : t :=
  if Qleb energy_amount 0 then s
  else if (Dict.len (cells s) =? 0)%Z then
    if Qltb (Resource.surge_capacitor (resources s)) (3 # 2) then
      let energy_to_add :=
        Qmin energy_amount
             ((3 # 2) - Resource.surge_capacitor (resources s)) in
      if Qgtb energy_to_add 0
      then with_resources (Resource.add_eu energy_to_add (resources s)) s
      else s
    else s
  else
    let total_capacity := get_total_system_capacity s in
    let current_surge_energy := Resource.surge_capacitor (resources s) in
    if Qltb current_surge_energy total_capacity then
      let energy_to_add :=
        Qmin energy_amount (total_capacity - current_surge_energy) in
      if Qgtb energy_to_add 0
      then with_resources (Resource.add_eu energy_to_add (resources s)) s
      else s
    else s.

(** *** [update_energy_system], step by step *)

(** The test that puts a cell into [cells_needing_energy] *)
Definition needs_energy (cell : Cell.t) : bool :=
  Cell.active cell &&
  Qltb (Cell.stored_energy cell) (inject_Z (Cell.level cell)).

Definition cells_needing_energy (cs : Dict.t Cell.t) : list Cell.t :=
  filter needs_energy (Dict.values cs).

(** The loop over [cells_needing_energy].  The list holds the cell objects
    of the dictionary, so the loop is run over the dictionary and skips
    the cells that are not in the list; filling one cell does not change
    whether another one is in it. *)
Fixpoint fill_loop (energy_per_cell : Q) (cs : Dict.t Cell.t)
    (total_transferred : Q) : Dict.t Cell.t * Q :=
  match cs with
  | [] => ([], total_transferred)
  | (k, cell) :: rest =>
      if needs_energy cell then
        let cell_capacity := inject_Z (Cell.level cell) in
        let current_storage := Cell.stored_energy cell in
        let space_available := cell_capacity - current_storage in
        let energy_to_add := Qmin energy_per_cell space_available in
        if Qgtb energy_to_add 0 then
          let (rest', total) :=
            fill_loop energy_per_cell rest
                      (total_transferred + energy_to_add) in
          ((k, Cell.with_stored_energy (current_storage + energy_to_add)
                 cell) :: rest', total)
        else
          let (rest', total) :=
            fill_loop energy_per_cell rest total_transferred in
          ((k, cell) :: rest', total)
      else
        let (rest', total) :=
          fill_loop energy_per_cell rest total_transferred in
        ((k, cell) :: rest', total)
  end.

(** "Transfer energy from surge capacitor to cells" *)
Definition transfer_to_cells (dt : Q) (s : t) : t :=
  if Qgtb (Resource.surge_capacitor (resources s)) 0
     && (Dict.len (cells s) >? 0)%Z then
    let transfer_rate := (1 # 2) * dt in
    let energy_to_transfer :=
      Qmin (Resource.surge_capacitor (resources s)) transfer_rate in
    if Qgtb energy_to_transfer 0 then
      let needing := cells_needing_energy (cells s) in
      match needing with
      | [] => s
      | _ :: _ =>
          let energy_per_cell :=
            energy_to_transfer / inject_Z (Z.of_nat (length needing)) in
          let (cs, total_transferred) :=
            fill_loop energy_per_cell (cells s) 0 in
          let s1 := with_cells cs s in
          if Qgtb total_transferred 0 then
            with_resources
              (Resource.with_surge
                 (Resource.surge_capacitor (resources s1)
                  - total_transferred) (resources s1)) s1
          else s1
      end
    else s
  else s.

(** "Fast bleed-off for overcapacity cells", for one cell *)
Definition bleed_cell (dt : Q) (cell : Cell.t) : Cell.t :=
  let cell_capacity := inject_Z (Cell.level cell) in
  if Qgtb (Cell.stored_energy cell) cell_capacity then
    let excess := Cell.stored_energy cell - cell_capacity in
    let bleed_rate := excess * (9 # 10) * dt in
    Cell.with_stored_energy
      (Qmax cell_capacity (Cell.stored_energy cell - bleed_rate)) cell
  else cell.

Definition bleed_off (dt : Q) (s : t) : t :=
  with_cells (Dict.map_values (bleed_cell dt) (cells s)) s.

(** "Work production from BIO generators": the workers of one building *)
Fixpoint produce_workers (dt : Q) (building : Building.t) (ws : list Z)
    (s : t) : t :=
  match ws with
  | [] => s
  | nano_id :: rest =>
      let s' :=
        match Dict.get nano_id (nanos s) with
        | Some nano =>
            if NanoState_eqb (Nano.state nano) WORKING
               && Nano.inside_building nano then
              let eu_produced := Nano.work building nano * dt / 3600 in
              if Qgtb eu_produced 0
              then distribute_energy_to_cells eu_produced s
              else s
            else s
        | None => s
        end in
      produce_workers dt building rest s'
  end.

Fixpoint produce (dt : Q) (bs : list Building.t) (s : t) : t :=
  match bs with
  | [] => s
  | building :: rest =>
      let s' :=
        match Building.type building with
        | BIO => produce_workers dt building (Building.workers building) s
        | _ => s
        end in
      produce dt rest s'
  end.

Definition update_energy_system (dt : Q) (s : t) : t :=
  let s1 :=
    with_resources
      (Resource.dissipate_energy (Dict.len (cells s)) dt (resources s)) s in
  let s2 := transfer_to_cells dt s1 in
  let s3 := bleed_off dt s2 in
  produce dt (Dict.values (buildings s3)) s3.

(** *** Finding a building *)

(** The loop of [find_available_building] over [buildings.items()] *)
Fixpoint find_available (building_type : BuildingType)
    (items : list (Z * Building.t)) : option Z :=
  match items with
  | [] => None
  | (building_id, building) :: rest =>
      if BuildingType_eqb (Building.type building) building_type
         && Building.can_accept_worker building
      then Some building_id
      else find_available building_type rest
  end.

Definition find_available_building (building_type : BuildingType) (s : t)
    : option Z :=
  find_available building_type (buildings s).

(** [assign_nano_home]: the nano, with a home when one was found *)
Definition assign_nano_home (nano : Nano.t) (s : t) : Nano.t :=
  match Nano.home_building nano with
  | None =>
      let home_id := find_available_building TENT s in
      if truthy home_id then Nano.with_home home_id nano else nano
  | Some _ => nano
  end.

End GameState.

(** ** config.py: the constants used below *)

Module Config.
Definition GRID_SIZE : Z := 32.
(** [WINDOW_WIDTH - UI_PANEL_WIDTH - INFO_PANEL_WIDTH - 30] *)
Definition PLAY_AREA_WIDTH : Z := 1200 - 300 - 250 - 30.
(** [WINDOW_HEIGHT - TIME_BAR_HEIGHT - STATUS_BAR_HEIGHT - 20] *)
Definition PLAY_AREA_HEIGHT : Z := 800 - 50 - 80 - 20.
Definition NANO_MOVE_SPEED : Q := 100.
End Config.

(** ** class Game *)

Module Game.

(** [pygame.Rect] and its [collidepoint] *)
Record Rect := mkRect { left : Z; top : Z; width : Z; height : Z }.

Definition collidepoint (r : Rect) (px py : Z) : bool :=
  ((left r <=? px) && (px <? left r + width r)
   && (top r <=? py) && (py <? top r + height r))%Z.

Inductive GameMode := NORMAL | BUILD_CELL | BUILD_BUILDING | MOVE_NANO.

(** The attributes of [Game] used by the build handlers and by the death
    handling of [update]; a debris object is kept as its position. *)
Record t := mk {
  state : GameState.t;
  mode : GameMode;
  selected_building_type : option BuildingType;
  play_area_rect : Rect;
  debris_objects : list (Q * Q)
}.

Definition with_state (s : GameState.t) (g : t) : t :=
  mk s (mode g) (selected_building_type g) (play_area_rect g)
     (debris_objects g).

Definition is_valid_build_position (grid_x grid_y : Z) (g : t) : bool :=
  if ((grid_x <? 0) || (grid_y <? 0))%Z then false
  else if ((grid_x >=? Config.PLAY_AREA_WIDTH / Config.GRID_SIZE)
           || (grid_y >=? Config.PLAY_AREA_HEIGHT / Config.GRID_SIZE))%Z
  then false
  else if existsb
            (fun building =>
               ((Building.x building =? grid_x)
                && (Building.y building =? grid_y))%Z)
            (Dict.values (GameState.buildings (state g)))
  then false
  else if existsb
            (fun cell =>
               ((Cell.x cell =? grid_x) && (Cell.y cell =? grid_y))%Z)
            (Dict.values (GameState.cells (state g)))
  then false
  else true.

(** [handle_build_cell_input]; the floating label is not modelled *)
Definition handle_build_cell_input (mouse_pressed : bool)
    (mouse_x mouse_y : Z) (g : t) : t :=
  if mouse_pressed then
    let g1 :=
      if collidepoint (play_area_rect g) mouse_x mouse_y then
        let grid_x := ((mouse_x - left (play_area_rect g))
                       / Config.GRID_SIZE)%Z in
        let grid_y := ((mouse_y - top (play_area_rect g))
                       / Config.GRID_SIZE)%Z in
        with_state (snd (GameState.build_cell grid_x grid_y (state g))) g
      else g in
    mk (state g1) NORMAL (selected_building_type g1) (play_area_rect g1)
       (debris_objects g1)
  else g.

(** [handle_build_building_input]; the floating label is not modelled.
    The handler runs in mode [BUILD_BUILDING], which the build menu enters
    together with a selected type; with no type selected the model builds
    nothing. *)
Definition handle_build_building_input (mouse_pressed : bool)
    (mouse_x mouse_y : Z) (g : t) : t :=
  if mouse_pressed then
    let g1 :=
      if collidepoint (play_area_rect g) mouse_x mouse_y then
        let grid_x := ((mouse_x - left (play_area_rect g))
                       / Config.GRID_SIZE)%Z in
        let grid_y := ((mouse_y - top (play_area_rect g))
                       / Config.GRID_SIZE)%Z in
        match selected_building_type g with
        | Some ty =>
            with_state
              (snd (GameState.build_building ty grid_x grid_y (state g))) g
        | None => g
        end
      else g in
    mk (state g1) NORMAL None (play_area_rect g1) (debris_objects g1)
  else g.

(** *** Admission on arrival: the first loop of
    [check_nano_building_interaction] *)

Definition should_enter (building_id : Z) (building : Building.t)
    (nano : Nano.t) : bool :=
  match Building.type building, Nano.state nano with
  | BIO, WORKING =>
      option_Z_eqb (Nano.assigned_building nano) (Some building_id)
  | TENT, SLEEPING =>
      option_Z_eqb (Nano.home_building nano) (Some building_id)
  | MUSIC, HAPPY_TIME => true
  | STUDY, LEARNING => true
  | CAMP, TRAINING => true
  | _, _ => false
  end.

Definition near (building : Building.t) (nano : Nano.t) : bool :=
  let building_center_x :=
    inject_Z (Building.x building * Config.GRID_SIZE
              + Config.GRID_SIZE / 2) in
  let building_center_y :=
    inject_Z (Building.y building * Config.GRID_SIZE
              + Config.GRID_SIZE / 2) in
  let distance :=
    Qabs (Nano.x nano - building_center_x)
    + Qabs (Nano.y nano - building_center_y) in
  Qltb distance 20.

(** The loop over [buildings.items()]; [todo] is what is left of the
    items, [buildings] the dictionary with the workers as they are now. *)
Fixpoint entry_loop (todo : list (Z * Building.t)) (nano : Nano.t)
    (buildings : Dict.t Building.t) : Nano.t * Dict.t Building.t :=
  match todo with
  | [] => (nano, buildings)
  | (building_id, building) :: rest =>
      if near building nano then
        if should_enter building_id building nano
           && negb (Nano.inside_building nano) then
          match Nano.enter_building building_id buildings nano with
          | (true, nano', buildings') => (nano', buildings')
          | (false, nano', buildings') => entry_loop rest nano' buildings'
          end
        else entry_loop rest nano buildings
      else entry_loop rest nano buildings
  end.

Definition check_nano_building_entry (nano : Nano.t)
    (buildings : Dict.t Building.t) : Nano.t * Dict.t Building.t :=
  if Nano.moving nano then (nano, buildings)
  else entry_loop buildings nano buildings.

(** *** [update]: the nanos and their deaths *)

(** What the update of one nano reads and writes besides the nano itself:
    the resources (meals) and the buildings (entering and leaving). *)
Definition World : Type := (Resource.t * Dict.t Building.t)%type.

(** "Handle nano deaths": one dead nano is turned into debris, deleted from
    [state.nanos] and removed from the workers of every building. *)
Definition purge_worker (nano_id : Z) (building : Building.t)
    : Building.t :=
  if list_mem nano_id (Building.workers building)
  then Building.with_workers
         (list_remove nano_id (Building.workers building)) building
  else building.

Definition bury (dead_nano : Nano.t) (g : t) : t :=
  let debris := (Nano.x dead_nano, Nano.y dead_nano) in
  let s := state g in
  let nanos' :=
    if Dict.mem (Nano.id dead_nano) (GameState.nanos s)
    then Dict.del (Nano.id dead_nano) (GameState.nanos s)
    else GameState.nanos s in
  let buildings' :=
    Dict.map_values (purge_worker (Nano.id dead_nano))
                    (GameState.buildings s) in
  mk (GameState.mk (GameState.resources s) (GameState.cells s) buildings'
                   nanos' (GameState.game_hour s)
                   (GameState.next_building_id s))
     (mode g) (selected_building_type g) (play_area_rect g)
     (debris_objects g ++ [debris]).

Definition handle_deaths (dead_nanos : list Nano.t) (g : t) : t :=
  fold_left (fun g' dead_nano => bury dead_nano g') dead_nanos g.

Section Update.

(** The body of the loop before the death check: [update_position],
    [update_animation] and [update_nano_ai] for one nano, at a time step
    and an hour of the clock.  Movement, schedule and random choices are
    left open; the nano is the only agent it changes. *)
Variable update_nano : Q -> Z -> Nano.t -> World -> Nano.t * World.

(** The loop over [state.nanos.values()]: the nanos after their update,
    the world, and [dead_nanos]. *)
Fixpoint nano_loop (dt : Q) (hour : Z) (todo : Dict.t Nano.t) (w : World)
    : Dict.t Nano.t * World * list Nano.t :=
  match todo with
  | [] => ([], w, [])
  | (k, nano) :: rest =>
      let (nano', w') := update_nano dt hour nano w in
      let '(rest', w'', dead_nanos) := nano_loop dt hour rest w' in
      ((k, nano') :: rest', w'',
       if Qleb (Nano.health nano') 0
       then nano' :: dead_nanos else dead_nanos)
  end.

(** The state when the loop over the nanos is over, and [dead_nanos] *)
Definition after_nano_loop (dt : Q) (g : t) : t * list Nano.t :=
  let s := state g in
  let '(nanos', (resources', buildings'), dead_nanos) :=
    nano_loop dt (GameState.game_hour s) (GameState.nanos s)
              (GameState.resources s, GameState.buildings s) in
  (with_state
     (GameState.mk resources' (GameState.cells s) buildings' nanos'
                   (GameState.game_hour s) (GameState.next_building_id s))
     g,
   dead_nanos).

(** "Update Nanos and check for deaths" and "Handle nano deaths" of
    [update]; what follows them in [update] (labels, debris, power
    effects, game conditions) changes neither the nanos nor the
    buildings. *)
Definition update_nanos (dt : Q) (g : t) : t :=
  let (g1, dead_nanos) := after_nano_loop dt g in
  handle_deaths dead_nanos g1.

End Update.

(** One instance of the update of a nano: the admission check and the meal
    of [update_nano_ai] ("Handle meal times"), with the movement, the
    schedule and the exits left out. *)
Definition arrive_and_eat (dt : Q) (current_hour : Z) (nano : Nano.t)
    (w : World) : Nano.t * World :=
  let (resources, buildings) := w in
  let (nano1, buildings1) := check_nano_building_entry nano buildings in
  if (list_mem current_hour [8; 12; 18]
      && (Nano.meals_today nano1 <? 3))%Z then
    let '(_, nano2, resources2) := Nano.consume_meal resources nano1 in
    (nano2, (resources2, buildings1))
  else (nano1, (resources, buildings1)).

(** *** Screen and grid coordinates *)

Definition get_grid_position (x y : Z) (g : t) : Z * Z :=
  (((x - left (play_area_rect g)) / Config.GRID_SIZE)%Z,
   ((y - top (play_area_rect g)) / Config.GRID_SIZE)%Z).

Definition get_screen_position (grid_x grid_y : Z) (g : t) : Z * Z :=
  ((left (play_area_rect g) + grid_x * Config.GRID_SIZE)%Z,
   (top (play_area_rect g) + grid_y * Config.GRID_SIZE)%Z).

(** *** The UPGD and SELL buttons of [handle_normal_mode_input] *)

(** The branch of the UPGD button, without its labels and its logging: 1 EU
    and 100 credits for 0.1 of work power, the energy taken from the surge
    capacitor first and then from the cells. *)
Definition upgd_pressed (s : GameState.t) : GameState.t :=
  let eu_cost := 1 in
  let credits_cost := 100 in
  let surge_eu := Resource.surge_capacitor (GameState.resources s) in
  let cell_eu := GameState.get_total_cell_energy s in
  let total_eu := surge_eu + cell_eu in
  let can_afford_eu := Qgeb total_eu eu_cost in
  let can_afford_credits :=
    Qgeb (Resource.credits (GameState.resources s)) credits_cost in
  if can_afford_eu && can_afford_credits then
    let eu_remaining := eu_cost in
    let s1 :=
      if Qgeb surge_eu eu_remaining then
        GameState.with_resources
          (Resource.with_surge (surge_eu - eu_remaining)
                               (GameState.resources s)) s
      else
        let s0 :=
          GameState.with_resources
            (Resource.with_surge 0 (GameState.resources s)) s in
        let eu_remaining := eu_remaining - surge_eu in
        if Qgtb eu_remaining 0
        then snd (GameState.drain_cell_energy eu_remaining s0)
        else s0 in
    let r2 :=
      Resource.with_credits
        (Resource.credits (GameState.resources s1) - credits_cost)
        (GameState.resources s1) in
    GameState.with_resources
      (Resource.with_work_power (Resource.work_power r2 + (1 # 10)) r2) s1
  else s.

(** The branch of the SELL button, without its labels: 1 EU from the cells
    when they hold it, else from the surge capacitor when it holds it. *)
Definition sell_pressed (s : GameState.t) : GameState.t :=
  let surge_eu := Resource.surge_capacitor (GameState.resources s) in
  let cell_eu := GameState.get_total_cell_energy s in
  let total_eu := surge_eu + cell_eu in
  if Qgeb total_eu 1 then
    if Qgeb cell_eu 1 then snd (GameState.sell_cell_energy 1 s)
    else if Qgeb surge_eu 1 then
      snd (GameState.on_resources (Resource.sell_eu 1) s)
    else s
  else s.

(** *** The arrival of a power effect *)

(** The end of the flight of a power effect in [update_power_effects] ("Add
    energy to the target cell immediately"); the flight itself is
    presentation. *)
Definition power_effect_arrives (target_cell : Z) (energy_amount : Q)
    (s : GameState.t) : GameState.t :=
  match Dict.get target_cell (GameState.cells s) with
  | Some cell =>
      let cell_capacity := inject_Z (Cell.level cell) in
      let current_storage := Cell.stored_energy cell in
      let energy_to_add :=
        Qmin energy_amount (cell_capacity - current_storage) in
      if Qgtb energy_to_add 0 then
        GameState.with_cells
          (Dict.set target_cell
             (Cell.with_stored_energy (current_storage + energy_to_add) cell)
             (GameState.cells s)) s
      else s
  | None => s
  end.

End Game.

(** ** class Nano: needs, ageing and activities *)

Module Needs.

(** The attributes of a [Nano] that its needs, its ageing and its
    activities read or write; [skill_worker] is [skills[SkillType.WORKER]]. *)
Record t := mk {
  age : Z;
  speed : Z;
  brain : Q;
  health : Q;
  happy : Q;
  force : Q;
  skill_worker : Q;
  state : NanoState;
  home_building : option Z;
  meals_today : Z;
  work_hours : Z;
  sleep_hours : Z;
  other_hours : Z;
  hours_without_food : Z;
  hours_homeless : Z
}.

Definition with_age (v : Z) (n : t) : t :=
  mk v (speed n) (brain n) (health n) (happy n) (force n) (skill_worker n)
     (state n) (home_building n) (meals_today n) (work_hours n)
     (sleep_hours n) (other_hours n) (hours_without_food n)
     (hours_homeless n).
Definition with_speed_brain (sp : Z) (br : Q) (n : t) : t :=
  mk (age n) sp br (health n) (happy n) (force n) (skill_worker n)
     (state n) (home_building n) (meals_today n) (work_hours n)
     (sleep_hours n) (other_hours n) (hours_without_food n)
     (hours_homeless n).
Definition with_health (v : Q) (n : t) : t :=
  mk (age n) (speed n) (brain n) v (happy n) (force n) (skill_worker n)
     (state n) (home_building n) (meals_today n) (work_hours n)
     (sleep_hours n) (other_hours n) (hours_without_food n)
     (hours_homeless n).
Definition with_happy (v : Q) (n : t) : t :=
  mk (age n) (speed n) (brain n) (health n) v (force n) (skill_worker n)
     (state n) (home_building n) (meals_today n) (work_hours n)
     (sleep_hours n) (other_hours n) (hours_without_food n)
     (hours_homeless n).
Definition with_force (v : Q) (n : t) : t :=
  mk (age n) (speed n) (brain n) (health n) (happy n) v (skill_worker n)
     (state n) (home_building n) (meals_today n) (work_hours n)
     (sleep_hours n) (other_hours n) (hours_without_food n)
     (hours_homeless n).
Definition with_skill_brain (sk br : Q) (n : t) : t :=
  mk (age n) (speed n) br (health n) (happy n) (force n) sk
     (state n) (home_building n) (meals_today n) (work_hours n)
     (sleep_hours n) (other_hours n) (hours_without_food n)
     (hours_homeless n).
Definition with_hours_homeless (v : Z) (n : t) : t :=
  mk (age n) (speed n) (brain n) (health n) (happy n) (force n)
     (skill_worker n) (state n) (home_building n) (meals_today n)
     (work_hours n) (sleep_hours n) (other_hours n) (hours_without_food n) v.
(** The daily counters set back to zero *)
Definition reset_day (n : t) : t :=
  mk (age n) (speed n) (brain n) (health n) (happy n) (force n)
     (skill_worker n) (state n) (home_building n) 0 0 0 0
     (hours_without_food n) (hours_homeless n).

Definition age_one_year (n : t) : t :=
  let n1 := with_age (age n + 1) n in
  let n2 :=
    if (age n1 >? 50)%Z
    then with_speed_brain (Z.max 50 (speed n1 - 2))
                          (Qmin 20 (brain n1 + (1 # 2))) n1
    else n1 in
  if (age n2 >? 65)%Z
  then with_health (Qmax 50 (health n2 - 3)) n2
  else n2.

Definition needs_home (n : t) : bool :=
  match home_building n with
  | None => true
  | Some _ => false
  end.

Definition lose_happiness (amount : Q) (n : t) : t :=
  with_happy (Qmax 0 (happy n - amount)) n.

Definition gain_happiness (amount : Q) (n : t) : t :=
  with_happy (Qmin 100 (happy n + amount)) n.

Definition update_daily_needs (game_hour : Z) (n : t) : t :=
  let n1 :=
    if (game_hour =? 0)%Z then
      let na := reset_day n in
      if needs_home na then
        let nb := lose_happiness 10 na in
        let nc := with_hours_homeless (hours_homeless nb + 24) nb in
        if (hours_homeless nc >=? 48)%Z
        then with_health (health nc - 10) nc
        else nc
      else with_hours_homeless 0 na
    else n in
  let n2 :=
    if (hours_without_food n1 >=? 24)%Z
    then with_happy (happy n1 - 5) (with_health (health n1 - 2) n1)
    else n1 in
  if Qltb (health n2) 20
  then with_happy (happy n2 - 1) n2
  else n2.

(** [for _ in range(k)]: the body run [k] times, not at all for [k <= 0] *)
Definition repeat_times {A} (k : Z) (f : A -> A) (a : A) : A :=
  Nat.iter (Z.to_nat k) f a.

Definition update_yearly_aging (game_year last_year : Z) (n : t) : t :=
  if (game_year >? last_year)%Z then
    let years_passed := (game_year - last_year)%Z in
    repeat_times years_passed age_one_year n
  else n.

(** [study], [train] and [enjoy_music]: what is produced, and the nano *)
Definition study (n : t) : Q * t :=
  if NanoState_eqb (state n) LEARNING then
    let skill_gain := 1 # 10 in
    (1 # 10,
     with_skill_brain (Qmin 10 (skill_worker n + skill_gain))
                      (brain n + (5 # 100)) n)
  else (0, n).

Definition train (n : t) : Q * t :=
  if NanoState_eqb (state n) TRAINING then
    let n1 := with_force (force n + (1 # 10)) n in
    (1 # 10, with_health (Qmin 100 (health n1 + (1 # 2))) n1)
  else (0, n).

Definition enjoy_music (n : t) : t :=
  if NanoState_eqb (state n) HAPPY_TIME
  then with_happy (Qmin 100 (happy n + 2)) n
  else n.

End Needs.

(** ** The clock of [GameState] *)

Module Clock.

(** The time attributes of [GameState] and the nanos its clock updates *)
Record t := mk {
  game_hour : Z;
  game_minute : Z;
  game_day : Z;
  game_month : Z;
  game_year : Z;
  time_accumulator : Q;
  last_year : Z;
  nanos : Dict.t Needs.t
}.

(** [GameState.__init__], with the nanos given *)
Definition init (nanos : Dict.t Needs.t) : t := mk 0 0 0 0 0 0 0 nanos.

Definition advance_minute (s : t) : t :=
  let minute1 := (game_minute s + 1)%Z in
  if (minute1 >=? 60)%Z then
    let hour1 := (game_hour s + 1)%Z in
    let nanos1 := Dict.map_values (Needs.update_daily_needs hour1) (nanos s) in
    if (hour1 >=? 24)%Z then
      let day1 := (game_day s + 1)%Z in
      if (day1 >=? 30)%Z then
        let month1 := (game_month s + 1)%Z in
        if (month1 >=? 12)%Z then
          let year1 := (game_year s + 1)%Z in
          let nanos2 :=
            Dict.map_values (Needs.update_yearly_aging year1 (last_year s))
                            nanos1 in
          mk 0 0 0 0 year1 (time_accumulator s) year1 nanos2
        else
          mk 0 0 0 month1 (game_year s) (time_accumulator s) (last_year s)
             nanos1
      else
        mk 0 0 day1 (game_month s) (game_year s) (time_accumulator s)
           (last_year s) nanos1
    else
      mk hour1 0 (game_day s) (game_month s) (game_year s)
         (time_accumulator s) (last_year s) nanos1
  else
    mk (game_hour s) minute1 (game_day s) (game_month s) (game_year s)
       (time_accumulator s) (last_year s) (nanos s).

Definition with_accumulator (v : Q) (s : t) : t :=
  mk (game_hour s) (game_minute s) (game_day s) (game_month s)
     (game_year s) v (last_year s) (nanos s).

(** The loop [while self.time_accumulator >= 1.0] of [update_time], run
    with a bound on its iterations: [None] when the bound is reached before
    the loop is over. *)
Fixpoint time_loop (fuel : nat) (s : t) : option t :=
  if Qgeb (time_accumulator s) 1 then
    match fuel with
    | O => None
    | S fuel' =>
        time_loop fuel'
          (advance_minute (with_accumulator (time_accumulator s - 1) s))
    end
  else Some s.

Definition update_time (fuel : nat) (dt : Q) (s : t) : option t :=
  time_loop fuel (with_accumulator (time_accumulator s + dt) s).

Definition get_precise_time_progress (s : t) : Q :=
  inject_Z (game_minute s) / 60.

Definition is_daytime (s : t) : bool :=
  ((6 <=? game_hour s) && (game_hour s <? 18))%Z.

Definition get_sun_moon_position (s : t) : Q :=
  let precise_hour :=
    inject_Z (game_hour s) + inject_Z (game_minute s) / 60 in
  if is_daytime s then
    if Qgeb precise_hour 6 then (precise_hour - 6) / 12 else 0
  else
    if Qgeb precise_hour 18 then (precise_hour - 18) / 12
    else (precise_hour + 6) / 12.

End Clock.

(** ** class Nano: movement *)

Inductive Direction := DOWN | LEFT | RIGHT | UP.

Module Walk.

(** The attributes of a [Nano] that [update_position] and [move_to] read or
    write *)
Record t := mk {
  x : Q;
  y : Q;
  target_x : Q;
  target_y : Q;
  moving : bool;
  direction : Direction;
  speed : Z
}.

Definition move_to (tx ty : Q) (n : t) : t :=
  mk (x n) (y n) tx ty true (direction n) (speed n).

Definition update_position (dt : Q) (n : t) : t :=
  if moving n then
    let dx := target_x n - x n in
    let dy := target_y n - y n in
    let distance := Qabs dx + Qabs dy in
    if Qltb distance 2 then
      mk (target_x n) (target_y n) (target_x n) (target_y n) false DOWN
         (speed n)
    else
      let move_speed :=
        (inject_Z (speed n) / 100) * Config.NANO_MOVE_SPEED * dt in
      if Qgtb (Qabs dx) 1 then
        let move_x := if Qgtb dx 0 then move_speed else - move_speed in
        mk (x n + move_x) (y n) (target_x n) (target_y n) (moving n)
           (if Qgtb dx 0 then RIGHT else LEFT) (speed n)
      else if Qgtb (Qabs dy) 1 then
        let move_y := if Qgtb dy 0 then move_speed else - move_speed in
        mk (x n) (y n + move_y) (target_x n) (target_y n) (moving n)
           (if Qgtb dy 0 then DOWN else UP) (speed n)
      else n
  else n.

End Walk.

(** ** Runs of commands *)

(** [n] presses of the WORK button with no time passing *)
Fixpoint presses (n : nat) (s : GameState.t) : GameState.t :=
  match n with
  | O => s
  | S m => presses m (GameState.work_button_pressed s)
  end.

(** [n] ticks of the energy system, each of length [dt] *)
Fixpoint ticks (n : nat) (dt : Q) (s : GameState.t) : GameState.t :=
  match n with
  | O => s
  | S m => ticks m dt (GameState.update_energy_system dt s)
  end.

(** A sale from the surge capacitor ([Resource.sell_eu]) or from the cells
    ([GameState.sell_cell_energy]) *)
Inductive Sale :=
| FromSurge (amount : Q)
| FromCells (amount : Q).

Definition sale_amount (c : Sale) : Q :=
  match c with FromSurge a | FromCells a => a end.

Definition sell (c : Sale) (s : GameState.t) : bool * GameState.t :=
  match c with
  | FromSurge amount =>
      GameState.on_resources (Resource.sell_eu amount) s
  | FromCells amount => GameState.sell_cell_energy amount s
  end.

(** Consecutive sales, all of them successful: [None] as soon as one fails *)
Fixpoint sell_all (cs : list Sale) (s : GameState.t) : option GameState.t :=
  match cs with
  | [] => Some s
  | c :: rest =>
      match sell c s with
      | (true, s') => sell_all rest s'
      | (false, _) => None
      end
  end.

(** Calls on one building: admissions and evictions *)
Inductive Call :=
| Admit (nano_id : Z)
| Evict (nano_id : Z).

Definition call (c : Call) (b : Building.t) : Building.t :=
  match c with
  | Admit nano_id => snd (Building.add_worker nano_id b)
  | Evict nano_id => snd (Building.remove_worker nano_id b)
  end.

Definition calls (cs : list Call) (b : Building.t) : Building.t :=
  fold_left (fun b' c => call c b') cs b.

(** ** Invariants of the data model *)

(** The occupants of a building: no more than its capacity, no duplicates *)
Definition occupancy_ok (b : Building.t) : Prop :=
  (Z.of_nat (length (Building.workers b)) <= Building.capacity b)%Z
  /\ NoDup (Building.workers b).

Definition registry_ok (bs : Dict.t Building.t) : Prop :=
  Forall occupancy_ok (Dict.values bs).

(** A nano is stored under its identifier ([nanos[nano.id] = nano]) *)
Definition keyed_by_id (ns : Dict.t Nano.t) : Prop :=
  Forall (fun kn => Nano.id (snd kn) = fst kn) ns.

(** An agent is gone: it is no key of the nanos and no worker of any
    building *)
Definition absent (k : Z) (s : GameState.t) : Prop :=
  Dict.mem k (GameState.nanos s) = false
  /\ Forall (fun b => ~ In k (Building.workers b))
            (Dict.values (GameState.buildings s)).

(** What is used of the update of one nano: the identifier of a nano is
    immutable, and the workers of the buildings are changed through
    admission and eviction only, which keep [registry_ok]. *)
Definition keeps_id
    (f : Q -> Z -> Nano.t -> Game.World -> Nano.t * Game.World) : Prop :=
  forall dt hour nano w, Nano.id (fst (f dt hour nano w)) = Nano.id nano.

Definition keeps_registry
    (f : Q -> Z -> Nano.t -> Game.World -> Nano.t * Game.World) : Prop :=
  forall dt hour nano w,
    registry_ok (snd w) -> registry_ok (snd (snd (f dt hour nano w))).

(** ** The transfer step, cell by cell *)

(** A cell below its capacity *)
Definition below_capacity (c : Cell.t) : bool :=
  Qltb (Cell.stored_energy c) (inject_Z (Cell.level c)).

(** [Cell.__init__] sets [active] and nothing resets it *)
Definition all_active (cs : Dict.t Cell.t) : Prop :=
  Forall (fun kc => Cell.active (snd kc) = true) cs.

(** The energy stored in the cells of a dictionary
    ([get_total_cell_energy]) *)
Definition cell_energy (cs : Dict.t Cell.t) : Q :=
  GameState.Qsum (map Cell.stored_energy (Dict.values cs)).

(** How many cells are below their capacity *)
Definition cells_below_capacity (cs : Dict.t Cell.t) : Q :=
  inject_Z (Z.of_nat (length (filter below_capacity (Dict.values cs)))).

(** What a transfer with the given share per cell makes of an entry of the
    cells: the key and everything of the cell but its stored energy stay; a
    cell below its capacity gets the share or the space it has left,
    whichever is less, and does not go above its capacity; another cell is
    left alone. *)
Definition received (share : Q) (kc kc' : Z * Cell.t) : Prop :=
  let c := snd kc in
  let c' := snd kc' in
  fst kc' = fst kc
  /\ c' = Cell.with_stored_energy (Cell.stored_energy c') c
  /\ if below_capacity c
     then Cell.stored_energy c'
          == Cell.stored_energy c
             + Qmin share (inject_Z (Cell.level c) - Cell.stored_energy c)
          /\ Cell.stored_energy c' <= inject_Z (Cell.level c)
     else c' = c.

(** ** Balances *)

(** The energy a purchase can draw on: the cells when there are cells, the
    surge capacitor otherwise *)
Definition payable_energy (s : GameState.t) : Q :=
  if (Dict.len (GameState.cells s) >? 0)%Z
  then GameState.get_total_cell_energy s
  else Resource.surge_capacitor (GameState.resources s).

(** Nothing of the state changed, the credits being compared as numbers *)
Definition untouched (s s' : GameState.t) : Prop :=
  GameState.cells s' = GameState.cells s
  /\ GameState.buildings s' = GameState.buildings s
  /\ GameState.nanos s' = GameState.nanos s
  /\ Resource.surge_capacitor (GameState.resources s')
     = Resource.surge_capacitor (GameState.resources s)
  /\ Resource.credits (GameState.resources s')
     == Resource.credits (GameState.resources s).

(** The ceiling of the surge capacitor for added energy: 1.5 with no cells,
    the total capacity of the cells otherwise *)
Definition surge_ceiling (s : GameState.t) : Q :=
  match GameState.cells s with
  | [] => 3 # 2
  | _ :: _ => GameState.get_total_system_capacity s
  end.

(** The surge capacitor after the capped admission of an amount of energy *)
Definition admitted (amount : Q) (s : GameState.t) : Q :=
  let surge := Resource.surge_capacitor (GameState.resources s) in
  if Qltb surge (surge_ceiling s)
  then surge + Qmax 0 (Qmin amount (surge_ceiling s - surge))
  else surge.

(** The stored energy that can be drained: what the cells with a positive
    store hold *)
Definition drainable (cs : Dict.t Cell.t) : Q :=
  GameState.Qsum
    (map (fun c => Qmax 0 (Cell.stored_energy c)) (Dict.values cs)).

(** What a drain makes of an entry of the cells: the key and everything of
    the cell but its stored energy stay; the stored energy does not grow and
    does not become negative. *)
Definition drained (kc kc' : Z * Cell.t) : Prop :=
  let c := snd kc in
  let c' := snd kc' in
  fst kc' = fst kc
  /\ c' = Cell.with_stored_energy (Cell.stored_energy c') c
  /\ Cell.stored_energy c' <= Cell.stored_energy c
  /\ (0 <= Cell.stored_energy c -> 0 <= Cell.stored_energy c').

(** ** The calendar *)

(** The fields of the clock within their ranges *)
Definition calendar_ok (s : Clock.t) : Prop :=
  (0 <= Clock.game_minute s < 60
   /\ 0 <= Clock.game_hour s < 24
   /\ 0 <= Clock.game_day s < 30
   /\ 0 <= Clock.game_month s < 12
   /\ 0 <= Clock.game_year s)%Z.

(** The minutes elapsed since the start of year 0 *)
Definition minutes_elapsed (s : Clock.t) : Z :=
  (Clock.game_minute s
   + 60 * (Clock.game_hour s
           + 24 * (Clock.game_day s
                   + 30 * (Clock.game_month s
                           + 12 * Clock.game_year s))))%Z.

(** The last minute of a year *)
Definition year_ends (s : Clock.t) : bool :=
  ((Clock.game_minute s =? 59) && (Clock.game_hour s =? 23)
   && (Clock.game_day s =? 29) && (Clock.game_month s =? 11))%Z.

(** The counters of a nano that only midnight resets or changes *)
Definition daily_counters (n : Needs.t) : Z * Z * Z * Z * Z * Z :=
  (Needs.meals_today n, Needs.work_hours n, Needs.sleep_hours n,
   Needs.other_hours n, Needs.hours_homeless n, Needs.hours_without_food n).

(** ** The cell bank *)

(** Every cell stores between nothing and its capacity *)
Definition within_capacity (cs : Dict.t Cell.t) : Prop :=
  Forall (fun c => 0 <= Cell.stored_energy c
                   /\ Cell.stored_energy c <= inject_Z (Cell.level c))
         (Dict.values cs).

(** The cells are numbered 1, 2, ... in the order of their purchase, each
    stored under its number *)
Definition numbered (cs : Dict.t Cell.t) : Prop :=
  Dict.keys cs = map Z.of_nat (seq 1 (length cs))
  /\ Forall (fun kc => Cell.cell_number (snd kc) = fst kc) cs.

(** The grid cell is within the play area *)
Definition in_play_area (grid_x grid_y : Z) : Prop :=
  (0 <= grid_x < Config.PLAY_AREA_WIDTH / Config.GRID_SIZE
   /\ 0 <= grid_y < Config.PLAY_AREA_HEIGHT / Config.GRID_SIZE)%Z.

(** Something (a building, a cell) stands on the grid cell *)
Definition building_at (grid_x grid_y : Z) (s : GameState.t) : Prop :=
  exists b, In b (Dict.values (GameState.buildings s))
            /\ Building.x b = grid_x /\ Building.y b = grid_y.

Definition cell_at (grid_x grid_y : Z) (s : GameState.t) : Prop :=
  exists c, In c (Dict.values (GameState.cells s))
            /\ Cell.x c = grid_x /\ Cell.y c = grid_y.

(** A building of the type with room for one more worker *)
Definition available (building_type : BuildingType) (b : Building.t)
    : Prop :=
  Building.type b = building_type /\ Building.can_accept_worker b = true.

(** ** Walking *)

(** The length of one step, the [move_speed] of [update_position] *)
Definition move_speed (dt : Q) (n : Walk.t) : Q :=
  (inject_Z (Walk.speed n) / 100) * Config.NANO_MOVE_SPEED * dt.

(** The Manhattan distance of a nano to its target *)
Definition distance (n : Walk.t) : Q :=
  Qabs (Walk.target_x n - Walk.x n) + Qabs (Walk.target_y n - Walk.y n).

(** A run of frames, each with its own length *)
Definition walks (dts : list Q) (n : Walk.t) : Walk.t :=
  fold_left (fun n dt => Walk.update_position dt n) dts n.

(** What an operation that renumbers nothing makes of an entry of the
    cells: the key and the number of the cell stay *)
Definition keeps_number (kc kc' : Z * Cell.t) : Prop :=
  fst kc' = fst kc
  /\ Cell.cell_number (snd kc') = Cell.cell_number (snd kc).

(** ** Frames *)



(** ** Production *)

(** Some worker of a BIO generator is at work inside it *)
Definition producing (s : GameState.t) : Prop :=
  exists building nano_id nano,
    In building (Dict.values (GameState.buildings s))
    /\ Building.type building = BIO
    /\ In nano_id (Building.workers building)
    /\ Dict.get nano_id (GameState.nanos s) = Some nano
    /\ Nano.state nano = WORKING
    /\ Nano.inside_building nano = true.

(** Nothing changed but the surge capacitor, which did not lose energy and
    did not pass its ceiling if it was not above it *)
Definition charged_only (s s' : GameState.t) : Prop :=
  GameState.cells s' = GameState.cells s
  /\ GameState.buildings s' = GameState.buildings s
  /\ GameState.nanos s' = GameState.nanos s
  /\ GameState.resources s'
     = Resource.with_surge
         (Resource.surge_capacitor (GameState.resources s'))
         (GameState.resources s)
  /\ Resource.surge_capacitor (GameState.resources s)
     <= Resource.surge_capacitor (GameState.resources s')
  /\ (Resource.surge_capacitor (GameState.resources s) <= surge_ceiling s ->
      Resource.surge_capacitor (GameState.resources s') <= surge_ceiling s).

(** The walk is over: the nano stands on its target *)
Definition arrived (n : Walk.t) : Prop :=
  Walk.moving n = false
  /\ Walk.x n = Walk.target_x n /\ Walk.y n = Walk.target_y n.

(** The nano is walking, exactly 1 away from its target in each
    coordinate *)
Definition in_corner (n : Walk.t) : Prop :=
  Walk.moving n = true
  /\ Qabs (Walk.target_x n - Walk.x n) == 1
  /\ Qabs (Walk.target_y n - Walk.y n) == 1.

(** ** Concrete states *)

Module Sample.

Definition rect : Game.Rect := Game.mkRect 310 60 620 650.

(** A nano standing at the origin, idle, outside of every building *)
Definition nano (id age max_lifespan : Z) (health : Q) : Nano.t :=
  Nano.mk id age max_lifespan health 1 0 0 false IDLE None None None false 0 0.

(** Nano 7, weak (health 5), registered as a worker of tent 1 *)
Definition weak_nano : Nano.t :=
  Nano.with_building (Some 1%Z) true (nano 7 30 70 5).

Definition tent_with (workers : list Z) : Building.t :=
  Building.with_building_id (Some 1%Z)
    (Building.with_workers workers (Building.init TENT 2 3)).

(** Breakfast time (hour 8) with an empty surge capacitor: the meal of
    [weak_nano] fails and costs it 5 of health. *)
Definition starving : Game.t :=
  Game.mk
    (GameState.mk Resource.init [] [(1%Z, tent_with [7%Z])]
                  [(7%Z, weak_nano)] 8 2)
    Game.NORMAL None rect [].

(** Nano 9 has reached its maximum lifespan in full health *)
Definition old_nano : Nano.t :=
  Nano.with_building (Some 1%Z) true (nano 9 90 90 100).

Definition retirement : Game.t :=
  Game.mk
    (GameState.mk Resource.init [] [(1%Z, tent_with [9%Z])]
                  [(9%Z, old_nano)] 0 2)
    Game.NORMAL None rect [].

(** A tent stands on the grid cell (2, 3); the player has 10 EU in the
    surge capacitor and 1000 credits, selected TENT in the build menu, and
    clicks at (379, 161), inside the grid cell (2, 3) of the play area. *)
Definition tent_placed : GameState.t :=
  GameState.mk (Resource.mk 1000 10 (1 # 10) 1000 10) []
               [(1%Z, tent_with [])] [] 0 2.

Definition placing_tent : Game.t :=
  Game.mk tent_placed Game.BUILD_BUILDING (Some TENT) rect [].

Definition placing_cell : Game.t :=
  Game.mk tent_placed Game.BUILD_CELL None rect [].

(** No cells, 1 EU in the surge capacitor and 50 credits: the energy of the
    first cell (1 EU) can be paid, its 100 credits cannot. *)
Definition poor : GameState.t :=
  GameState.mk (Resource.mk 50 1 (1 # 10) 1000 10) [] [] [] 0 1.

(** No cells, 10 EU and 50 credits: the energy of a tent can be paid, its
    100 credits cannot. *)
Definition poor_with_energy : GameState.t :=
  GameState.mk (Resource.mk 50 10 (1 # 10) 1000 10) [] [] [] 0 1.

(** Cell 1 at level 1 holds 1 EU, with 50 credits: the energy of its upgrade
    (1 EU) can be paid, its 100 credits cannot. *)
Definition poor_with_cell : GameState.t :=
  GameState.mk (Resource.mk 50 0 (1 # 10) 1000 10)
               [(1%Z, Cell.with_stored_energy 1 (Cell.init 1 0 0))]
               [] [] 0 1.

(** Nano 7 is inside tent 1; the music hall 2 is empty. *)
Definition music_hall : Building.t :=
  Building.with_building_id (Some 2%Z) (Building.init MUSIC 5 5).

Definition two_buildings : Dict.t Building.t :=
  [(1%Z, tent_with [7%Z]); (2%Z, music_hall)].

(** No cells and 3 EU in the surge capacitor, at the initial sell rate of
    1000 with the floor at 10. *)
Definition seller : GameState.t :=
  GameState.mk (Resource.mk 1000 3 (1 # 10) 1000 10) [] [] [] 0 1.

(** Three cells of level 1 holding 0, 0.9 and 1 EU, with 1 EU in the surge
    capacitor: the first two are below their capacity. *)
Definition three_cells : GameState.t :=
  GameState.mk (Resource.mk 1000 1 (1 # 10) 1000 10)
               [(1%Z, Cell.init 1 0 0);
                (2%Z, Cell.with_stored_energy (9 # 10) (Cell.init 2 1 0));
                (3%Z, Cell.with_stored_energy 1 (Cell.init 3 2 0))]
               [] [] 0 1.

(** Three cells holding 0.5, 0 and 2 EU *)
Definition charged : GameState.t :=
  GameState.mk Resource.init
               [(1%Z, Cell.with_stored_energy (1 # 2) (Cell.init 1 0 0));
                (2%Z, Cell.init 2 1 0);
                (3%Z, Cell.with_stored_energy 2
                        (Cell.with_level 2 (Cell.init 3 2 0)))]
               [] [] 0 1.

(** One cell of level 1, empty, with 1 EU in the surge capacitor *)
Definition one_cell : GameState.t :=
  GameState.mk (Resource.mk 1000 1 (1 # 10) 1000 10)
               [(1%Z, Cell.init 1 0 0)] [] [] 0 1.

(** Cell 1 at level 1 holds 2 EU, one more than its capacity. *)
Definition overfull : GameState.t :=
  GameState.mk Resource.init
               [(1%Z, Cell.with_stored_energy 2 (Cell.init 1 0 0))]
               [] [] 0 1.

(** A homeless nano of 50 years that had its three meals and then nothing
    for thirty hours *)
Definition hungry : Needs.t :=
  Needs.mk 50 100 10 100 50 10 1 IDLE None 3 8 8 8 30 0.

(** The last minute of year 0, with that nano *)
Definition new_years_eve : Clock.t :=
  Clock.mk 23 59 29 11 0 0 0 [(1%Z, hungry)].

(** A nano of 70 years with a health of 30 *)
Definition veteran : Needs.t :=
  Needs.mk 70 60 15 30 50 10 1 IDLE (Some 1%Z) 0 0 0 0 0 0.

(** A nano with a happiness of 2 that has not eaten for thirty hours *)
Definition gloomy : Needs.t :=
  Needs.mk 30 100 10 100 2 10 1 IDLE (Some 1%Z) 3 0 0 0 30 0.

(** A nano at (10, 10) walking to (11, 11) *)
Definition cornered : Walk.t := Walk.mk 10 10 11 11 true DOWN 100.

(** A nano at (0, 0) walking to (40, 30) *)
Definition walker : Walk.t := Walk.mk 0 0 40 30 true DOWN 100.

(** A full tent (its two places taken) and an empty music hall *)
Definition village : GameState.t :=
  GameState.mk Resource.init []
               [(1%Z, tent_with [7%Z; 9%Z]); (2%Z, music_hall)] [] 0 3.

(** 0.6 EU in the surge capacitor and 0.6 EU in the one cell: 1.2 EU in
    total, less than 1 EU in each pool *)
Definition split_energy : GameState.t :=
  GameState.mk (Resource.mk 1000 (6 # 10) (1 # 10) 1000 10)
               [(1%Z, Cell.with_stored_energy (6 # 10) (Cell.init 1 0 0))]
               [] [] 0 1.

(** Two cells of levels 2 and 3 holding 1 and 3 EU, and 1000 credits *)
Definition wealthy : GameState.t :=
  GameState.mk (Resource.mk 1000 0 (1 # 10) 1000 10)
               [(1%Z, Cell.with_stored_energy 1
                        (Cell.with_level 2 (Cell.init 1 0 0)));
                (2%Z, Cell.with_stored_energy 3
                        (Cell.with_level 3 (Cell.init 2 1 0)))]
               [] [] 0 1.

(** One cell of level 1, empty, and an empty surge capacitor *)
Definition idle_bank : GameState.t :=
  GameState.mk Resource.init [(1%Z, Cell.init 1 0 0)] [] [] 0 1.

End Sample.

(** * Properties *)

(** ** Reading the boolean comparisons *)

Lemma Qleb_true (a b : Q) : Qleb a b = true <-> a <= b.
Proof. unfold Qleb. apply Qle_bool_iff. Qed.

Lemma Qleb_false (a b : Q) : Qleb a b = false <-> b < a.
Proof.
  unfold Qleb. split; intro H.
  - apply Qnot_le_lt. intro L. apply Qle_bool_iff in L. congruence.
  - destruct (Qle_bool a b) eqn:E; [|reflexivity].
    apply Qle_bool_iff in E. lra.
Qed.

Lemma Qgeb_true (a b : Q) : Qgeb a b = true <-> b <= a.
Proof. apply Qleb_true. Qed.

Lemma Qgeb_false (a b : Q) : Qgeb a b = false <-> a < b.
Proof. apply Qleb_false. Qed.

Lemma Qltb_true (a b : Q) : Qltb a b = true <-> a < b.
Proof.
  unfold Qltb. rewrite negb_true_iff. apply (Qleb_false b a).
Qed.

Lemma Qltb_false (a b : Q) : Qltb a b = false <-> b <= a.
Proof.
  unfold Qltb. rewrite negb_false_iff. apply (Qleb_true b a).
Qed.

Lemma Qgtb_true (a b : Q) : Qgtb a b = true <-> b < a.
Proof.
  unfold Qgtb. rewrite negb_true_iff. apply (Qleb_false a b).
Qed.

Lemma Qgtb_false (a b : Q) : Qgtb a b = false <-> a <= b.
Proof.
  unfold Qgtb. rewrite negb_false_iff. apply (Qleb_true a b).
Qed.

(** Turns every decided comparison of the context into an inequality *)
Ltac read_tests :=
  repeat match goal with
  | H : Qleb _ _ = true |- _ => apply Qleb_true in H
  | H : Qleb _ _ = false |- _ => apply Qleb_false in H
  | H : Qgeb _ _ = true |- _ => apply Qgeb_true in H
  | H : Qgeb _ _ = false |- _ => apply Qgeb_false in H
  | H : Qltb _ _ = true |- _ => apply Qltb_true in H
  | H : Qltb _ _ = false |- _ => apply Qltb_false in H
  | H : Qgtb _ _ = true |- _ => apply Qgtb_true in H
  | H : Qgtb _ _ = false |- _ => apply Qgtb_false in H
  end.

(** Splits a [Qmin] or a [Qmax] of the goal or the context into its cases *)
Ltac name_minmax f a b spec :=
  let H := fresh "Hm" in
  let m := fresh "m" in
  pose proof (spec a b) as H;
  set (m := f a b) in *; clearbody m;
  destruct H as [[? ?] | [? ?]].

Ltac split_minmax :=
  repeat match goal with
  | |- context [Qmin ?a ?b] => name_minmax Qmin a b Q.min_spec
  | |- context [Qmax ?a ?b] => name_minmax Qmax a b Q.max_spec
  | H : context [Qmin ?a ?b] |- _ => name_minmax Qmin a b Q.min_spec
  | H : context [Qmax ?a ?b] |- _ => name_minmax Qmax a b Q.max_spec
  end.

(** ** The WORK button with no cells *)

Lemma press_no_cells_stays_without_cells (s : GameState.t) :
  GameState.cells s = [] ->
  GameState.cells (GameState.work_button_pressed s) = [].
Proof.
  intro H. unfold GameState.work_button_pressed. rewrite H. simpl.
  repeat match goal with |- context [if ?c then _ else _] => destruct c end;
    simpl; assumption.
Qed.

Lemma press_no_cells_below_ceiling (s : GameState.t) :
  GameState.cells s = [] ->
  Resource.surge_capacitor (GameState.resources s) <= 3 # 2 ->
  Resource.surge_capacitor
    (GameState.resources (GameState.work_button_pressed s)) <= 3 # 2.
Proof.
  intros H L. unfold GameState.work_button_pressed. rewrite H. simpl.
  destruct (Qltb _ _) eqn:E1; [|exact L].
  destruct (Qgtb _ _) eqn:E2; [|exact L].
  simpl. read_tests. split_minmax; lra.
Qed.

(** C7: with no cells, presses of the WORK button that start at or below the
    ceiling of 1.5 never bring the surge capacitor above it; and from the
    initial state (1000 credits, work power 0.1, no cells), 20 presses leave
    it at exactly 1.5. *)
Theorem work_button_never_exceeds_ceiling :
  (forall (n : nat) (s : GameState.t),
      GameState.cells s = [] ->
      Resource.surge_capacitor (GameState.resources s) <= 3 # 2 ->
      Resource.surge_capacitor (GameState.resources (presses n s)) <= 3 # 2)
  /\ Resource.surge_capacitor (GameState.resources (presses 20 GameState.init))
     == 3 # 2
  /\ ~ Resource.surge_capacitor
         (GameState.resources (presses 20 GameState.init)) == 2.
Proof.
  split; [|split].
  - induction n as [|n IH]; intros s Hc Hs; simpl.
    + exact Hs.
    + apply IH.
      * apply press_no_cells_stays_without_cells; exact Hc.
      * apply press_no_cells_below_ceiling; assumption.
  - vm_compute. reflexivity.
  - vm_compute. discriminate.
Qed.

Lemma work_button_never_exceeds_ceiling_witness :
  Resource.surge_capacitor (GameState.resources (presses 7 GameState.init))
  <= 3 # 2.
Proof.
  apply (proj1 work_button_never_exceeds_ceiling 7%nat GameState.init).
  - reflexivity.
  - vm_compute. discriminate.
Defined.

(** ** Python list operations *)

Lemma list_mem_In (x : Z) (l : list Z) : list_mem x l = true <-> In x l.
Proof.
  unfold list_mem. rewrite existsb_exists. split.
  - intros [y [Hy E]]. apply Z.eqb_eq in E. subst. exact Hy.
  - intro H. exists x. split; [exact H | apply Z.eqb_refl].
Qed.

Lemma list_mem_not_In (x : Z) (l : list Z) :
  list_mem x l = false <-> ~ In x l.
Proof.
  rewrite <- list_mem_In. destruct (list_mem x l); split; congruence.
Qed.

Lemma list_remove_incl (x y : Z) (l : list Z) :
  In y (list_remove x l) -> In y l.
Proof.
  induction l as [|z l IH]; simpl; [tauto|].
  destruct (x =? z)%Z; simpl; tauto.
Qed.

Lemma list_remove_NoDup (x : Z) (l : list Z) :
  NoDup l -> NoDup (list_remove x l).
Proof.
  induction 1 as [|z l Hz Hl IH]; simpl; [constructor|].
  destruct (x =? z)%Z; [exact Hl|].
  constructor; [|exact IH].
  intro H. apply Hz. eapply list_remove_incl; exact H.
Qed.

Lemma list_remove_gone (x : Z) (l : list Z) :
  NoDup l -> ~ In x (list_remove x l).
Proof.
  induction 1 as [|z l Hz Hl IH]; simpl; [tauto|].
  destruct (x =? z)%Z eqn:E.
  - apply Z.eqb_eq in E. subst. exact Hz.
  - apply Z.eqb_neq in E. simpl. intros [H | H]; [congruence | tauto].
Qed.

Lemma list_remove_length (x : Z) (l : list Z) :
  (length (list_remove x l) <= length l)%nat.
Proof.
  induction l as [|z l IH]; simpl; [lia|].
  destruct (x =? z)%Z; simpl; lia.
Qed.

(** ** Dictionaries *)

Lemma Dict_set_values {V} (P : V -> Prop) (k : Z) (v : V) (d : Dict.t V) :
  P v -> Forall P (Dict.values d) -> Forall P (Dict.values (Dict.set k v d)).
Proof.
  intros Hv. unfold Dict.values.
  induction d as [|[k' v'] d IH]; simpl; intro H.
  - constructor; [exact Hv | constructor].
  - inversion H; subst. destruct (k =? k')%Z; simpl; constructor; auto.
Qed.

Lemma Dict_get_values {V} (P : V -> Prop) (k : Z) (v : V) (d : Dict.t V) :
  Forall P (Dict.values d) -> Dict.get k d = Some v -> P v.
Proof.
  unfold Dict.values.
  induction d as [|[k' v'] d IH]; simpl; intros H G; [discriminate|].
  inversion H; subst. destruct (k =? k')%Z.
  - injection G as <-. assumption.
  - auto.
Qed.

Lemma Dict_get_In {V} (k : Z) (v : V) (d : Dict.t V) :
  Dict.get k d = Some v -> In v (Dict.values d).
Proof.
  unfold Dict.values.
  induction d as [|[k' v'] d IH]; simpl; intro G; [discriminate|].
  destruct (k =? k')%Z.
  - injection G as <-. left. reflexivity.
  - right. auto.
Qed.

Lemma Dict_del_mem {V} (k : Z) (d : Dict.t V) :
  Dict.mem k (Dict.del k d) = false.
Proof.
  unfold Dict.mem.
  induction d as [|[k' v'] d IH]; simpl; [reflexivity|].
  destruct (k =? k')%Z eqn:E; [exact IH|].
  simpl. rewrite E. exact IH.
Qed.

Lemma Dict_del_mem_other {V} (k j : Z) (d : Dict.t V) :
  Dict.mem k d = false -> Dict.mem k (Dict.del j d) = false.
Proof.
  unfold Dict.mem.
  induction d as [|[k' v'] d IH]; simpl; [reflexivity|].
  destruct (k =? k')%Z eqn:E; [discriminate|].
  intro H. destruct (j =? k')%Z; [auto|].
  simpl. rewrite E. auto.
Qed.

(** ** Admission and eviction keep the occupants within capacity and
    duplicate-free *)

Lemma add_worker_capacity (nano_id : Z) (b : Building.t) :
  Building.capacity (snd (Building.add_worker nano_id b))
  = Building.capacity b.
Proof.
  unfold Building.add_worker.
  destruct (_ && _); reflexivity.
Qed.

Lemma add_worker_ok (nano_id : Z) (b : Building.t) :
  occupancy_ok b -> occupancy_ok (snd (Building.add_worker nano_id b)).
Proof.
  intros [Hlen Hnd]. unfold Building.add_worker.
  destruct (Building.can_accept_worker b) eqn:Ec; simpl; [|split; assumption].
  destruct (list_mem nano_id (Building.workers b)) eqn:Em; simpl;
    [split; assumption|].
  unfold Building.can_accept_worker in Ec. apply Z.ltb_lt in Ec.
  apply list_mem_not_In in Em.
  split; simpl.
  - rewrite length_app. simpl. lia.
  - apply NoDup_app.
    + exact Hnd.
    + constructor; [simpl; tauto | constructor].
    + intros a Ha [<- | []]. exact (Em Ha).
Qed.

Lemma remove_worker_ok (nano_id : Z) (b : Building.t) :
  occupancy_ok b -> occupancy_ok (snd (Building.remove_worker nano_id b)).
Proof.
  intros [Hlen Hnd]. unfold Building.remove_worker.
  destruct (list_mem nano_id (Building.workers b)); simpl; [|split; assumption].
  split; simpl.
  - pose proof (list_remove_length nano_id (Building.workers b)). lia.
  - apply list_remove_NoDup. exact Hnd.
Qed.

Lemma call_ok (c : Call) (b : Building.t) :
  occupancy_ok b ->
  occupancy_ok (call c b) /\ Building.capacity (call c b) = Building.capacity b.
Proof.
  intro H. destruct c as [i | i]; simpl.
  - split; [apply add_worker_ok; exact H | apply add_worker_capacity].
  - split; [apply remove_worker_ok; exact H|].
    unfold Building.remove_worker. destruct (list_mem _ _); reflexivity.
Qed.

Lemma enter_building_ok (building_id : Z) (bs : Dict.t Building.t)
    (n : Nano.t) :
  Forall occupancy_ok (Dict.values bs) ->
  Forall occupancy_ok
    (Dict.values (snd (Nano.enter_building building_id bs n))).
Proof.
  intro H. unfold Nano.enter_building.
  destruct (Dict.get building_id bs) as [b|] eqn:G; [|exact H].
  pose proof (add_worker_ok (Nano.id n)
                (@Dict_get_values _ occupancy_ok _ _ _ H G)) as Hb.
  destruct (Building.add_worker (Nano.id n) b) as [ok b'].
  destruct ok; simpl in *; [|exact H].
  apply Dict_set_values; assumption.
Qed.

(** C8: a building starts within its capacity, which its type fixes, and
    without duplicates; every sequence of admissions ([add_worker]) and
    evictions keeps its occupants within that capacity and duplicate-free;
    and so does [Nano.enter_building] for every building of the registry. *)
Theorem admission_never_exceeds_capacity :
  (forall ty x y,
      occupancy_ok (Building.init ty x y)
      /\ Building.capacity (Building.init ty x y)
         = Building.get_capacity_of ty)
  /\ (forall (cs : list Call) (b : Building.t),
         occupancy_ok b ->
         occupancy_ok (calls cs b)
         /\ Building.capacity (calls cs b) = Building.capacity b)
  /\ (forall (building_id : Z) (bs : Dict.t Building.t) (n : Nano.t),
         Forall occupancy_ok (Dict.values bs) ->
         Forall occupancy_ok
           (Dict.values (snd (Nano.enter_building building_id bs n)))).
Proof.
  split; [|split].
  - intros ty x y. split; [|reflexivity].
    split; simpl; [destruct ty; simpl; lia | constructor].
  - unfold calls. induction cs as [|c cs IH]; intros b H; simpl.
    + split; [exact H | reflexivity].
    + destruct (call_ok c H) as [H1 H2].
      destruct (IH _ H1) as [H3 H4]. split; [exact H3 | congruence].
  - intros. apply enter_building_ok. assumption.
Qed.

Lemma admission_never_exceeds_capacity_witness :
  occupancy_ok
    (calls [Admit 1; Admit 2; Admit 2; Admit 3; Evict 1; Admit 4]
           (Building.init TENT 0 0)).
Proof.
  apply (proj1 (proj2 admission_never_exceeds_capacity)).
  split; simpl; [lia | constructor].
Defined.

(** ** Death: the purge of the dead nanos *)

Lemma map_values_values {V} (f : V -> V) (d : Dict.t V) :
  Dict.values (Dict.map_values f d) = map f (Dict.values d).
Proof.
  unfold Dict.values, Dict.map_values. rewrite !map_map. reflexivity.
Qed.

Lemma purge_worker_ok (k : Z) (b : Building.t) :
  occupancy_ok b -> occupancy_ok (Game.purge_worker k b).
Proof.
  intros [Hlen Hnd]. unfold Game.purge_worker.
  destruct (list_mem k (Building.workers b)); [|split; assumption].
  split; simpl.
  - pose proof (list_remove_length k (Building.workers b)). lia.
  - apply list_remove_NoDup. exact Hnd.
Qed.

Lemma purge_worker_gone (k : Z) (b : Building.t) :
  occupancy_ok b -> ~ In k (Building.workers (Game.purge_worker k b)).
Proof.
  intros [_ Hnd]. unfold Game.purge_worker.
  destruct (list_mem k (Building.workers b)) eqn:E; simpl.
  - apply list_remove_gone. exact Hnd.
  - apply list_mem_not_In. exact E.
Qed.

Lemma purge_worker_keeps_gone (j k : Z) (b : Building.t) :
  ~ In j (Building.workers b) ->
  ~ In j (Building.workers (Game.purge_worker k b)).
Proof.
  intros H. unfold Game.purge_worker.
  destruct (list_mem k (Building.workers b)); simpl; [|exact H].
  intro Hin. apply H. eapply list_remove_incl. exact Hin.
Qed.

Lemma bury_registry (d : Nano.t) (g : Game.t) :
  registry_ok (GameState.buildings (Game.state g)) ->
  registry_ok (GameState.buildings (Game.state (Game.bury d g))).
Proof.
  unfold registry_ok. simpl. rewrite map_values_values.
  intro H. apply Forall_map. eapply Forall_impl; [|exact H].
  intros b. apply purge_worker_ok.
Qed.

Lemma bury_absent (d : Nano.t) (g : Game.t) :
  registry_ok (GameState.buildings (Game.state g)) ->
  absent (Nano.id d) (Game.state (Game.bury d g)).
Proof.
  intro H. split; simpl.
  - destruct (Dict.mem (Nano.id d) (GameState.nanos (Game.state g))) eqn:E;
      [apply Dict_del_mem | exact E].
  - rewrite map_values_values. apply Forall_map.
    eapply Forall_impl; [|exact H].
    intros b. apply purge_worker_gone.
Qed.

Lemma bury_keeps_absent (k : Z) (d : Nano.t) (g : Game.t) :
  absent k (Game.state g) -> absent k (Game.state (Game.bury d g)).
Proof.
  intros [Hn Hb]. split; simpl.
  - destruct (Dict.mem (Nano.id d) (GameState.nanos (Game.state g)));
      [|exact Hn].
    apply Dict_del_mem_other. exact Hn.
  - rewrite map_values_values. apply Forall_map.
    eapply Forall_impl; [|exact Hb].
    intros b. apply purge_worker_keeps_gone.
Qed.

Lemma handle_deaths_keeps_absent (k : Z) (dead : list Nano.t) :
  forall g, absent k (Game.state g) ->
            absent k (Game.state (Game.handle_deaths dead g)).
Proof.
  unfold Game.handle_deaths.
  induction dead as [|d dead IH]; intros g H; simpl; [exact H|].
  apply IH. apply bury_keeps_absent. exact H.
Qed.

Lemma handle_deaths_purges (dead : list Nano.t) :
  forall g, registry_ok (GameState.buildings (Game.state g)) ->
            forall d, In d dead ->
                      absent (Nano.id d)
                             (Game.state (Game.handle_deaths dead g)).
Proof.
  induction dead as [|d0 dead IH]; intros g H d Hd; [destruct Hd|].
  change (Game.handle_deaths (d0 :: dead) g)
    with (Game.handle_deaths dead (Game.bury d0 g)).
  destruct Hd as [<- | Hd].
  - apply handle_deaths_keeps_absent. apply bury_absent. exact H.
  - apply IH; [apply bury_registry; exact H | exact Hd].
Qed.

Section DeathInOneTick.

Variable update_nano : Q -> Z -> Nano.t -> Game.World -> Nano.t * Game.World.
Hypothesis update_keeps_id : keeps_id update_nano.
Hypothesis update_keeps_registry : keeps_registry update_nano.

Lemma nano_loop_spec (dt : Q) (hour : Z) (todo : Dict.t Nano.t) :
  forall (w : Game.World),
    keyed_by_id todo ->
    registry_ok (snd w) ->
    let '(nanos', w', dead_nanos) :=
      Game.nano_loop update_nano dt hour todo w in
    keyed_by_id nanos'
    /\ registry_ok (snd w')
    /\ (forall k n, In (k, n) nanos' -> Nano.health n <= 0 ->
                    In n dead_nanos)
    /\ (forall n, In n dead_nanos -> Nano.health n <= 0).
Proof.
  induction todo as [|[k nano] rest IH]; intros w Hk Hr; simpl.
  - repeat split; try constructor; try exact Hr; intros; contradiction.
  - pose proof (update_keeps_id dt hour nano w) as Hid.
    pose proof (update_keeps_registry dt hour nano w Hr) as Hreg.
    destruct (update_nano dt hour nano w) as [nano' w'].
    simpl in Hid, Hreg.
    inversion Hk as [|? ? Hk1 Hk2]; subst.
    specialize (IH w' Hk2 Hreg).
    destruct (Game.nano_loop update_nano dt hour rest w')
      as [[rest' w''] dead].
    destruct IH as (IH1 & IH2 & IH3 & IH4).
    repeat split.
    + constructor; [simpl in *; congruence | exact IH1].
    + exact IH2.
    + intros k0 n [E | Hin] Hh.
      * injection E as <- <-.
        apply Qleb_true in Hh. rewrite Hh. left. reflexivity.
      * specialize (IH3 _ _ Hin Hh).
        destruct (Qleb (Nano.health nano') 0); [right|]; exact IH3.
    + intros n Hin.
      destruct (Qleb (Nano.health nano') 0) eqn:E.
      * destruct Hin as [<- | Hin]; [apply Qleb_true; exact E | auto].
      * auto.
Qed.

(** C5: a nano whose health is at most 0 at the death check of a tick (the
    nano as its own update left it) is, when that tick's death handling is
    over, no key of [state.nanos] and no worker of any building. *)
Theorem dead_nano_is_purged_in_the_same_tick (dt : Q) (g : Game.t) :
  keyed_by_id (GameState.nanos (Game.state g)) ->
  registry_ok (GameState.buildings (Game.state g)) ->
  forall (k : Z) (nano : Nano.t),
    In (k, nano)
       (GameState.nanos
          (Game.state (fst (Game.after_nano_loop update_nano dt g)))) ->
    Nano.health nano <= 0 ->
    Nano.id nano = k
    /\ absent k (Game.state (Game.update_nanos update_nano dt g)).
Proof.
  intros Hk Hr k nano Hin Hh.
  unfold Game.update_nanos. unfold Game.after_nano_loop in *.
  pose proof (@nano_loop_spec dt (GameState.game_hour (Game.state g))
                (GameState.nanos (Game.state g))
                (GameState.resources (Game.state g),
                 GameState.buildings (Game.state g)) Hk Hr) as Hspec.
  destruct (Game.nano_loop update_nano dt _ _ _) as [[nanos' [r' bs']] dead].
  destruct Hspec as (H1 & H2 & H3 & _).
  simpl in Hin, H2.
  assert (Hid : Nano.id nano = k).
  { unfold keyed_by_id in H1. rewrite Forall_forall in H1.
    exact (H1 _ Hin). }
  split; [exact Hid|].
  rewrite <- Hid.
  apply handle_deaths_purges; [exact H2|].
  eapply H3; eassumption.
Qed.

End DeathInOneTick.

(** The admission check and the meal are an update of the kind the theorem
    asks for. *)

Lemma enter_building_id (building_id : Z) (bs : Dict.t Building.t)
    (n : Nano.t) :
  Nano.id (snd (fst (Nano.enter_building building_id bs n))) = Nano.id n.
Proof.
  unfold Nano.enter_building.
  destruct (Dict.get building_id bs) as [b|]; [|reflexivity].
  destruct (Building.add_worker (Nano.id n) b) as [[] b']; reflexivity.
Qed.

Lemma entry_loop_id (todo : list (Z * Building.t)) :
  forall (n : Nano.t) (bs : Dict.t Building.t),
    Nano.id (fst (Game.entry_loop todo n bs)) = Nano.id n.
Proof.
  induction todo as [|[bid b] rest IH]; intros n bs; simpl; [reflexivity|].
  destruct (Game.near b n); [|apply IH].
  destruct (_ && _); [|apply IH].
  pose proof (enter_building_id bid bs n) as Hid.
  destruct (Nano.enter_building bid bs n) as [[ok n'] bs'].
  simpl in Hid. destruct ok; simpl; [exact Hid|].
  rewrite IH. exact Hid.
Qed.

Lemma entry_loop_registry (todo : list (Z * Building.t)) :
  forall (n : Nano.t) (bs : Dict.t Building.t),
    registry_ok bs -> registry_ok (snd (Game.entry_loop todo n bs)).
Proof.
  induction todo as [|[bid b] rest IH]; intros n bs H; simpl; [exact H|].
  destruct (Game.near b n); [|apply IH; exact H].
  destruct (_ && _); [|apply IH; exact H].
  pose proof (@enter_building_ok bid bs n H) as Hreg.
  destruct (Nano.enter_building bid bs n) as [[ok n'] bs'].
  simpl in Hreg. destruct ok; simpl; [exact Hreg|].
  apply IH. exact Hreg.
Qed.

Lemma arrive_and_eat_keeps_id : keeps_id Game.arrive_and_eat.
Proof.
  intros dt hour n [r bs]. unfold Game.arrive_and_eat.
  assert (Hid : Nano.id (fst (Game.check_nano_building_entry n bs))
                = Nano.id n).
  { unfold Game.check_nano_building_entry.
    destruct (Nano.moving n); [reflexivity | apply entry_loop_id]. }
  destruct (Game.check_nano_building_entry n bs) as [n1 bs1]. simpl in Hid.
  destruct (_ && _); [|exact Hid].
  unfold Nano.consume_meal.
  destruct (Resource.drain_eu _ r) as [[] r']; simpl; exact Hid.
Qed.

Lemma arrive_and_eat_keeps_registry : keeps_registry Game.arrive_and_eat.
Proof.
  intros dt hour n [r bs] H. simpl in H. unfold Game.arrive_and_eat.
  assert (Hreg : registry_ok (snd (Game.check_nano_building_entry n bs))).
  { unfold Game.check_nano_building_entry.
    destruct (Nano.moving n); [exact H|].
    apply entry_loop_registry. exact H. }
  destruct (Game.check_nano_building_entry n bs) as [n1 bs1]. simpl in Hreg.
  destruct (_ && _); [|exact Hreg].
  unfold Nano.consume_meal.
  destruct (Resource.drain_eu _ r) as [[] r']; simpl; exact Hreg.
Qed.

Lemma dead_nano_is_purged_in_the_same_tick_witness :
  absent 7 (Game.state
              (Game.update_nanos Game.arrive_and_eat (1 # 60)
                                 Sample.starving)).
Proof.
  refine (proj2 (@dead_nano_is_purged_in_the_same_tick
                   Game.arrive_and_eat arrive_and_eat_keeps_id
                   arrive_and_eat_keeps_registry (1 # 60) Sample.starving
                   _ _ 7%Z
                   (Nano.with_meal (5 - 5) 0 1 Sample.weak_nano) _ _)).
  - constructor; [reflexivity | constructor].
  - constructor; [|constructor].
    split; [vm_compute; discriminate|].
    constructor; [simpl; tauto | constructor].
  - vm_compute. left. reflexivity.
  - vm_compute. discriminate.
Defined.

(** C6: death of old age is not handled.  [is_dead] declares a nano dead
    when its age has reached its maximum lifespan, but the death check of
    [update] reads the health only: a nano that [is_dead] by its age and
    whose health is positive after its update is still a key of
    [state.nanos] when the tick's death handling is over. *)
Theorem death_of_old_age_is_not_handled :
  Nano.is_dead Sample.old_nano = true
  /\ forall (update_nano :
               Q -> Z -> Nano.t -> Game.World -> Nano.t * Game.World)
            (dt : Q),
       let s := Game.state Sample.retirement in
       let nano' :=
         fst (update_nano dt (GameState.game_hour s) Sample.old_nano
                (GameState.resources s, GameState.buildings s)) in
       Nano.is_dead nano' = true ->
       0 < Nano.health nano' ->
       Dict.get 9
         (GameState.nanos
            (Game.state (Game.update_nanos update_nano dt Sample.retirement)))
       = Some nano'.
Proof.
  split; [reflexivity|].
  intros update_nano dt s nano' _ Hh. subst nano' s.
  unfold Game.update_nanos, Game.after_nano_loop. simpl in Hh |- *.
  destruct (update_nano dt 0%Z Sample.old_nano _) as [n' [r' bs']].
  simpl in Hh |- *. apply Qleb_false in Hh. rewrite Hh. reflexivity.
Qed.

Lemma death_of_old_age_is_not_handled_witness :
  Dict.get 9
    (GameState.nanos
       (Game.state
          (Game.update_nanos Game.arrive_and_eat (1 # 60)
                             Sample.retirement)))
  = Some Sample.old_nano.
Proof.
  apply (proj2 death_of_old_age_is_not_handled Game.arrive_and_eat (1 # 60)).
  - reflexivity.
  - reflexivity.
Defined.

(** C9: the occupancy of the grid cell is not checked on placement.
    [is_valid_build_position] refuses the grid cell (2, 3), where a tent
    stands, yet the click handlers call [build_building] and [build_cell]
    without it: the click builds a second tent, or a cell, on that grid
    cell and charges for it. *)
Theorem placement_on_occupied_cell_succeeds :
  Game.is_valid_build_position 2 3 Sample.placing_tent = false
  /\ (let g := Game.handle_build_building_input true 379 161
                 Sample.placing_tent in
      map (fun b => (Building.type b, Building.x b, Building.y b))
          (Dict.values (GameState.buildings (Game.state g)))
      = [(TENT, 2, 3); (TENT, 2, 3)]%Z
      /\ Resource.credits (GameState.resources (Game.state g)) == 900
      /\ Resource.surge_capacitor (GameState.resources (Game.state g)) == 0)
  /\ (let g := Game.handle_build_cell_input true 379 161
                 Sample.placing_cell in
      map (fun c => (Cell.x c, Cell.y c))
          (Dict.values (GameState.cells (Game.state g))) = [(2, 3)]%Z
      /\ map (fun b => (Building.x b, Building.y b))
             (Dict.values (GameState.buildings (Game.state g)))
         = [(2, 3)]%Z
      /\ Resource.credits (GameState.resources (Game.state g)) == 900).
Proof.
  repeat split; vm_compute; reflexivity.
Qed.

(** C1: a purchase that can pay the energy but not the credits is not rolled
    back.  [build_cell], [build_building] and [upgrade_cell] drain the
    energy first and refund credits only: each of them fails here, leaves the
    credits at 50, and the energy it drained is lost. *)
Theorem failed_purchase_loses_the_energy :
  (GameState.get_total_system_energy Sample.poor == 1
   /\ fst (GameState.build_cell 0 0 Sample.poor) = false
   /\ GameState.get_total_system_energy
        (snd (GameState.build_cell 0 0 Sample.poor)) == 0
   /\ Resource.credits
        (GameState.resources (snd (GameState.build_cell 0 0 Sample.poor)))
      == 50)
  /\ (GameState.get_total_system_energy Sample.poor_with_energy == 10
      /\ fst (GameState.build_building TENT 0 0 Sample.poor_with_energy)
         = false
      /\ GameState.get_total_system_energy
           (snd (GameState.build_building TENT 0 0 Sample.poor_with_energy))
         == 0)
  /\ (GameState.get_total_system_energy Sample.poor_with_cell == 1
      /\ fst (GameState.upgrade_cell 1 Sample.poor_with_cell) = false
      /\ GameState.get_total_system_energy
           (snd (GameState.upgrade_cell 1 Sample.poor_with_cell)) == 0).
Proof.
  repeat split; vm_compute; reflexivity.
Qed.

(** ** Admission of a nano *)

Lemma add_worker_fails_unchanged (nano_id : Z) (b : Building.t) :
  fst (Building.add_worker nano_id b) = false ->
  Building.add_worker nano_id b = (false, b).
Proof.
  unfold Building.add_worker. destruct (_ && _); simpl; congruence.
Qed.

Lemma enter_building_fails_unchanged (building_id : Z)
    (bs : Dict.t Building.t) (n : Nano.t) :
  fst (fst (Nano.enter_building building_id bs n)) = false ->
  Nano.enter_building building_id bs n = (false, n, bs).
Proof.
  unfold Nano.enter_building.
  destruct (Dict.get building_id bs) as [b|]; [|reflexivity].
  destruct (Building.add_worker (Nano.id n) b) as [[] b']; simpl;
    congruence.
Qed.

Lemma entry_loop_inside (todo : list (Z * Building.t)) (n : Nano.t)
    (bs : Dict.t Building.t) :
  Nano.inside_building n = true -> Game.entry_loop todo n bs = (n, bs).
Proof.
  intro H. induction todo as [|[bid b] rest IH]; simpl; [reflexivity|].
  rewrite H, andb_false_r. destruct (Game.near b n); exact IH.
Qed.

(** C10, as the specification states it, fails: nano 7 is inside tent 1 and
    is admitted to the music hall 2 all the same; it is then a worker of
    both buildings. *)
Lemma admission_ignores_the_current_building :
  Nano.inside_building Sample.weak_nano = true
  /\ Nano.current_building Sample.weak_nano = Some 1%Z
  /\ Nano.enter_building 2 Sample.two_buildings Sample.weak_nano
     = (true,
        Nano.with_building (Some 2%Z) true Sample.weak_nano,
        [(1%Z, Sample.tent_with [7%Z]);
         (2%Z, Building.with_workers [7%Z] Sample.music_hall)])
  /\ Building.add_worker 7 Sample.music_hall
     = (true, Building.with_workers [7%Z] Sample.music_hall).
Proof.
  repeat split.
Qed.

(** C10, amended: [add_worker] and [enter_building] fail when the building
    cannot accept a worker (its occupants have reached its capacity), when
    the nano is already among its occupants, and, for [enter_building], when
    the building is unknown; a failure changes neither the occupants of any
    building nor the nano.  Whether the nano is inside another building is
    not looked at by the admission itself: the caller,
    [check_nano_building_interaction], attempts no admission for a nano
    whose [inside_building] flag is set. *)
Theorem admission_fails_when_full_or_already_in :
  (forall (nano_id : Z) (b : Building.t),
      (Z.of_nat (length (Building.workers b)) >= Building.capacity b)%Z
      \/ In nano_id (Building.workers b) ->
      Building.add_worker nano_id b = (false, b))
  /\ (forall (building_id : Z) (bs : Dict.t Building.t) (n : Nano.t),
         match Dict.get building_id bs with
         | Some b =>
             (Z.of_nat (length (Building.workers b))
              >= Building.capacity b)%Z
             \/ In (Nano.id n) (Building.workers b)
         | None => True
         end ->
         Nano.enter_building building_id bs n = (false, n, bs))
  /\ (forall (building_id : Z) (bs : Dict.t Building.t) (n : Nano.t),
         fst (fst (Nano.enter_building building_id bs n)) = false ->
         Nano.enter_building building_id bs n = (false, n, bs))
  /\ (forall (n : Nano.t) (bs : Dict.t Building.t),
         Nano.inside_building n = true ->
         Game.check_nano_building_entry n bs = (n, bs)).
Proof.
  assert (Hadd : forall (nano_id : Z) (b : Building.t),
             (Z.of_nat (length (Building.workers b))
              >= Building.capacity b)%Z
             \/ In nano_id (Building.workers b) ->
             Building.add_worker nano_id b = (false, b)).
  { intros nano_id b H. unfold Building.add_worker.
    destruct H as [H | H].
    - unfold Building.can_accept_worker.
      destruct (Z.ltb_spec (Z.of_nat (length (Building.workers b)))
                           (Building.capacity b)); [lia | reflexivity].
    - apply list_mem_In in H. rewrite H, andb_false_r. reflexivity. }
  split; [exact Hadd | split; [|split]].
  - intros building_id bs n H. unfold Nano.enter_building.
    destruct (Dict.get building_id bs) as [b|]; [|reflexivity].
    rewrite (Hadd _ _ H). reflexivity.
  - apply enter_building_fails_unchanged.
  - intros n bs H. unfold Game.check_nano_building_entry.
    destruct (Nano.moving n); [reflexivity|].
    apply entry_loop_inside. exact H.
Qed.

Lemma admission_fails_when_full_or_already_in_witness :
  Building.add_worker 8 (Sample.tent_with [7; 9]%Z)
  = (false, Sample.tent_with [7; 9]%Z)
  /\ Nano.enter_building 1 Sample.two_buildings Sample.weak_nano
     = (false, Sample.weak_nano, Sample.two_buildings)
  /\ Game.check_nano_building_entry Sample.weak_nano Sample.two_buildings
     = (Sample.weak_nano, Sample.two_buildings).
Proof.
  destruct admission_fails_when_full_or_already_in as (H1 & H2 & _ & H4).
  split; [|split].
  - apply H1. left. simpl. lia.
  - apply H2. simpl. right. left. reflexivity.
  - apply H4. reflexivity.
Defined.

(** ** Selling energy *)

Lemma drain_cell_energy_resources (amount : Q) (s : GameState.t) :
  GameState.resources (snd (GameState.drain_cell_energy amount s))
  = GameState.resources s.
Proof.
  unfold GameState.drain_cell_energy.
  destruct (_ =? _)%Z; [reflexivity|].
  destruct (Qltb _ _); [reflexivity|].
  destruct (GameState.drain_loop amount (GameState.cells s)). reflexivity.
Qed.

Lemma sell_spec (c : Sale) (s s' : GameState.t) :
  sell c s = (true, s') ->
  let r := GameState.resources s in
  let r' := GameState.resources s' in
  Resource.credits r'
  = Resource.credits r + sale_amount c * Resource.sell_rate r
  /\ Resource.sell_rate r'
     = Qmax (Resource.sell_rate r * (9 # 10)) (Resource.sell_floor r)
  /\ Resource.sell_floor r' = Resource.sell_floor r.
Proof.
  destruct c as [amount | amount]; simpl.
  - unfold GameState.on_resources, Resource.sell_eu.
    destruct (Qgeb _ _); intro H; [|discriminate].
    injection H as <-. simpl. repeat split.
  - unfold GameState.sell_cell_energy.
    pose proof (drain_cell_energy_resources amount s) as Hr.
    destruct (GameState.drain_cell_energy amount s) as [ok s1].
    simpl in Hr. destruct ok; intro H; [|discriminate].
    injection H as <-. simpl. rewrite Hr. repeat split.
Qed.

Lemma decay_pow_succ (n : nat) :
  (9 # 10) ^ Z.of_nat (S n) == (9 # 10) * (9 # 10) ^ Z.of_nat n.
Proof.
  rewrite Nat2Z.inj_succ. unfold Z.succ. rewrite Z.add_comm.
  rewrite Qpower_plus by (intro H; discriminate H). reflexivity.
Qed.

Lemma decay_pow_pos (n : nat) : 0 < (9 # 10) ^ Z.of_nat n.
Proof. apply Qpower_0_lt. reflexivity. Qed.

Lemma decay_pow_le_1 (n : nat) : (9 # 10) ^ Z.of_nat n <= 1.
Proof.
  induction n as [|n IH].
  - simpl. lra.
  - rewrite decay_pow_succ. pose proof (decay_pow_pos n). lra.
Qed.

(** One more decay in front of [n] decays, with the floor applied at each
    sale or once at the end *)
Lemma decay_step (R F p : Q) :
  0 < p -> p <= 1 -> F <= R \/ 0 <= F ->
  Qmax (Qmax (R * (9 # 10)) F * p) F == Qmax (R * ((9 # 10) * p)) F.
Proof.
  intros Hp0 Hp1 HF.
  destruct (Q.max_spec (R * (9 # 10)) F) as [[? E1] | [? E1]];
    destruct (Q.max_spec (Qmax (R * (9 # 10)) F * p) F) as [[? E2] | [? E2]];
    destruct (Q.max_spec (R * ((9 # 10) * p)) F) as [[? E3] | [? E3]];
    rewrite E2, E3; rewrite E1 in *; destruct HF; try nra.
Qed.

Lemma sell_all_rate (cs : list Sale) :
  forall s s' : GameState.t,
    Resource.sell_floor (GameState.resources s)
    <= Resource.sell_rate (GameState.resources s) ->
    sell_all cs s = Some s' ->
    Resource.sell_rate (GameState.resources s')
    == Qmax (Resource.sell_rate (GameState.resources s)
             * (9 # 10) ^ Z.of_nat (length cs))
            (Resource.sell_floor (GameState.resources s))
    /\ Resource.sell_floor (GameState.resources s')
       = Resource.sell_floor (GameState.resources s).
Proof.
  induction cs as [|c cs IH]; intros s s' Hf H.
  - injection H as <-. split; [|reflexivity].
    change ((9 # 10) ^ Z.of_nat (length (@nil Sale))) with 1.
    rewrite Qmult_1_r. rewrite Q.max_l; [reflexivity | exact Hf].
  - simpl in H. destruct (sell c s) as [[] s1] eqn:E; [|discriminate].
    destruct (sell_spec _ _ E) as (_ & Hrate & Hfloor).
    assert (Hf1 : Resource.sell_floor (GameState.resources s1)
                  <= Resource.sell_rate (GameState.resources s1)).
    { rewrite Hrate, Hfloor. apply Q.le_max_r. }
    destruct (IH s1 s' Hf1 H) as [IH1 IH2].
    split; [|congruence].
    rewrite IH1, Hrate, Hfloor.
    change (length (c :: cs)) with (S (length cs)).
    rewrite decay_pow_succ.
    apply decay_step;
      [apply decay_pow_pos | apply decay_pow_le_1 | left; exact Hf].
Qed.

(** C2: a successful sale of an amount, from the surge capacitor or from the
    cells, adds to the credits the amount times the sell rate as it was
    before the sale, and then decays the rate; after [N] consecutive
    successful sales from a rate [R0] the rate is
    [max(R0 * 0.9^N, sell_floor)], whenever [R0] is not below the floor, and
    also for any [R0] when the floor is not negative and [N >= 1]. *)
Theorem sale_pays_the_rate_before_decay :
  (forall (c : Sale) (s s' : GameState.t),
      sell c s = (true, s') ->
      Resource.credits (GameState.resources s')
      - Resource.credits (GameState.resources s)
      == sale_amount c * Resource.sell_rate (GameState.resources s))
  /\ (forall (cs : list Sale) (s s' : GameState.t),
         Resource.sell_floor (GameState.resources s)
         <= Resource.sell_rate (GameState.resources s)
         \/ (0 <= Resource.sell_floor (GameState.resources s) /\ cs <> []) ->
         sell_all cs s = Some s' ->
         Resource.sell_rate (GameState.resources s')
         == Qmax (Resource.sell_rate (GameState.resources s)
                  * (9 # 10) ^ Z.of_nat (length cs))
                 (Resource.sell_floor (GameState.resources s))).
Proof.
  split.
  - intros c s s' H. destruct (sell_spec _ _ H) as (Hc & _).
    rewrite Hc. ring.
  - intros cs s s' [Hf | [Hf Hne]] H; [apply (sell_all_rate _ _ Hf H)|].
    destruct cs as [|c cs]; [contradiction|].
    simpl in H. destruct (sell c s) as [[] s1] eqn:E; [|discriminate].
    destruct (sell_spec _ _ E) as (_ & Hrate & Hfloor).
    assert (Hf1 : Resource.sell_floor (GameState.resources s1)
                  <= Resource.sell_rate (GameState.resources s1)).
    { rewrite Hrate, Hfloor. apply Q.le_max_r. }
    destruct (sell_all_rate _ _ Hf1 H) as [H1 _].
    rewrite H1, Hrate, Hfloor.
    change (length (c :: cs)) with (S (length cs)).
    rewrite decay_pow_succ.
    apply decay_step;
      [apply decay_pow_pos | apply decay_pow_le_1 | right; exact Hf].
Qed.

Lemma sale_pays_the_rate_before_decay_witness :
  match sell_all [FromSurge 1; FromSurge 1] Sample.seller with
  | Some s' =>
      Resource.sell_rate (GameState.resources s')
      == Qmax (1000 * (9 # 10) ^ 2) 10
      /\ Resource.credits (GameState.resources s') - 1000 - 1000
         == 1 * (1000 * (9 # 10))
  | None => False
  end.
Proof.
  destruct (sell_all [FromSurge 1; FromSurge 1] Sample.seller) as [s'|] eqn:E;
    [|vm_compute in E; discriminate].
  split.
  - apply (proj2 sale_pays_the_rate_before_decay
                 [FromSurge 1; FromSurge 1] Sample.seller s').
    + left. vm_compute. discriminate.
    + exact E.
  - vm_compute in E. injection E as <-. vm_compute. reflexivity.
Defined.

(** ** Overflow correction *)

Lemma Dict_get_map_values {V} (f : V -> V) (k : Z) (d : Dict.t V) :
  Dict.get k (Dict.map_values f d) = option_map f (Dict.get k d).
Proof.
  induction d as [|[k' v] d IH]; simpl; [reflexivity|].
  destruct (k =? k')%Z; [reflexivity | exact IH].
Qed.

Lemma distribute_cells (e : Q) (s : GameState.t) :
  GameState.cells (GameState.distribute_energy_to_cells e s)
  = GameState.cells s.
Proof.
  unfold GameState.distribute_energy_to_cells.
  repeat match goal with
         | |- context [if ?c then _ else _] => destruct c
         end; reflexivity.
Qed.

Lemma produce_workers_cells (dt : Q) (b : Building.t) (ws : list Z) :
  forall s, GameState.cells (GameState.produce_workers dt b ws s)
            = GameState.cells s.
Proof.
  induction ws as [|w ws IH]; intro s; simpl; [reflexivity|].
  rewrite IH.
  destruct (Dict.get w (GameState.nanos s)) as [n|]; [|reflexivity].
  destruct (_ && _); [|reflexivity].
  destruct (Qgtb _ _); [apply distribute_cells | reflexivity].
Qed.

Lemma produce_cells (dt : Q) (bs : list Building.t) :
  forall s, GameState.cells (GameState.produce dt bs s) = GameState.cells s.
Proof.
  induction bs as [|b bs IH]; intro s; simpl; [reflexivity|].
  rewrite IH. destruct (Building.type b); try reflexivity.
  apply produce_workers_cells.
Qed.

Lemma fill_loop_keeps_full (per : Q) (k : Z) (c : Cell.t)
    (cs : Dict.t Cell.t) :
  forall total,
    Dict.get k cs = Some c ->
    GameState.needs_energy c = false ->
    Dict.get k (fst (GameState.fill_loop per cs total)) = Some c.
Proof.
  induction cs as [|[k' c'] cs IH]; intros total G Hn; simpl in *;
    [discriminate|].
  destruct (k =? k')%Z eqn:E.
  - injection G as ->. rewrite Hn.
    destruct (GameState.fill_loop per cs total). simpl. rewrite E.
    reflexivity.
  - destruct (GameState.needs_energy c');
      [destruct (Qgtb _ _)|];
      match goal with
      | |- context [GameState.fill_loop per cs ?t] =>
          specialize (IH t G Hn); destruct (GameState.fill_loop per cs t)
      end; simpl in *; rewrite E; exact IH.
Qed.

Lemma transfer_keeps_full (dt : Q) (s : GameState.t) (k : Z) (c : Cell.t) :
  Dict.get k (GameState.cells s) = Some c ->
  GameState.needs_energy c = false ->
  Dict.get k (GameState.cells (GameState.transfer_to_cells dt s)) = Some c.
Proof.
  intros G Hn. unfold GameState.transfer_to_cells.
  destruct (_ && _); [|exact G].
  destruct (Qgtb _ _); [|exact G].
  destruct (GameState.cells_needing_energy _); [exact G|].
  pose proof (@fill_loop_keeps_full
                (Qmin (Resource.surge_capacitor (GameState.resources s))
                      ((1 # 2) * dt)
                 / inject_Z (Z.of_nat (length (t :: l))))
                k c (GameState.cells s) 0 G Hn) as H.
  destruct (GameState.fill_loop _ (GameState.cells s) 0) as [cs total].
  simpl in H. destruct (Qgtb total 0); exact H.
Qed.

Lemma update_energy_system_overfull (dt : Q) (s : GameState.t) (k : Z)
    (c : Cell.t) :
  Dict.get k (GameState.cells s) = Some c ->
  inject_Z (Cell.level c) < Cell.stored_energy c ->
  Dict.get k (GameState.cells (GameState.update_energy_system dt s))
  = Some (GameState.bleed_cell dt c).
Proof.
  intros G Hover. unfold GameState.update_energy_system.
  rewrite produce_cells. unfold GameState.bleed_off. simpl.
  rewrite Dict_get_map_values.
  rewrite (@transfer_keeps_full dt _ k c); [reflexivity | exact G |].
  unfold GameState.needs_energy.
  replace (Qltb (Cell.stored_energy c) (inject_Z (Cell.level c)))
    with false; [apply andb_false_r|].
  symmetry. apply Qltb_false. lra.
Qed.

(** The value left by the bleed-off in a cell of capacity [L] that held
    [E] *)
Lemma bleed_value (L E dt : Q) :
  0 <= dt -> L < E ->
  let v := Qmax L (E - (E - L) * (9 # 10) * dt) in
  v == Qmax L (E - (9 # 10) * dt * (E - L))
  /\ L <= v
  /\ v <= E
  /\ (dt < 10 # 9 -> L < v /\ v - L == (1 - (9 # 10) * dt) * (E - L))
  /\ (10 # 9 <= dt -> v == L).
Proof.
  intros Hdt Hover v. subst v.
  destruct (Q.max_spec L (E - (E - L) * (9 # 10) * dt)) as [[H1 H2] | [H1 H2]];
    destruct (Q.max_spec L (E - (9 # 10) * dt * (E - L)))
      as [[H3 H4] | [H3 H4]];
    rewrite H2, H4;
    (split; [|split; [|split; [|split; [intros Hd; split | intros Hd]]]]);
    nra.
Qed.

(** C4, as the specification states it, fails: cell 1 (level 1) holds 2 EU;
    after a tick of 1/60 s it holds 1.985 EU, still above its level. *)
Lemma overfull_cell_stays_overfull_after_one_tick :
  match Dict.get 1 (GameState.cells Sample.overfull),
        Dict.get 1 (GameState.cells
                      (GameState.update_energy_system (1 # 60)
                                                      Sample.overfull))
  with
  | Some c, Some c' =>
      inject_Z (Cell.level c) < Cell.stored_energy c
      /\ Cell.level c' = Cell.level c
      /\ Cell.stored_energy c' == 1985 # 1000
      /\ ~ Cell.stored_energy c' <= inject_Z (Cell.level c')
  | _, _ => False
  end.
Proof.
  vm_compute.
  split; [reflexivity | split; [reflexivity | split; [reflexivity|]]].
  intro H. apply H. reflexivity.
Qed.

(** C4, amended: a cell whose stored energy exceeds its level when the
    overflow correction runs, in a tick of length [dt >= 0], keeps its level
    and ends the tick with [max(level, stored - 0.9 * dt * (stored -
    level))]: it never drops below its level, its excess over the level is
    multiplied by [1 - 0.9 * dt] and it stays above its level when
    [dt < 10/9], and it is at its level after the tick when [dt >= 10/9]. *)
Theorem overflow_bleeds_proportionally (dt : Q) (s : GameState.t) (k : Z)
    (c : Cell.t) :
  0 <= dt ->
  Dict.get k (GameState.cells s) = Some c ->
  inject_Z (Cell.level c) < Cell.stored_energy c ->
  exists c' : Cell.t,
    Dict.get k (GameState.cells (GameState.update_energy_system dt s))
    = Some c'
    /\ Cell.level c' = Cell.level c
    /\ Cell.stored_energy c'
       == Qmax (inject_Z (Cell.level c))
               (Cell.stored_energy c
                - (9 # 10) * dt
                  * (Cell.stored_energy c - inject_Z (Cell.level c)))
    /\ inject_Z (Cell.level c) <= Cell.stored_energy c'
    /\ Cell.stored_energy c' <= Cell.stored_energy c
    /\ (dt < 10 # 9 ->
        inject_Z (Cell.level c) < Cell.stored_energy c'
        /\ Cell.stored_energy c' - inject_Z (Cell.level c)
           == (1 - (9 # 10) * dt)
              * (Cell.stored_energy c - inject_Z (Cell.level c)))
    /\ (10 # 9 <= dt -> Cell.stored_energy c' == inject_Z (Cell.level c)).
Proof.
  intros Hdt G Hover.
  exists (GameState.bleed_cell dt c).
  split; [apply update_energy_system_overfull; assumption|].
  unfold GameState.bleed_cell.
  replace (Qgtb (Cell.stored_energy c) (inject_Z (Cell.level c))) with true
    by (symmetry; apply Qgtb_true; exact Hover).
  simpl.
  split; [reflexivity|].
  apply bleed_value; assumption.
Qed.

Lemma overflow_bleeds_proportionally_witness :
  exists c' : Cell.t,
    Dict.get 1 (GameState.cells
                  (GameState.update_energy_system (1 # 60) Sample.overfull))
    = Some c'
    /\ inject_Z 1 < Cell.stored_energy c'.
Proof.
  destruct (@overflow_bleeds_proportionally (1 # 60) Sample.overfull 1
              (Cell.with_stored_energy 2 (Cell.init 1 0 0)))
    as (c' & H1 & _ & _ & _ & _ & H6 & _).
  - vm_compute. discriminate.
  - reflexivity.
  - reflexivity.
  - exists c'. split; [exact H1|]. apply H6. reflexivity.
Defined.

(** ** The transfer from the surge capacitor to the cells *)

Lemma needs_energy_active (c : Cell.t) :
  Cell.active c = true -> GameState.needs_energy c = below_capacity c.
Proof.
  intro H. unfold GameState.needs_energy, below_capacity. rewrite H.
  reflexivity.
Qed.

Lemma cells_needing_energy_active (cs : Dict.t Cell.t) :
  all_active cs ->
  GameState.cells_needing_energy cs
  = filter below_capacity (Dict.values cs).
Proof.
  unfold GameState.cells_needing_energy, Dict.values, all_active.
  induction 1 as [|[k c] cs Hc _ IH]; simpl; [reflexivity|].
  simpl in Hc. rewrite (needs_energy_active _ Hc), IH. reflexivity.
Qed.

Lemma cells_below_capacity_cons (k : Z) (c : Cell.t) (cs : Dict.t Cell.t) :
  cells_below_capacity ((k, c) :: cs)
  == (if below_capacity c then 1 else 0) + cells_below_capacity cs.
Proof.
  unfold cells_below_capacity. simpl.
  destruct (below_capacity c); simpl length.
  - rewrite Nat2Z.inj_succ. unfold Z.succ. rewrite inject_Z_plus.
    simpl. ring.
  - ring.
Qed.

Lemma cells_below_capacity_nonneg (cs : Dict.t Cell.t) :
  0 <= cells_below_capacity cs.
Proof.
  unfold cells_below_capacity.
  change 0 with (inject_Z 0). rewrite <- Zle_Qle. lia.
Qed.

Lemma fill_loop_spec (per : Q) (cs : Dict.t Cell.t) :
  0 <= per ->
  all_active cs ->
  forall total : Q,
    let r := GameState.fill_loop per cs total in
    Forall2 (received per) cs (fst r)
    /\ snd r - total == cell_energy (fst r) - cell_energy cs
    /\ 0 <= snd r - total
    /\ snd r - total <= per * cells_below_capacity cs.
Proof.
  intros Hper Hact.
  induction Hact as [|[k c] cs Hc _ IH]; intro total; simpl.
  - split; [constructor|]. unfold cell_energy, cells_below_capacity; simpl.
    change (inject_Z 0) with 0. repeat split; lra.
  - simpl in Hc. rewrite (needs_energy_active _ Hc).
    pose proof (cells_below_capacity_cons k c cs) as Hn.
    pose proof (cells_below_capacity_nonneg cs) as Hn0.
    destruct (below_capacity c) eqn:Eb.
    + pose proof Eb as Hb. unfold below_capacity in Hb.
      apply Qltb_true in Hb.
      set (space := inject_Z (Cell.level c) - Cell.stored_energy c) in *.
      assert (Hspace : 0 < space) by (subst space; lra).
      pose proof (Q.le_min_l per space) as Hl.
      pose proof (Q.le_min_r per space) as Hr.
      assert (Hmin : 0 <= Qmin per space) by (apply Q.min_glb; lra).
      destruct (Qgtb (Qmin per space) 0) eqn:Eg; read_tests.
      * specialize (IH (total + Qmin per space)).
        destruct (GameState.fill_loop per cs (total + Qmin per space))
          as [rest' tot].
        simpl in IH |- *. destruct IH as (IH1 & IH2 & IH3 & IH4).
        split.
        -- constructor; [|exact IH1].
           unfold received; simpl. rewrite Eb. fold space.
           repeat split; try reflexivity. subst space. lra.
        -- unfold cell_energy in *; simpl in *. repeat split; nra.
      * specialize (IH total).
        destruct (GameState.fill_loop per cs total) as [rest' tot].
        simpl in IH |- *. destruct IH as (IH1 & IH2 & IH3 & IH4).
        split.
        -- constructor; [|exact IH1].
           unfold received; simpl. rewrite Eb. fold space.
           split; [reflexivity|]. split; [destruct c; reflexivity|].
           split; lra.
        -- unfold cell_energy in *; simpl in *. repeat split; nra.
    + specialize (IH total).
      destruct (GameState.fill_loop per cs total) as [rest' tot].
      simpl in IH |- *. destruct IH as (IH1 & IH2 & IH3 & IH4).
      split.
      * constructor; [|exact IH1].
        unfold received; simpl. rewrite Eb.
        split; [reflexivity | split; [destruct c|]; reflexivity].
      * unfold cell_energy in *; simpl in *. repeat split; nra.
Qed.

Lemma received_nothing (share : Q) (cs : Dict.t Cell.t) :
  Forall (fun kc => below_capacity (snd kc) = true -> share == 0) cs ->
  Forall2 (received share) cs cs.
Proof.
  induction 1 as [|[k c] cs Hc _ IH]; constructor; [|exact IH].
  unfold received. simpl in *.
  split; [reflexivity | split; [destruct c; reflexivity|]].
  destruct (below_capacity c) eqn:Eb; [|reflexivity].
  specialize (Hc eq_refl). unfold below_capacity in Eb. read_tests.
  destruct (Q.min_spec share
              (inject_Z (Cell.level c) - Cell.stored_energy c))
    as [[H1 H2] | [H1 H2]]; rewrite H2; split; lra.
Qed.

Lemma none_below_capacity (cs : Dict.t Cell.t) :
  filter below_capacity (Dict.values cs) = [] ->
  Forall (fun kc => below_capacity (snd kc) = true -> 0 == 1) cs.
Proof.
  unfold Dict.values.
  induction cs as [|[k c] cs IH]; simpl; intro H; constructor.
  - simpl. destruct (below_capacity c); [discriminate | discriminate].
  - destruct (below_capacity c); [discriminate | auto].
Qed.

(** C3: in a tick of length [dt >= 0] with at least one cell and a positive
    surge capacitor, the transfer step takes [min(surge, 0.5 * dt)], at most
    [0.5 * dt], splits it evenly over the cells below their capacity, adds
    to each of them its share or the space it has left, whichever is less,
    leaves every other cell alone, and takes from the surge capacitor
    exactly what the cells gained; nothing else of the resources changes. *)
Theorem transfer_splits_evenly_and_conserves (dt : Q) (s : GameState.t) :
  0 <= dt ->
  0 < Resource.surge_capacitor (GameState.resources s) ->
  GameState.cells s <> [] ->
  all_active (GameState.cells s) ->
  let s' := GameState.transfer_to_cells dt s in
  let surge := Resource.surge_capacitor (GameState.resources s) in
  let surge' := Resource.surge_capacitor (GameState.resources s') in
  let energy_to_transfer := Qmin surge ((1 # 2) * dt) in
  let share :=
    energy_to_transfer / cells_below_capacity (GameState.cells s) in
  Forall2 (received share) (GameState.cells s) (GameState.cells s')
  /\ surge - surge'
     == GameState.get_total_cell_energy s' - GameState.get_total_cell_energy s
  /\ 0 <= surge - surge'
  /\ surge - surge' <= (1 # 2) * dt
  /\ GameState.resources s'
     = Resource.with_surge surge' (GameState.resources s).
Proof.
  intros Hdt Hsurge Hcells Hact. cbv zeta.
  set (surge := Resource.surge_capacitor (GameState.resources s)) in *.
  set (e := Qmin surge ((1 # 2) * dt)).
  set (share := e / cells_below_capacity (GameState.cells s)).
  assert (Hres : GameState.resources s
                 = Resource.with_surge surge (GameState.resources s))
    by (subst surge; destruct (GameState.resources s); reflexivity).
  assert (He0 : 0 <= e) by (subst e; apply Q.min_glb; lra).
  assert (He1 : e <= (1 # 2) * dt) by (subst e; apply Q.le_min_r).
  unfold GameState.transfer_to_cells. fold surge.
  replace (Qgtb surge 0)
    with true by (symmetry; apply Qgtb_true; exact Hsurge).
  replace (Dict.len (GameState.cells s) >? 0)%Z with true
    by (symmetry; unfold Dict.len; destruct (GameState.cells s);
        [contradiction | reflexivity]).
  simpl andb. cbv iota. fold e.
  destruct (Qgtb e 0) eqn:Ee; read_tests.
  - rewrite (cells_needing_energy_active Hact).
    unfold share, cells_below_capacity.
    destruct (filter below_capacity (Dict.values (GameState.cells s)))
      as [|c0 l] eqn:En.
    + repeat split; fold surge; try lra; try exact Hres.
      apply received_nothing.
      eapply Forall_impl; [|apply none_below_capacity; exact En].
      simpl. intros kc H Hb. specialize (H Hb). discriminate H.
    + set (n := inject_Z (Z.of_nat (length (c0 :: l)))).
      assert (Hn : 0 < n).
      { subst n. change 0 with (inject_Z 0). rewrite <- Zlt_Qlt.
        simpl length. lia. }
      assert (Hper : 0 <= e / n).
      { apply Qle_shift_div_l; [exact Hn | lra]. }
      pose proof (@fill_loop_spec (e / n) (GameState.cells s) Hper Hact 0)
        as Hspec.
      assert (Hen : (e / n) * cells_below_capacity (GameState.cells s) == e).
      { unfold cells_below_capacity. rewrite En. fold n. field. lra. }
      destruct (GameState.fill_loop (e / n) (GameState.cells s) 0)
        as [cs' total].
      simpl in Hspec. destruct Hspec as (H1 & H2 & H3 & H4).
      rewrite Hen in H4.
      unfold GameState.get_total_cell_energy. fold (cell_energy cs').
      destruct (Qgtb total 0) eqn:Et; read_tests; simpl;
        fold (cell_energy (GameState.cells s)); fold surge;
        repeat split; try exact H1; try exact Hres;
        try fold (cell_energy cs'); lra.
  - assert (Hz : e == 0) by lra.
    repeat split; fold surge; try lra; try exact Hres.
    apply received_nothing. apply Forall_forall. intros kc _ _.
    unfold share. rewrite Hz. unfold Qdiv. ring.
Qed.

Lemma transfer_splits_evenly_and_conserves_witness :
  Forall2 (received (Qmin 1 ((1 # 2) * 1)
                     / cells_below_capacity
                         (GameState.cells Sample.three_cells)))
          (GameState.cells Sample.three_cells)
          (GameState.cells
             (GameState.transfer_to_cells 1 Sample.three_cells))
  /\ Resource.surge_capacitor
       (GameState.resources
          (GameState.transfer_to_cells 1 Sample.three_cells))
     == 65 # 100.
Proof.
  destruct (@transfer_splits_evenly_and_conserves 1 Sample.three_cells)
    as (H1 & H2 & _).
  - vm_compute. discriminate.
  - reflexivity.
  - discriminate.
  - repeat constructor.
  - split; [exact H1|]. vm_compute. reflexivity.
Defined.

(** ** Purchases whose energy cannot be paid *)

Lemma untouched_refl (s : GameState.t) : untouched s s.
Proof. repeat split; reflexivity. Qed.

Lemma energy_short_then_credits (cost_eu cost_credits : Q)
    (s : GameState.t) :
  payable_energy s < cost_eu ->
  let has_cells := (Dict.len (GameState.cells s) >? 0)%Z in
  let r1 :=
    if has_cells then GameState.drain_cell_energy cost_eu s
    else GameState.on_resources (Resource.drain_eu cost_eu) s in
  r1 = (false, s)
  /\ let r2 :=
       GameState.on_resources (Resource.spend_credits cost_credits) s in
     untouched s (if fst r2
                  then GameState.add_credits cost_credits (snd r2)
                  else snd r2).
Proof.
  intros Hshort. unfold payable_energy in Hshort. cbv zeta. split.
  - destruct (Dict.len (GameState.cells s) >? 0)%Z eqn:E.
    + unfold GameState.drain_cell_energy.
      replace (Dict.len (GameState.cells s) =? 0)%Z with false
        by (symmetry; apply Z.eqb_neq; apply Z.gtb_lt in E; lia).
      replace (Qltb (GameState.get_total_cell_energy s) cost_eu) with true
        by (symmetry; apply Qltb_true; exact Hshort).
      reflexivity.
    + unfold GameState.on_resources, Resource.drain_eu.
      replace (Qgeb (Resource.surge_capacitor (GameState.resources s))
                    cost_eu) with false
        by (symmetry; apply Qgeb_false; exact Hshort).
      destruct s as [[] ? ? ? ? ?]; reflexivity.
  - unfold GameState.on_resources, Resource.spend_credits.
    destruct (Qgeb _ _); simpl.
    + repeat split; simpl; try reflexivity. ring.
    + repeat split; reflexivity.
Qed.

(** X1: a purchase, upgrade or placement whose energy cannot be paid fails
    and leaves the cells, the buildings, the surge capacitor and the credits
    as they were, whether or not the credits could be paid (spent credits
    are refunded). *)
Theorem unaffordable_energy_is_a_no_op (s : GameState.t) :
  (forall x y,
      payable_energy s < inject_Z (Dict.len (GameState.cells s) + 1) ->
      fst (GameState.build_cell x y s) = false
      /\ untouched s (snd (GameState.build_cell x y s)))
  /\ (forall cell_number cell,
         Dict.get cell_number (GameState.cells s) = Some cell ->
         payable_energy s < fst (Cell.get_upgrade_cost cell) ->
         fst (GameState.upgrade_cell cell_number s) = false
         /\ untouched s (snd (GameState.upgrade_cell cell_number s)))
  /\ (forall ty x y,
         payable_energy s
         < fst (Building.get_build_cost (Building.init ty x y)) ->
         fst (GameState.build_building ty x y s) = false
         /\ untouched s (snd (GameState.build_building ty x y s))).
Proof.
  split; [|split].
  - intros x y H. unfold GameState.build_cell.
    destruct (_ >? 100)%Z; [split; [reflexivity | apply untouched_refl]|].
    unfold Cell.get_purchase_cost, Cell.init.
    cbn [Cell.cell_number]. cbv iota beta zeta.
    destruct (@energy_short_then_credits _ 100 s H) as [H1 H2].
    cbv zeta in H1, H2. rewrite H1.
    destruct (GameState.on_resources (Resource.spend_credits 100) s)
      as [ok s2].
    simpl in H2 |- *. destruct ok; split; try reflexivity; exact H2.
  - intros k cell G H. unfold GameState.upgrade_cell. rewrite G.
    destruct (_ >=? 100)%Z; [split; [reflexivity | apply untouched_refl]|].
    unfold Cell.get_upgrade_cost in *. simpl in H. cbv iota beta zeta.
    destruct (@energy_short_then_credits _
                (inject_Z (Cell.cell_number cell * Cell.level cell) * 100)
                s H) as [H1 H2].
    cbv zeta in H1, H2. rewrite H1.
    destruct (GameState.on_resources (Resource.spend_credits _) s)
      as [ok s2].
    simpl in H2 |- *. destruct ok; split; try reflexivity; exact H2.
  - intros ty x y H. unfold GameState.build_building.
    destruct (Building.get_build_cost (Building.init ty x y))
      as [cost_eu cost_credits].
    simpl in H.
    destruct (@energy_short_then_credits _ cost_credits s H) as [H1 H2].
    cbv zeta in H1, H2. rewrite H1.
    destruct (GameState.on_resources (Resource.spend_credits _) s)
      as [ok s2].
    simpl in H2 |- *. destruct ok; split; try reflexivity; exact H2.
Qed.

Lemma unaffordable_energy_is_a_no_op_witness :
  fst (GameState.build_building TENT 0 0 Sample.seller) = false
  /\ untouched Sample.seller
               (snd (GameState.build_building TENT 0 0 Sample.seller)).
Proof.
  apply (proj2 (proj2 (unaffordable_energy_is_a_no_op Sample.seller))).
  reflexivity.
Defined.

(** ** Draining the cells *)

Lemma cell_energy_le_drainable (cs : Dict.t Cell.t) :
  cell_energy cs <= drainable cs /\ 0 <= drainable cs.
Proof.
  unfold cell_energy, drainable, Dict.values.
  induction cs as [|[k c] cs [IH1 IH2]]; simpl; [split; lra|].
  pose proof (Q.le_max_l 0 (Cell.stored_energy c)).
  pose proof (Q.le_max_r 0 (Cell.stored_energy c)).
  split; lra.
Qed.

Lemma drained_refl (cs : Dict.t Cell.t) : Forall2 drained cs cs.
Proof.
  induction cs as [|[k c] cs IH]; constructor; [|exact IH].
  unfold drained. simpl.
  repeat split; try lra; try tauto. destruct c; reflexivity.
Qed.

Lemma drain_loop_spec (cs : Dict.t Cell.t) :
  forall amount : Q,
    0 <= amount ->
    let r := GameState.drain_loop amount cs in
    0 <= fst r
    /\ cell_energy (snd r) == cell_energy cs - (amount - fst r)
    /\ (amount <= drainable cs -> fst r == 0)
    /\ Forall2 drained cs (snd r).
Proof.
  induction cs as [|[k c] cs IH]; intros amount Ha; simpl.
  - unfold cell_energy, drainable. simpl.
    split; [lra | split; [lra | split; [intro; lra | constructor]]].
  - pose proof (cell_energy_le_drainable cs) as [_ Hd].
    destruct (Qleb amount 0) eqn:E0; read_tests; simpl.
    + split; [lra | split; [lra | split; [intro; lra|]]].
      apply drained_refl.
    + unfold cell_energy, drainable in *. simpl.
      destruct (Qgtb (Cell.stored_energy c) 0) eqn:Ec; read_tests.
      * pose proof (Q.le_min_l (Cell.stored_energy c) amount) as Hl.
        pose proof (Q.le_min_r (Cell.stored_energy c) amount) as Hr.
        assert (Hmin : 0 <= Qmin (Cell.stored_energy c) amount)
          by (apply Q.min_glb; lra).
        set (d := Qmin (Cell.stored_energy c) amount) in *.
        assert (Hrem : 0 <= amount - d) by lra.
        specialize (IH (amount - d) Hrem).
        destruct (GameState.drain_loop (amount - d) cs) as [r cs'].
        simpl in IH |- *. destruct IH as (IH1 & IH2 & IH3 & IH4).
        split; [exact IH1|]. split; [lra|]. split.
        -- intro Hle. apply IH3.
           rewrite Q.max_r in Hle by lra.
           destruct (Q.min_spec (Cell.stored_energy c) amount)
             as [[M1 M2] | [M1 M2]]; fold d in M2; lra.
        -- constructor; [|exact IH4].
           unfold drained. simpl. repeat split; lra.
      * specialize (IH amount Ha).
        destruct (GameState.drain_loop amount cs) as [r cs'].
        simpl in IH |- *. destruct IH as (IH1 & IH2 & IH3 & IH4).
        split; [exact IH1|]. split; [lra|]. split.
        -- intro Hle. apply IH3. rewrite Q.max_l in Hle by lra. lra.
        -- constructor; [|exact IH4].
           unfold drained. simpl.
           repeat split; try lra; try tauto. destruct c; reflexivity.
Qed.

(** X2: [drain_cell_energy] is all or nothing. With no cells or with less
    stored than the amount it fails and changes nothing; with at least the
    amount stored (and an amount that is not negative) it succeeds, the
    cells lose exactly the amount, no cell gains energy or goes below zero,
    and the resources are not touched. *)
Theorem drain_cell_energy_all_or_nothing (amount : Q) (s : GameState.t) :
  (GameState.cells s = [] \/ GameState.get_total_cell_energy s < amount ->
   GameState.drain_cell_energy amount s = (false, s))
  /\ (GameState.cells s <> [] ->
      0 <= amount ->
      amount <= GameState.get_total_cell_energy s ->
      let r := GameState.drain_cell_energy amount s in
      fst r = true
      /\ GameState.get_total_cell_energy (snd r)
         == GameState.get_total_cell_energy s - amount
      /\ Forall2 drained (GameState.cells s) (GameState.cells (snd r))
      /\ GameState.resources (snd r) = GameState.resources s
      /\ GameState.buildings (snd r) = GameState.buildings s).
Proof.
  unfold GameState.drain_cell_energy. split.
  - intros [H | H].
    + rewrite H. reflexivity.
    + destruct (_ =? _)%Z; [reflexivity|].
      replace (Qltb (GameState.get_total_cell_energy s) amount) with true
        by (symmetry; apply Qltb_true; exact H).
      reflexivity.
  - intros Hc Ha Hle.
    replace (Dict.len (GameState.cells s) =? 0)%Z with false
      by (symmetry; unfold Dict.len; destruct (GameState.cells s);
          [contradiction | reflexivity]).
    replace (Qltb (GameState.get_total_cell_energy s) amount) with false
      by (symmetry; apply Qltb_false; exact Hle).
    pose proof (@drain_loop_spec (GameState.cells s) amount Ha) as Hspec.
    pose proof (cell_energy_le_drainable (GameState.cells s)) as [Hd _].
    destruct (GameState.drain_loop amount (GameState.cells s)) as [r cs'].
    simpl in Hspec |- *. destruct Hspec as (H1 & H2 & H3 & H4).
    unfold GameState.get_total_cell_energy in *. simpl.
    fold (cell_energy cs'). fold (cell_energy (GameState.cells s)) in *.
    assert (Hr : r == 0) by (apply H3; lra).
    repeat split; try exact H4.
    + apply Qleb_true. lra.
    + lra.
Qed.

Lemma drain_cell_energy_all_or_nothing_witness :
  fst (GameState.drain_cell_energy 1 Sample.charged) = true
  /\ GameState.get_total_cell_energy
       (snd (GameState.drain_cell_energy 1 Sample.charged))
     == GameState.get_total_cell_energy Sample.charged - 1.
Proof.
  destruct (proj2 (drain_cell_energy_all_or_nothing 1 Sample.charged))
    as (H1 & H2 & _).
  - discriminate.
  - vm_compute. discriminate.
  - vm_compute. discriminate.
  - split; [exact H1 | exact H2].
Defined.

(** ** Further properties of the economy *)

(** X3: a successful sale keeps the floor, keeps the rate at or above the
    floor and, from a rate at or above a floor that is not negative, never
    raises the rate. Selling 1 EU at the rate 1000 with the floor at 10
    earns 1000 credits and leaves the rate at 900. *)
Theorem sell_rate_decays_down_to_the_floor :
  (forall (c : Sale) (s s' : GameState.t),
      0 <= Resource.sell_floor (GameState.resources s) ->
      Resource.sell_floor (GameState.resources s)
      <= Resource.sell_rate (GameState.resources s) ->
      sell c s = (true, s') ->
      Resource.sell_floor (GameState.resources s')
      = Resource.sell_floor (GameState.resources s)
      /\ Resource.sell_floor (GameState.resources s')
         <= Resource.sell_rate (GameState.resources s')
      /\ Resource.sell_rate (GameState.resources s')
         <= Resource.sell_rate (GameState.resources s))
  /\ (let r := sell (FromSurge 1) Sample.seller in
      fst r = true
      /\ Resource.credits (GameState.resources (snd r)) == 1000 + 1000
      /\ Resource.sell_rate (GameState.resources (snd r)) == 900).
Proof.
  split.
  - intros c s s' H0 Hf H.
    destruct (sell_spec _ _ H) as (_ & Hrate & Hfloor).
    rewrite Hrate, Hfloor. split; [reflexivity|].
    split; [apply Q.le_max_r|].
    apply Q.max_lub; lra.
  - vm_compute. repeat split; reflexivity.
Qed.

Lemma sell_rate_decays_down_to_the_floor_witness :
  Resource.sell_rate
    (GameState.resources (snd (sell (FromSurge 1) Sample.seller)))
  <= Resource.sell_rate (GameState.resources Sample.seller).
Proof.
  apply (proj1 sell_rate_decays_down_to_the_floor (FromSurge 1)
               Sample.seller).
  - vm_compute. discriminate.
  - vm_compute. discriminate.
  - reflexivity.
Defined.

(** X5: the surge capacitor dissipates only when there are no cells. With
    cells the resources are left alone; without cells, in a tick of length
    [dt >= 0], the surge capacitor loses [0.001 * dt] when it is at or below
    1.5 and [0.5%] of its value per second above 1.5, and never goes below
    zero. *)
Theorem dissipation_only_without_cells (cells_count : Z) (dt : Q)
    (r : Resource.t) :
  (cells_count <> 0%Z -> Resource.dissipate_energy cells_count dt r = r)
  /\ (0 <= dt ->
      let surge := Resource.surge_capacitor r in
      let surge' :=
        Resource.surge_capacitor (Resource.dissipate_energy 0 dt r) in
      0 <= surge'
      /\ (0 <= surge -> surge' <= surge)
      /\ (surge <= 3 # 2 -> surge' == Qmax 0 (surge - (1 # 1000) * dt))
      /\ (3 # 2 < surge ->
          surge' == Qmax 0 (surge - surge * (5 # 1000) * dt))).
Proof.
  split.
  - intro H. unfold Resource.dissipate_energy.
    destruct (Z.eqb_spec cells_count 0); [contradiction | reflexivity].
  - intros Hdt. unfold Resource.dissipate_energy. simpl.
    destruct (Qleb (Resource.surge_capacitor r) (3 # 2)) eqn:E; read_tests.
    + split; [apply Q.le_max_l|].
      split; [intro; apply Q.max_lub; lra|].
      split; [intro; reflexivity | intro; lra].
    + split; [apply Q.le_max_l|].
      split; [intro; apply Q.max_lub; nra|].
      split; [intro; lra | intro; reflexivity].
Qed.

Lemma dissipation_only_without_cells_witness :
  Resource.dissipate_energy 3 (1 # 60) Resource.init = Resource.init
  /\ 0 <= Resource.surge_capacitor
            (Resource.dissipate_energy 0 (1 # 60) Resource.init).
Proof.
  destruct (dissipation_only_without_cells 3 (1 # 60) Resource.init)
    as [H1 H2].
  split.
  - apply H1. discriminate.
  - destruct H2 as [H2 _]; [vm_compute; discriminate | exact H2].
Defined.

Lemma admitted_bounds (amount : Q) (s : GameState.t) :
  Resource.surge_capacitor (GameState.resources s) <= admitted amount s
  /\ (Resource.surge_capacitor (GameState.resources s) <= surge_ceiling s ->
      admitted amount s <= surge_ceiling s).
Proof.
  unfold admitted.
  destruct (Qltb _ _) eqn:E; read_tests; [|split; lra].
  split_minmax; split; lra.
Qed.

(** X6: energy enters the surge capacitor through a capped admission, from
    the WORK button ([work_power]) as from the production of the BIO
    generators: the cells are not touched, the surge capacitor receives the
    amount or what is left below its ceiling (1.5 with no cells, the total
    capacity of the cells otherwise), whichever is less, and nothing when it
    is at or above the ceiling or the amount is not positive; so it never
    decreases and, starting at or below the ceiling, stays at or below it. *)
Theorem energy_admission_is_capped (s : GameState.t) :
  (let s' := GameState.work_button_pressed s in
   GameState.cells s' = GameState.cells s
   /\ Resource.surge_capacitor (GameState.resources s')
      == admitted (Resource.work_power (GameState.resources s)) s)
  /\ (forall energy_amount : Q,
         let s' := GameState.distribute_energy_to_cells energy_amount s in
         GameState.cells s' = GameState.cells s
         /\ Resource.surge_capacitor (GameState.resources s')
            == admitted energy_amount s)
  /\ (forall amount : Q,
         Resource.surge_capacitor (GameState.resources s)
         <= admitted amount s
         /\ (Resource.surge_capacitor (GameState.resources s)
             <= surge_ceiling s ->
             admitted amount s <= surge_ceiling s)).
Proof.
  split; [|split].
  - unfold GameState.work_button_pressed, admitted, surge_ceiling, Dict.len.
    destruct (GameState.cells s) as [|kc cs] eqn:Ec; simpl length;
      cbn [Z.of_nat Z.gtb Z.compare];
      (destruct (Qltb _ _) eqn:E1; [|split; [exact Ec | reflexivity]]);
      (destruct (Qgtb _ _) eqn:E2; simpl; rewrite ?Ec;
       (split; [reflexivity|]); read_tests; split_minmax; lra).
  - intro e.
    unfold GameState.distribute_energy_to_cells, admitted, surge_ceiling,
      Dict.len.
    destruct (Qleb e 0) eqn:E0.
    + split; [reflexivity|]. read_tests.
      destruct (GameState.cells s); destruct (Qltb _ _) eqn:E1;
        try reflexivity; read_tests; split_minmax; lra.
    + destruct (GameState.cells s) as [|kc cs] eqn:Ec; simpl length;
        cbn [Z.of_nat Z.eqb];
        (destruct (Qltb _ _) eqn:E1; [|split; [exact Ec | reflexivity]]);
        (destruct (Qgtb _ _) eqn:E2; simpl; rewrite ?Ec;
         (split; [reflexivity|]); read_tests; split_minmax; lra).
  - intro amount. apply admitted_bounds.
Qed.

Lemma energy_admission_is_capped_witness :
  admitted (1 # 10) Sample.one_cell <= surge_ceiling Sample.one_cell.
Proof.
  apply (proj2 (proj2 (proj2 (energy_admission_is_capped Sample.one_cell))
                      (1 # 10))).
  vm_compute. discriminate.
Defined.

(** ** Admission, eviction and the limits of purchases *)

Lemma Dict_get_set_same {V} (k : Z) (v : V) (d : Dict.t V) :
  Dict.get k (Dict.set k v d) = Some v.
Proof.
  induction d as [|[k' v'] d IH]; simpl.
  - rewrite Z.eqb_refl. reflexivity.
  - destruct (k =? k')%Z eqn:E; simpl; rewrite ?E, ?Z.eqb_refl;
      [reflexivity | exact IH].
Qed.

(** X7: a successful [enter_building] sets [inside_building], binds
    [current_building] to the building and makes the nano one of its
    workers; [exit_building], for a nano bound to a registered building
    whose workers hold no duplicates, clears both fields and leaves the nano
    out of the workers of that building; and [remove_worker] is idempotent:
    removing again the nano just removed fails and changes nothing. *)
Theorem admission_and_eviction_are_consistent :
  (forall (building_id : Z) (bs bs' : Dict.t Building.t) (n n' : Nano.t),
      Nano.enter_building building_id bs n = (true, n', bs') ->
      Nano.inside_building n' = true
      /\ Nano.current_building n' = Some building_id
      /\ exists b', Dict.get building_id bs' = Some b'
                    /\ In (Nano.id n) (Building.workers b'))
  /\ (forall (bs : Dict.t Building.t) (n : Nano.t) (cur : Z)
             (b : Building.t),
         Nano.current_building n = Some cur ->
         cur <> 0%Z ->
         Dict.get cur bs = Some b ->
         NoDup (Building.workers b) ->
         let r := Nano.exit_building bs n in
         Nano.inside_building (fst r) = false
         /\ Nano.current_building (fst r) = None
         /\ exists b', Dict.get cur (snd r) = Some b'
                       /\ ~ In (Nano.id n) (Building.workers b'))
  /\ (forall (nano_id : Z) (b : Building.t),
         NoDup (Building.workers b) ->
         let b' := snd (Building.remove_worker nano_id b) in
         Building.remove_worker nano_id b' = (false, b')).
Proof.
  split; [|split].
  - intros bid bs bs' n n' H. unfold Nano.enter_building in H.
    destruct (Dict.get bid bs) as [b|]; [|discriminate].
    unfold Building.add_worker in H.
    destruct (_ && _); [|discriminate].
    injection H as <- <-. simpl. repeat split.
    eexists. split; [apply Dict_get_set_same|].
    simpl. apply in_or_app. right. left. reflexivity.
  - intros bs n cur b Hcur Hnz G Hnd. unfold Nano.exit_building.
    rewrite Hcur. simpl.
    replace (cur =? 0)%Z with false by (symmetry; apply Z.eqb_neq; exact Hnz).
    simpl. rewrite G. unfold Building.remove_worker.
    destruct (list_mem (Nano.id n) (Building.workers b)) eqn:E; simpl;
      repeat split; eexists; (split; [apply Dict_get_set_same|]); simpl.
    + apply list_remove_gone. exact Hnd.
    + apply list_mem_not_In. exact E.
  - intros nano_id b Hnd. unfold Building.remove_worker.
    destruct (list_mem nano_id (Building.workers b)) eqn:E; simpl.
    + replace (list_mem nano_id (list_remove nano_id (Building.workers b)))
        with false; [reflexivity|].
      symmetry. apply list_mem_not_In. apply list_remove_gone. exact Hnd.
    + rewrite E. reflexivity.
Qed.

Lemma admission_and_eviction_are_consistent_witness :
  Nano.inside_building
    (fst (Nano.exit_building Sample.two_buildings Sample.weak_nano)) = false.
Proof.
  refine (proj1 (proj1 (proj2 admission_and_eviction_are_consistent)
                       Sample.two_buildings Sample.weak_nano 1%Z
                       (Sample.tent_with [7%Z]) _ _ _ _)).
  - reflexivity.
  - discriminate.
  - reflexivity.
  - constructor; [simpl; tauto | constructor].
Defined.

(** X8: the limits of the cell bank.  With 100 cells [build_cell] fails;
    [upgrade_cell] fails for a cell number that is not in the bank and for a
    cell at level 100 or more; none of these failures changes the state. *)
Theorem cell_bank_limits (s : GameState.t) :
  (forall x y,
      (Dict.len (GameState.cells s) >= 100)%Z ->
      GameState.build_cell x y s = (false, s))
  /\ (forall cell_number,
         Dict.get cell_number (GameState.cells s) = None ->
         GameState.upgrade_cell cell_number s = (false, s))
  /\ (forall cell_number cell,
         Dict.get cell_number (GameState.cells s) = Some cell ->
         (Cell.level cell >= 100)%Z ->
         GameState.upgrade_cell cell_number s = (false, s)).
Proof.
  split; [|split].
  - intros x y H. unfold GameState.build_cell.
    destruct (Z.gtb_spec (Dict.len (GameState.cells s) + 1) 100);
      [reflexivity | lia].
  - intros k H. unfold GameState.upgrade_cell. rewrite H. reflexivity.
  - intros k c G H. unfold GameState.upgrade_cell. rewrite G.
    destruct (Z.geb_spec (Cell.level c) 100); [reflexivity | lia].
Qed.

Lemma cell_bank_limits_witness :
  GameState.upgrade_cell 5 Sample.charged = (false, Sample.charged).
Proof.
  apply (proj1 (proj2 (cell_bank_limits Sample.charged))).
  reflexivity.
Defined.

(** ** The clock *)

Lemma advance_minute_accumulator (v : Q) (s : Clock.t) :
  Clock.advance_minute (Clock.with_accumulator v s)
  = Clock.with_accumulator v (Clock.advance_minute s).
Proof.
  unfold Clock.advance_minute, Clock.with_accumulator. simpl.
  repeat match goal with
         | |- context [if ?c then _ else _] => destruct c
         end; reflexivity.
Qed.

Lemma advance_minute_calendar (s : Clock.t) :
  calendar_ok s ->
  calendar_ok (Clock.advance_minute s)
  /\ minutes_elapsed (Clock.advance_minute s) = (minutes_elapsed s + 1)%Z
  /\ Clock.time_accumulator (Clock.advance_minute s)
     = Clock.time_accumulator s.
Proof.
  unfold calendar_ok, minutes_elapsed, Clock.advance_minute.
  intros H.
  repeat match goal with
         | |- context [(?a >=? ?b)%Z] => destruct (Z.geb_spec a b)
         end;
    cbn [Clock.game_minute Clock.game_hour Clock.game_day Clock.game_month
         Clock.game_year Clock.time_accumulator];
    repeat split; try reflexivity; lia.
Qed.

Lemma minutes_calendar (n : nat) :
  forall s,
    calendar_ok s ->
    calendar_ok (Nat.iter n Clock.advance_minute s)
    /\ minutes_elapsed (Nat.iter n Clock.advance_minute s)
       = (minutes_elapsed s + Z.of_nat n)%Z.
Proof.
  induction n as [|n IH]; intros s H.
  - simpl. split; [exact H | lia].
  - destruct (IH s H) as [H1 H2].
    destruct (advance_minute_calendar H1) as (H3 & H4 & _).
    change (Nat.iter (S n) Clock.advance_minute s)
      with (Clock.advance_minute (Nat.iter n Clock.advance_minute s)).
    split; [exact H3 | lia].
Qed.

Lemma one_hour_later (s s' : Clock.t) :
  calendar_ok s -> calendar_ok s' ->
  minutes_elapsed s' = (minutes_elapsed s + 60)%Z ->
  Clock.game_minute s' = Clock.game_minute s
  /\ (Clock.game_hour s' = (Clock.game_hour s + 1) mod 24)%Z.
Proof.
  unfold calendar_ok, minutes_elapsed. intros H H' E.
  assert (Hm : Clock.game_minute s' = Clock.game_minute s) by lia.
  split; [exact Hm|].
  destruct (Z.eq_dec (Clock.game_hour s) 23) as [E23 | E23].
  - rewrite E23. change ((23 + 1) mod 24)%Z with 0%Z. lia.
  - rewrite Z.mod_small by lia. lia.
Qed.

(** X9: the calendar carries in sequence and skips nothing.  From fields
    within their ranges (minute below 60, hour below 24, day below 30, month
    below 12), any number of [advance_minute] keeps them within their
    ranges and adds exactly that number to the minutes elapsed since year
    0; so 60 of them bring the minute back to where it was, one hour
    later. *)
Theorem calendar_carries_in_sequence (n : nat) (s : Clock.t) :
  calendar_ok s ->
  calendar_ok (Nat.iter n Clock.advance_minute s)
  /\ minutes_elapsed (Nat.iter n Clock.advance_minute s)
     = (minutes_elapsed s + Z.of_nat n)%Z
  /\ (n = 60%nat ->
      Clock.game_minute (Nat.iter n Clock.advance_minute s)
      = Clock.game_minute s
      /\ (Clock.game_hour (Nat.iter n Clock.advance_minute s)
          = (Clock.game_hour s + 1) mod 24)%Z).
Proof.
  intros H. destruct (minutes_calendar n H) as [H1 H2].
  split; [exact H1 | split; [exact H2|]].
  intros Hn. apply one_hour_later; [exact H | exact H1|].
  rewrite H2, Hn. reflexivity.
Qed.

Lemma calendar_carries_in_sequence_witness :
  minutes_elapsed (Nat.iter 7 Clock.advance_minute (Clock.init []))
  = (minutes_elapsed (Clock.init []) + Z.of_nat 7)%Z.
Proof.
  apply (@calendar_carries_in_sequence 7 (Clock.init [])).
  unfold calendar_ok. simpl. lia.
Defined.

Lemma iter_advance_accumulator (n : nat) (v : Q) (s : Clock.t) :
  Nat.iter n Clock.advance_minute (Clock.with_accumulator v s)
  = Clock.with_accumulator v (Nat.iter n Clock.advance_minute s).
Proof.
  induction n as [|n IH]; [reflexivity|].
  simpl. rewrite IH. apply advance_minute_accumulator.
Qed.

Lemma iter_advance_shift (n : nat) (s : Clock.t) :
  Nat.iter n Clock.advance_minute (Clock.advance_minute s)
  = Clock.advance_minute (Nat.iter n Clock.advance_minute s).
Proof.
  induction n as [|n IH]; [reflexivity|]. simpl. rewrite IH. reflexivity.
Qed.

Lemma time_loop_spec (n : nat) :
  forall (s : Clock.t) (fuel : nat),
    inject_Z (Z.of_nat n) <= Clock.time_accumulator s ->
    Clock.time_accumulator s < inject_Z (Z.of_nat n) + 1 ->
    (n <= fuel)%nat ->
    exists r : Clock.t,
      Clock.time_loop fuel s = Some r
      /\ Clock.time_accumulator r
         == Clock.time_accumulator s - inject_Z (Z.of_nat n)
      /\ Clock.with_accumulator 0 r
         = Clock.with_accumulator 0 (Nat.iter n Clock.advance_minute s).
Proof.
  induction n as [|n IH]; intros s fuel Hlo Hhi Hfuel.
  - exists s. change (inject_Z (Z.of_nat 0)) with 0 in *.
    assert (E : Qgeb (Clock.time_accumulator s) 1 = false)
      by (apply Qgeb_false; lra).
    split; [destruct fuel; simpl; rewrite E; reflexivity|].
    split; [ring | reflexivity].
  - rewrite Nat2Z.inj_succ in *. unfold Z.succ in *.
    rewrite inject_Z_plus in *. change (inject_Z 1) with 1 in *.
    assert (H0 : 0 <= inject_Z (Z.of_nat n))
      by (change 0 with (inject_Z 0); rewrite <- Zle_Qle; lia).
    assert (E : Qgeb (Clock.time_accumulator s) 1 = true)
      by (apply Qgeb_true; lra).
    destruct fuel as [|fuel]; [lia|].
    simpl Clock.time_loop. rewrite E.
    rewrite advance_minute_accumulator.
    destruct (IH (Clock.with_accumulator (Clock.time_accumulator s - 1)
                    (Clock.advance_minute s)) fuel) as (r & H1 & H2 & H3).
    + simpl. lra.
    + simpl. lra.
    + lia.
    + exists r. split; [exact H1|]. split.
      * rewrite H2. simpl. ring.
      * rewrite H3, iter_advance_accumulator, iter_advance_shift.
        reflexivity.
Qed.

Lemma time_loop_below_one (fuel : nat) (s : Clock.t) :
  Clock.time_accumulator s < 1 -> Clock.time_loop fuel s = Some s.
Proof.
  intro H.
  assert (E : Qgeb (Clock.time_accumulator s) 1 = false)
    by (apply Qgeb_false; exact H).
  destruct fuel; simpl; rewrite E; reflexivity.
Qed.

Lemma time_loop_out_of_fuel (fuel : nat) :
  forall s : Clock.t,
    inject_Z (Z.of_nat fuel) + 1 <= Clock.time_accumulator s ->
    Clock.time_loop fuel s = None.
Proof.
  induction fuel as [|fuel IH]; intros s H.
  - change (inject_Z (Z.of_nat 0)) with 0 in H.
    assert (E : Qgeb (Clock.time_accumulator s) 1 = true)
      by (apply Qgeb_true; lra).
    simpl Clock.time_loop. rewrite E. reflexivity.
  - assert (H0 : 0 <= inject_Z (Z.of_nat fuel))
      by (change 0 with (inject_Z 0); rewrite <- Zle_Qle; lia).
    rewrite Nat2Z.inj_succ in H. unfold Z.succ in H.
    rewrite inject_Z_plus in H. change (inject_Z 1) with 1 in H.
    assert (E : Qgeb (Clock.time_accumulator s) 1 = true)
      by (apply Qgeb_true; lra).
    simpl Clock.time_loop. rewrite E.
    apply IH. rewrite advance_minute_accumulator. simpl. lra.
Qed.

(** X10: one second of real time is one minute of the game, and the
    fraction of a second is carried over.  When the accumulated time
    [time_accumulator + dt] is below one second, [update_time] only stores
    it; when it lies between [n] and [n + 1] seconds and the loop may run
    [n] times, the loop ends after exactly [n] [advance_minute] and leaves
    the accumulated time less [n], a value in [0, 1), in the accumulator;
    with fewer than [n] iterations allowed it is not over. *)
Theorem update_time_runs_one_minute_per_second (dt : Q) (s : Clock.t) :
  (forall fuel : nat,
      Clock.time_accumulator s + dt < 1 ->
      Clock.update_time fuel dt s
      = Some (Clock.with_accumulator (Clock.time_accumulator s + dt) s))
  /\ (forall n fuel : nat,
         inject_Z (Z.of_nat n) <= Clock.time_accumulator s + dt ->
         Clock.time_accumulator s + dt < inject_Z (Z.of_nat n) + 1 ->
         (n <= fuel)%nat ->
         exists r : Clock.t,
           Clock.update_time fuel dt s = Some r
           /\ Clock.time_accumulator r
              == Clock.time_accumulator s + dt - inject_Z (Z.of_nat n)
           /\ 0 <= Clock.time_accumulator r
           /\ Clock.time_accumulator r < 1
           /\ Clock.with_accumulator 0 r
              = Clock.with_accumulator 0
                  (Nat.iter n Clock.advance_minute s))
  /\ (forall fuel : nat,
         inject_Z (Z.of_nat fuel) + 1 <= Clock.time_accumulator s + dt ->
         Clock.update_time fuel dt s = None).
Proof.
  split; [|split]; [| |intros fuel H; apply time_loop_out_of_fuel; exact H].
  - intros fuel H. unfold Clock.update_time.
    apply time_loop_below_one. exact H.
  - intros n fuel Hlo Hhi Hfuel. unfold Clock.update_time.
    destruct (@time_loop_spec n
                (Clock.with_accumulator (Clock.time_accumulator s + dt) s)
                fuel Hlo Hhi Hfuel) as (r & H1 & H2 & H3).
    exists r. simpl in H2.
    split; [exact H1|]. split; [exact H2|].
    split; [lra|]. split; [lra|].
    rewrite H3, iter_advance_accumulator. reflexivity.
Qed.

Lemma update_time_runs_one_minute_per_second_witness :
  exists r : Clock.t,
    Clock.update_time 5 (5 # 2) (Clock.init []) = Some r
    /\ Clock.time_accumulator r == 1 # 2
    /\ Clock.game_minute r = 2%Z.
Proof.
  destruct (proj1 (proj2 (update_time_runs_one_minute_per_second
                            (5 # 2) (Clock.init []))) 2%nat 5%nat)
    as (r & H1 & H2 & _ & _ & H5).
  - vm_compute. discriminate.
  - reflexivity.
  - lia.
  - exists r. split; [exact H1|]. split.
    + rewrite H2. reflexivity.
    + change (Clock.game_minute r)
        with (Clock.game_minute (Clock.with_accumulator 0 r)).
      rewrite H5. reflexivity.
Defined.

(** ** The hourly and the yearly hook of the clock *)

Ltac split_ifs :=
  repeat match goal with
         | |- context [if ?c then _ else _] => destruct c eqn:?
         end.

Lemma update_daily_needs_age (h : Z) (n : Needs.t) :
  Needs.age (Needs.update_daily_needs h n) = Needs.age n.
Proof.
  unfold Needs.update_daily_needs, Needs.lose_happiness. cbv zeta.
  split_ifs; reflexivity.
Qed.

Lemma update_daily_needs_counters (h : Z) (n : Needs.t) :
  h <> 0%Z ->
  daily_counters (Needs.update_daily_needs h n) = daily_counters n.
Proof.
  intro H. unfold Needs.update_daily_needs. cbv zeta.
  destruct (Z.eqb_spec h 0) as [E | _]; [contradiction |].
  split_ifs; reflexivity.
Qed.

Lemma age_one_year_age (n : Needs.t) :
  Needs.age (Needs.age_one_year n) = (Needs.age n + 1)%Z.
Proof.
  unfold Needs.age_one_year. cbv zeta. split_ifs; reflexivity.
Qed.

Lemma age_one_year_counters (n : Needs.t) :
  daily_counters (Needs.age_one_year n) = daily_counters n.
Proof.
  unfold Needs.age_one_year. cbv zeta. split_ifs; reflexivity.
Qed.

Lemma years_counters (k : nat) (n : Needs.t) :
  daily_counters (Nat.iter k Needs.age_one_year n) = daily_counters n.
Proof.
  induction k as [| k IH]; [reflexivity |].
  simpl. rewrite age_one_year_counters. exact IH.
Qed.

Lemma years_age (k : nat) (n : Needs.t) :
  Needs.age (Nat.iter k Needs.age_one_year n)
  = (Needs.age n + Z.of_nat k)%Z.
Proof.
  induction k as [| k IH]; [simpl; lia |].
  rewrite Nat2Z.inj_succ. simpl. rewrite age_one_year_age, IH. lia.
Qed.

Lemma update_yearly_aging_counters (gy ly : Z) (n : Needs.t) :
  daily_counters (Needs.update_yearly_aging gy ly n) = daily_counters n.
Proof.
  unfold Needs.update_yearly_aging, Needs.repeat_times.
  destruct (gy >? ly)%Z; [apply years_counters | reflexivity].
Qed.

Lemma update_yearly_aging_age (gy ly : Z) (n : Needs.t) :
  Needs.age (Needs.update_yearly_aging gy ly n)
  = (Needs.age n + Z.max 0 (gy - ly))%Z.
Proof.
  unfold Needs.update_yearly_aging, Needs.repeat_times.
  destruct (Z.gtb_spec gy ly) as [H | H].
  - rewrite years_age. lia.
  - lia.
Qed.

Lemma advance_minute_counters (s : Clock.t) :
  (0 <= Clock.game_hour s)%Z ->
  Dict.keys (Clock.nanos (Clock.advance_minute s)) = Dict.keys (Clock.nanos s)
  /\ map daily_counters (Dict.values (Clock.nanos (Clock.advance_minute s)))
     = map daily_counters (Dict.values (Clock.nanos s)).
Proof.
  intro H.
  assert (K : forall (f : Needs.t -> Needs.t) (d : Dict.t Needs.t),
             Dict.keys (Dict.map_values f d) = Dict.keys d).
  { intros f d. unfold Dict.keys, Dict.map_values. rewrite map_map.
    apply map_ext. intros [k v]. reflexivity. }
  assert (D : forall d : Dict.t Needs.t,
             map daily_counters
                 (Dict.values
                    (Dict.map_values
                       (Needs.update_daily_needs (Clock.game_hour s + 1)) d))
             = map daily_counters (Dict.values d)).
  { intro d. rewrite map_values_values, map_map. apply map_ext. intro n.
    apply update_daily_needs_counters. lia. }
  unfold Clock.advance_minute. cbv zeta. split_ifs; simpl; split;
    rewrite ?K; try reflexivity; try apply D.
  rewrite map_values_values, map_map.
  rewrite <- (D (Clock.nanos s)).
  apply map_ext. intro n. apply update_yearly_aging_counters.
Qed.

(** X11: The hook of the new hour never sees midnight.  [advance_minute]
    passes the hour to [update_daily_needs] after adding one to it and before
    wrapping 24 to 0, so the hours passed are 1 to 24 and the branch of
    [game_hour == 0] does not run: over any number of minutes of a calendar
    within its ranges, the nanos stay the same ones in the same order and
    none of [meals_today], [work_hours], [sleep_hours], [other_hours],
    [hours_homeless] and [hours_without_food] is reset or changed by the
    clock. *)
Theorem hourly_hook_never_sees_midnight (n : nat) (s : Clock.t) :
  calendar_ok s ->
  Dict.keys (Clock.nanos (Nat.iter n Clock.advance_minute s))
  = Dict.keys (Clock.nanos s)
  /\ map daily_counters
         (Dict.values (Clock.nanos (Nat.iter n Clock.advance_minute s)))
     = map daily_counters (Dict.values (Clock.nanos s)).
Proof.
  intro H. induction n as [| n IH]; [split; reflexivity |].
  simpl. destruct IH as [IHk IHc].
  destruct (minutes_calendar n H) as [Hc _].
  destruct (@advance_minute_counters (Nat.iter n Clock.advance_minute s))
    as [Hk Hd].
  { unfold calendar_ok in Hc. lia. }
  split; [rewrite Hk; exact IHk | rewrite Hd; exact IHc].
Qed.

Lemma hourly_hook_never_sees_midnight_witness :
  map daily_counters
      (Dict.values
         (Clock.nanos (Nat.iter 3 Clock.advance_minute Sample.new_years_eve)))
  = map daily_counters (Dict.values (Clock.nanos Sample.new_years_eve)).
Proof.
  apply (@hourly_hook_never_sees_midnight 3 Sample.new_years_eve).
  unfold calendar_ok. vm_compute. intuition discriminate.
Defined.

Lemma advance_minute_ages (s : Clock.t) :
  Clock.last_year s = Clock.game_year s ->
  Clock.last_year (Clock.advance_minute s)
  = Clock.game_year (Clock.advance_minute s)
  /\ map Needs.age (Dict.values (Clock.nanos (Clock.advance_minute s)))
     = map (fun a => a + (Clock.game_year (Clock.advance_minute s)
                          - Clock.game_year s))%Z
           (map Needs.age (Dict.values (Clock.nanos s))).
Proof.
  intro L.
  assert (D : forall d : Dict.t Needs.t,
             map Needs.age
                 (Dict.values
                    (Dict.map_values
                       (Needs.update_daily_needs (Clock.game_hour s + 1)) d))
             = map Needs.age (Dict.values d)).
  { intro d. rewrite map_values_values, map_map. apply map_ext. intro n.
    apply update_daily_needs_age. }
  assert (Z0 : forall l : list Z,
             l = map (fun a => a + (Clock.game_year s - Clock.game_year s))%Z
                     l).
  { intro l. rewrite <- (map_id l) at 1. apply map_ext. intro a. lia. }
  unfold Clock.advance_minute. cbv zeta. split_ifs; simpl; split;
    try exact L; try reflexivity; rewrite ?D; try apply Z0.
  rewrite map_values_values, map_map, <- (D (Clock.nanos s)), !map_map.
  apply map_ext. intro n. rewrite update_yearly_aging_age, L. lia.
Qed.

(** X12: A nano ages with the calendar.  From a clock whose [last_year] is
    its [game_year] (as [__init__] leaves it), any number of minutes keep
    the two equal and add to the age of every nano the number of years the
    calendar went forward: one call of [age_one_year] at each change of
    year, none in between. *)
Theorem nanos_age_with_the_calendar (n : nat) (s : Clock.t) :
  Clock.last_year s = Clock.game_year s ->
  Clock.last_year (Nat.iter n Clock.advance_minute s)
  = Clock.game_year (Nat.iter n Clock.advance_minute s)
  /\ map Needs.age
         (Dict.values (Clock.nanos (Nat.iter n Clock.advance_minute s)))
     = map (fun a =>
              a + (Clock.game_year (Nat.iter n Clock.advance_minute s)
                   - Clock.game_year s))%Z
           (map Needs.age (Dict.values (Clock.nanos s))).
Proof.
  intro L. induction n as [| n IH].
  - simpl. split; [exact L |].
    rewrite <- (map_id (map Needs.age _)) at 1. apply map_ext. intro a. lia.
  - simpl. destruct IH as [IHl IHa].
    destruct (advance_minute_ages _ IHl) as [Hl Ha].
    split; [exact Hl |].
    rewrite Ha, IHa, map_map. apply map_ext. intro a. lia.
Qed.

Lemma nanos_age_with_the_calendar_witness :
  map Needs.age
      (Dict.values
         (Clock.nanos (Nat.iter 3 Clock.advance_minute Sample.new_years_eve)))
  = map (fun a =>
           a + (Clock.game_year
                  (Nat.iter 3 Clock.advance_minute Sample.new_years_eve)
                - Clock.game_year Sample.new_years_eve))%Z
        (map Needs.age (Dict.values (Clock.nanos Sample.new_years_eve))).
Proof.
  apply (@nanos_age_with_the_calendar 3 Sample.new_years_eve). reflexivity.
Defined.

(** ** Ageing and the hourly needs of a nano *)

Lemma age_one_year_bounds (n : Needs.t) :
  (0 < Needs.health n -> 0 < Needs.health (Needs.age_one_year n))
  /\ (Needs.health n <= 100 -> Needs.health (Needs.age_one_year n) <= 100)
  /\ Qmin (Needs.health n) 50 <= Needs.health (Needs.age_one_year n)
  /\ Needs.health (Needs.age_one_year n) <= Qmax (Needs.health n) 50
  /\ ((50 <= Needs.speed n)%Z ->
      (50 <= Needs.speed (Needs.age_one_year n) <= Needs.speed n)%Z)
  /\ (Needs.brain n <= 20 ->
      Needs.brain n <= Needs.brain (Needs.age_one_year n)
      /\ Needs.brain (Needs.age_one_year n) <= 20).
Proof.
  unfold Needs.age_one_year. cbv zeta.
  split_ifs; simpl; repeat apply conj; intros;
    try lia; split_minmax; lra.
Qed.

(** X13: Ageing wears a nano but does not kill it.  [update_yearly_aging]
    adds to the age the years that passed (none when the year did not go
    forward); whatever their number, a positive health stays positive and a
    health of at most 100 stays so, since [age_one_year] keeps the health of
    a senior at 50 or more; a speed of at least 50 does not grow and stays
    at least 50, and a brain of at most 20 does not shrink and stays at most
    20.  The floor of 50 also lifts: a nano of 65 years or more whose health
    is 50 or less has a health of exactly 50 after [age_one_year]. *)
Theorem ageing_wears_but_never_kills (game_year last_year : Z)
    (n : Needs.t) :
  (let n' := Needs.update_yearly_aging game_year last_year n in
   Needs.age n' = (Needs.age n + Z.max 0 (game_year - last_year))%Z
   /\ (0 < Needs.health n -> 0 < Needs.health n')
   /\ (Needs.health n <= 100 -> Needs.health n' <= 100)
   /\ Qmin (Needs.health n) 50 <= Needs.health n'
   /\ ((50 <= Needs.speed n)%Z ->
       (50 <= Needs.speed n' <= Needs.speed n)%Z)
   /\ (Needs.brain n <= 20 ->
       Needs.brain n <= Needs.brain n' /\ Needs.brain n' <= 20))
  /\ ((65 <= Needs.age n)%Z -> Needs.health n <= 50 ->
      Needs.health (Needs.age_one_year n) == 50).
Proof.
  split.
  - cbv zeta. split; [apply update_yearly_aging_age |].
    unfold Needs.update_yearly_aging, Needs.repeat_times.
    destruct (game_year >? last_year)%Z.
    + induction (Z.to_nat (game_year - last_year)) as [| k IH].
      * simpl. repeat apply conj; intros; try lia; try lra.
        apply Q.le_min_l.
      * simpl.
        destruct (age_one_year_bounds (Nat.iter k Needs.age_one_year n))
          as (S1 & S2 & S3 & S4 & S5 & S6).
        destruct IH as (I1 & I2 & I3 & I4 & I5).
        repeat apply conj; intros.
        -- apply S1, I1. assumption.
        -- apply S2, I2. assumption.
        -- revert S3 I3. split_minmax; lra.
        -- specialize (I4 H). specialize (S5 (proj1 I4)). lia.
        -- specialize (I5 H). specialize (S6 (proj2 I5)). split; lra.
    + repeat apply conj; intros; try lia; try lra. apply Q.le_min_l.
  - intros A H. unfold Needs.age_one_year. cbv zeta.
    assert (E : (Needs.age n + 1 >? 65)%Z = true) by lia.
    cbn [Needs.age Needs.with_age].
    destruct (Needs.age n + 1 >? 50)%Z;
      cbn [Needs.age Needs.with_age Needs.with_speed_brain]; rewrite E;
      simpl; split_minmax; lra.
Qed.

Lemma ageing_wears_but_never_kills_witness :
  Needs.health (Needs.age_one_year Sample.veteran) == 50.
Proof.
  apply (proj2 (ageing_wears_but_never_kills 1 0 Sample.veteran)).
  - vm_compute. discriminate.
  - vm_compute. discriminate.
Defined.

(** X14: The hourly needs are not clamped.  At an hour other than 0 a nano
    that ate within the day and whose health is 20 or more is left as it
    is.  One that did not eat for 24 hours or more loses exactly 2 of health
    and 5 of happiness, and 1 more of happiness when its health is then
    below 20; neither value is clamped at 0, so a happiness below 5 becomes
    negative, unlike with [lose_happiness] and [gain_happiness], which keep
    a happiness between 0 and 100 for every amount that is not negative. *)
Theorem hourly_needs_are_not_clamped (game_hour : Z) (n : Needs.t) :
  game_hour <> 0%Z ->
  ((Needs.hours_without_food n < 24)%Z -> 20 <= Needs.health n ->
   Needs.update_daily_needs game_hour n = n)
  /\ ((24 <= Needs.hours_without_food n)%Z ->
      let n' := Needs.update_daily_needs game_hour n in
      Needs.health n' == Needs.health n - 2
      /\ Needs.happy n'
         == Needs.happy n - 5
            - (if Qltb (Needs.health n - 2) 20 then 1 else 0)
      /\ (Needs.happy n < 5 -> Needs.happy n' < 0)
      /\ Needs.age n' = Needs.age n
      /\ daily_counters n' = daily_counters n)
  /\ (forall amount : Q,
         0 <= amount -> 0 <= Needs.happy n -> Needs.happy n <= 100 ->
         0 <= Needs.happy (Needs.lose_happiness amount n)
         /\ Needs.happy (Needs.lose_happiness amount n) <= Needs.happy n
         /\ Needs.happy n <= Needs.happy (Needs.gain_happiness amount n)
         /\ Needs.happy (Needs.gain_happiness amount n) <= 100).
Proof.
  intro H0. destruct (Z.eqb_spec game_hour 0) as [E | _]; [contradiction |].
  repeat apply conj.
  - intros F Hh. unfold Needs.update_daily_needs. cbv zeta.
    destruct (Z.eqb_spec game_hour 0) as [E | _]; [contradiction |].
    assert (E1 : (Needs.hours_without_food n >=? 24)%Z = false) by lia.
    rewrite E1.
    assert (E2 : Qltb (Needs.health n) 20 = false)
      by (apply Qltb_false; exact Hh).
    rewrite E2. reflexivity.
  - intros F. cbv zeta. unfold Needs.update_daily_needs. cbv zeta.
    destruct (Z.eqb_spec game_hour 0) as [E | _]; [contradiction |].
    assert (E1 : (Needs.hours_without_food n >=? 24)%Z = true) by lia.
    rewrite E1. simpl.
    destruct (Qltb (Needs.health n - 2) 20) eqn:E2; simpl;
      repeat apply conj; intros; try reflexivity; lra.
  - intros amount Ha Hl Hu.
    unfold Needs.lose_happiness, Needs.gain_happiness. simpl.
    repeat apply conj; split_minmax; lra.
Qed.

Lemma hourly_needs_are_not_clamped_witness :
  Needs.happy (Needs.update_daily_needs 9 Sample.gloomy) < 0.
Proof.
  destruct (@hourly_needs_are_not_clamped 9 Sample.gloomy) as (_ & H & _).
  - discriminate.
  - apply H; vm_compute; reflexivity || discriminate.
Defined.

(** ** Walking to a target *)

Lemma Qabs_cases (t : Q) :
  (0 <= t /\ Qabs t == t) \/ (t <= 0 /\ Qabs t == - t).
Proof.
  destruct (Qlt_le_dec t 0) as [H | H].
  - right. split; [lra |]. apply Qabs_neg. lra.
  - left. split; [exact H |]. apply Qabs_pos. exact H.
Qed.

(** Splits every absolute value of the goal or the context into its cases *)
Ltac split_abs :=
  repeat match goal with
         | |- context [Qabs ?t] =>
             let H := fresh "Ha" in
             let a := fresh "a" in
             pose proof (Qabs_cases t) as H;
             set (a := Qabs t) in *; clearbody a;
             destruct H as [[? ?] | [? ?]]
         | _ : context [Qabs ?t] |- _ =>
             let H := fresh "Ha" in
             let a := fresh "a" in
             pose proof (Qabs_cases t) as H;
             set (a := Qabs t) in *; clearbody a;
             destruct H as [[? ?] | [? ?]]
         end.

(** X15: A step of a walking nano.  [update_position] keeps the target and
    the speed and changes one coordinate at most, the horizontal one as long
    as it is more than 1 away from the target; within a Manhattan distance
    of 2 it puts the nano on its target and ends the walk.  The step is not
    cut to what is left of the way: a step of at most 2 (and not negative)
    never takes the nano farther from its target, one longer than twice the
    horizontal gap does. *)
Theorem walk_step_along_one_axis (dt : Q) (n : Walk.t) :
  Walk.moving n = true ->
  let n' := Walk.update_position dt n in
  (Walk.target_x n' = Walk.target_x n
   /\ Walk.target_y n' = Walk.target_y n
   /\ Walk.speed n' = Walk.speed n)
  /\ (distance n < 2 ->
      n' = Walk.mk (Walk.target_x n) (Walk.target_y n) (Walk.target_x n)
                   (Walk.target_y n) false DOWN (Walk.speed n))
  /\ (2 <= distance n ->
      Walk.moving n' = true
      /\ (Walk.x n' = Walk.x n \/ Walk.y n' = Walk.y n)
      /\ (1 < Qabs (Walk.target_x n - Walk.x n) ->
          Walk.y n' = Walk.y n
          /\ Qabs (Walk.x n' - Walk.x n) == Qabs (move_speed dt n)
          /\ (2 * Qabs (Walk.target_x n - Walk.x n) < move_speed dt n ->
              distance n < distance n'))
      /\ (Qabs (Walk.target_x n - Walk.x n) <= 1 -> Walk.x n' = Walk.x n)
      /\ (0 <= move_speed dt n -> move_speed dt n <= 2 ->
          distance n' <= distance n)).
Proof.
  intros M n'. subst n'. unfold Walk.update_position. rewrite M. cbv zeta.
  fold (move_speed dt n). fold (distance n).
  repeat apply conj.
  - split_ifs; reflexivity.
  - split_ifs; reflexivity.
  - split_ifs; reflexivity.
  - intro H. apply Qltb_true in H. rewrite H. reflexivity.
  - intro Hd. pose proof Hd as H. apply Qltb_false in H. rewrite H.
    repeat apply conj.
    + split_ifs; reflexivity || exact M.
    + split_ifs; auto.
    + intro H1. pose proof H1 as H1b. apply Qgtb_true in H1b. rewrite H1b.
      unfold distance.
      cbn [Walk.x Walk.y Walk.target_x Walk.target_y].
      set (ms := move_speed dt n).
      split; [reflexivity |].
      destruct (Qgtb (Walk.target_x n - Walk.x n) 0) eqn:E; read_tests.
      * split.
        -- assert (R : Walk.x n + ms - Walk.x n == ms) by ring.
           rewrite R. reflexivity.
        -- intro B. split_abs; lra.
      * split.
        -- assert (R : Walk.x n + - ms - Walk.x n == - ms) by ring.
           rewrite R. apply Qabs_opp.
        -- intro B. split_abs; lra.
    + intro H1. apply Qgtb_false in H1. rewrite H1. split_ifs; reflexivity.
    + intros L U. unfold distance in *.
      set (ms := move_speed dt n) in *.
      split_ifs; cbn [Walk.x Walk.y Walk.target_x Walk.target_y];
        read_tests; try lra; split_abs; lra.
Qed.

Lemma walk_step_along_one_axis_witness :
  Walk.y (Walk.update_position (1 # 60) Sample.walker) = Walk.y Sample.walker.
Proof.
  destruct (@walk_step_along_one_axis (1 # 60) Sample.walker)
    as (_ & _ & H).
  - reflexivity.
  - destruct H as (_ & _ & H & _).
    + vm_compute. discriminate.
    + apply H. vm_compute. reflexivity.
Defined.

Lemma update_position_corner (dt : Q) (n : Walk.t) :
  Qabs (Walk.target_x n - Walk.x n) <= 1 ->
  Qabs (Walk.target_y n - Walk.y n) <= 1 ->
  2 <= distance n ->
  Walk.update_position dt n = n.
Proof.
  intros Hx Hy Hd. unfold Walk.update_position.
  destruct (Walk.moving n); [| reflexivity]. cbv zeta.
  fold (distance n).
  apply Qltb_false in Hd. rewrite Hd.
  apply Qgtb_false in Hx. rewrite Hx.
  apply Qgtb_false in Hy. rewrite Hy. reflexivity.
Qed.

(** X16: The corner from which a nano never arrives.  A walking nano that
    is exactly 1 away from its target in each coordinate is neither "close
    enough" (its Manhattan distance is 2, not less) nor moved (no gap is
    more than 1): [update_position] leaves it as it is, whatever the length
    of the frame, so it keeps walking through any run of frames without
    moving. *)
Theorem walk_never_leaves_the_corner (dts : list Q) (n : Walk.t) :
  Walk.moving n = true ->
  Qabs (Walk.target_x n - Walk.x n) == 1 ->
  Qabs (Walk.target_y n - Walk.y n) == 1 ->
  walks dts n = n /\ Walk.moving (walks dts n) = true /\ distance n == 2.
Proof.
  intros M Hx Hy.
  assert (D : distance n == 2) by (unfold distance; rewrite Hx, Hy; reflexivity).
  assert (W : walks dts n = n).
  { unfold walks. induction dts as [| dt dts IH]; [reflexivity |].
    simpl. rewrite update_position_corner; [exact IH | | |]; lra. }
  rewrite W. auto.
Qed.

Lemma walk_never_leaves_the_corner_witness :
  walks [1 # 60; 1 # 30; 1] Sample.cornered = Sample.cornered.
Proof.
  apply (@walk_never_leaves_the_corner [1 # 60; 1 # 30; 1] Sample.cornered);
    reflexivity.
Defined.

(** ** The grid *)

(** X17: Screen and grid coordinates.  [get_screen_position] gives the
    top-left pixel of a grid cell and [get_grid_position] takes each of the
    32 x 32 pixels of that cell back to it, for cells on either side of the
    play area's corner (the division rounds down); the grid cell of a pixel
    starts at most 31 pixels before it in each direction.  A pixel inside
    the play area's rectangle has grid coordinates that are not negative and
    start inside the rectangle. *)
Theorem grid_and_screen_round_trip (g : Game.t) :
  (forall grid_x grid_y i j : Z,
      (0 <= i < Config.GRID_SIZE)%Z -> (0 <= j < Config.GRID_SIZE)%Z ->
      let (sx, sy) := Game.get_screen_position grid_x grid_y g in
      Game.get_grid_position (sx + i) (sy + j) g = (grid_x, grid_y))
  /\ (forall x y : Z,
         let (grid_x, grid_y) := Game.get_grid_position x y g in
         let (sx, sy) := Game.get_screen_position grid_x grid_y g in
         (sx <= x < sx + Config.GRID_SIZE)%Z
         /\ (sy <= y < sy + Config.GRID_SIZE)%Z)
  /\ (forall x y : Z,
         Game.collidepoint (Game.play_area_rect g) x y = true ->
         let (grid_x, grid_y) := Game.get_grid_position x y g in
         (0 <= grid_x)%Z /\ (0 <= grid_y)%Z
         /\ (grid_x * Config.GRID_SIZE < Game.width (Game.play_area_rect g))%Z
         /\ (grid_y * Config.GRID_SIZE
             < Game.height (Game.play_area_rect g))%Z).
Proof.
  unfold Game.get_grid_position, Game.get_screen_position, Game.collidepoint,
    Config.GRID_SIZE.
  repeat apply conj.
  - intros grid_x grid_y i j Hi Hj. f_equal.
    + Z.to_euclidean_division_equations. lia.
    + Z.to_euclidean_division_equations. lia.
  - intros x y. split; Z.to_euclidean_division_equations; lia.
  - intros x y H.
    apply andb_prop in H. destruct H as [H H4].
    apply andb_prop in H. destruct H as [H H3].
    apply andb_prop in H. destruct H as [H1 H2].
    apply Z.leb_le in H1. apply Z.ltb_lt in H2.
    apply Z.leb_le in H3. apply Z.ltb_lt in H4.
    repeat apply conj; Z.to_euclidean_division_equations; lia.
Qed.

Lemma grid_and_screen_round_trip_witness :
  Game.get_grid_position (310 + 2 * 32 + 5) (60 + 3 * 32 + 5)
                         Sample.placing_tent
  = (2, 3)%Z.
Proof.
  apply (proj1 (grid_and_screen_round_trip Sample.placing_tent) 2 3 5 5)%Z;
    unfold Config.GRID_SIZE; lia.
Defined.

Lemma existsb_at {A} (fx fy : A -> Z) (grid_x grid_y : Z) (l : list A) :
  existsb (fun a => ((fx a =? grid_x) && (fy a =? grid_y))%Z) l = true
  <-> exists a, In a l /\ fx a = grid_x /\ fy a = grid_y.
Proof.
  rewrite existsb_exists. split; intros (a & Ha & H); exists a; split; auto.
  - apply andb_prop in H. destruct H as [H1 H2].
    apply Z.eqb_eq in H1. apply Z.eqb_eq in H2. auto.
  - destruct H as [H1 H2]. apply andb_true_intro.
    split; apply Z.eqb_eq; assumption.
Qed.

Lemma Dict_set_In {V} (k : Z) (v : V) (d : Dict.t V) :
  In v (Dict.values (Dict.set k v d)).
Proof.
  apply (@Dict_get_In V k). apply Dict_get_set_same.
Qed.

Lemma build_building_stands (ty : BuildingType) (x y : Z) (s : GameState.t) :
  fst (GameState.build_building ty x y s) = true ->
  building_at x y (snd (GameState.build_building ty x y s)).
Proof.
  unfold GameState.build_building. cbv zeta.
  destruct (Building.get_build_cost (Building.init ty x y))
    as [cost_eu cost_credits].
  destruct (if (Dict.len (GameState.cells s) >? 0)%Z
            then GameState.drain_cell_energy cost_eu s
            else GameState.on_resources (Resource.drain_eu cost_eu) s)
    as [ok1 s1].
  destruct (GameState.on_resources (Resource.spend_credits cost_credits) s1)
    as [ok2 s2].
  destruct (ok1 && ok2).
  - intros _. simpl.
    exists (Building.with_building_id (Some (GameState.next_building_id s2))
                                      (Building.init ty x y)).
    split; [apply Dict_set_In | split; reflexivity].
  - destruct ok2; simpl; discriminate.
Qed.

Lemma build_cell_stands (x y : Z) (s : GameState.t) :
  fst (GameState.build_cell x y s) = true ->
  cell_at x y (snd (GameState.build_cell x y s)).
Proof.
  unfold GameState.build_cell. cbv zeta.
  destruct (Dict.len (GameState.cells s) + 1 >? 100)%Z;
    [simpl; discriminate |].
  destruct (Cell.get_purchase_cost
              (Cell.init (Dict.len (GameState.cells s) + 1) x y))
    as [cost_eu cost_credits].
  destruct (if (Dict.len (GameState.cells s) >? 0)%Z
            then GameState.drain_cell_energy cost_eu s
            else GameState.on_resources (Resource.drain_eu cost_eu) s)
    as [ok1 s1].
  destruct (GameState.on_resources (Resource.spend_credits cost_credits) s1)
    as [ok2 s2].
  destruct (ok1 && ok2).
  - intros _. simpl.
    exists (Cell.init (Dict.len (GameState.cells s) + 1) x y).
    split; [apply Dict_set_In | split; reflexivity].
  - destruct ok2; simpl; discriminate.
Qed.

(** X18: The valid build positions.  [is_valid_build_position] accepts a
    grid cell exactly when it lies in the play area (19 columns and 20 rows
    of 32 pixels) and neither a building nor an energy cell stands on it;
    once [build_building] or [build_cell] has succeeded on a grid cell, the
    position is no longer valid, whatever else the state holds. *)
Theorem valid_build_position_iff_free (grid_x grid_y : Z) (g : Game.t) :
  (Game.is_valid_build_position grid_x grid_y g = true
   <-> in_play_area grid_x grid_y
       /\ ~ building_at grid_x grid_y (Game.state g)
       /\ ~ cell_at grid_x grid_y (Game.state g))
  /\ (in_play_area grid_x grid_y
      <-> (0 <= grid_x < 19)%Z /\ (0 <= grid_y < 20)%Z)
  /\ (forall ty,
         fst (GameState.build_building ty grid_x grid_y (Game.state g))
         = true ->
         Game.is_valid_build_position grid_x grid_y
           (Game.with_state
              (snd (GameState.build_building ty grid_x grid_y (Game.state g)))
              g)
         = false)
  /\ (fst (GameState.build_cell grid_x grid_y (Game.state g)) = true ->
      Game.is_valid_build_position grid_x grid_y
        (Game.with_state
           (snd (GameState.build_cell grid_x grid_y (Game.state g))) g)
      = false).
Proof.
  assert (R : forall g : Game.t,
             Game.is_valid_build_position grid_x grid_y g = true
             <-> in_play_area grid_x grid_y
                 /\ ~ building_at grid_x grid_y (Game.state g)
                 /\ ~ cell_at grid_x grid_y (Game.state g)).
  { intro g0. unfold Game.is_valid_build_position, in_play_area,
      building_at, cell_at.
    rewrite <- !existsb_at.
    destruct (existsb _ (Dict.values (GameState.buildings (Game.state g0))));
      destruct (existsb _ (Dict.values (GameState.cells (Game.state g0))));
      destruct (Z.ltb_spec grid_x 0); destruct (Z.ltb_spec grid_y 0);
      destruct (Z.geb_spec grid_x (Config.PLAY_AREA_WIDTH / Config.GRID_SIZE));
      destruct (Z.geb_spec grid_y
                           (Config.PLAY_AREA_HEIGHT / Config.GRID_SIZE));
      simpl; split; intros; try discriminate; try reflexivity;
      intuition (try lia; try discriminate). }
  split; [apply R |]. split.
  { unfold in_play_area.
    change (Config.PLAY_AREA_WIDTH / Config.GRID_SIZE)%Z with 19%Z.
    change (Config.PLAY_AREA_HEIGHT / Config.GRID_SIZE)%Z with 20%Z.
    reflexivity. }
  split.
  - intros ty H. apply build_building_stands in H.
    apply not_true_is_false. intro V. apply R in V.
    destruct V as (_ & V & _). apply V. exact H.
  - intros H. apply build_cell_stands in H.
    apply not_true_is_false. intro V. apply R in V.
    destruct V as (_ & _ & V). apply V. exact H.
Qed.

Lemma valid_build_position_iff_free_witness :
  Game.is_valid_build_position 2 3
    (Game.with_state
       (snd (GameState.build_building TENT 2 3
               (Game.state Sample.placing_tent)))
       Sample.placing_tent)
  = false.
Proof.
  destruct (valid_build_position_iff_free 2 3 Sample.placing_tent)
    as (_ & _ & H & _).
  apply (H TENT). vm_compute. reflexivity.
Defined.

(** ** Finding a building and a home *)

Lemma BuildingType_eqb_eq (a b : BuildingType) :
  BuildingType_eqb a b = true <-> a = b.
Proof.
  destruct a, b; simpl; split; intro H; reflexivity || discriminate.
Qed.

Lemma available_test (ty : BuildingType) (b : Building.t) :
  BuildingType_eqb (Building.type b) ty && Building.can_accept_worker b
  = true <-> available ty b.
Proof.
  unfold available. rewrite andb_true_iff, BuildingType_eqb_eq. reflexivity.
Qed.

Lemma find_available_some (ty : BuildingType) (items : Dict.t Building.t) :
  forall id,
    GameState.find_available ty items = Some id ->
    exists before b after,
      items = before ++ (id, b) :: after
      /\ available ty b
      /\ Forall (fun kb => ~ available ty (snd kb)) before.
Proof.
  induction items as [| [k b] rest IH]; intros id H; [discriminate |].
  simpl in H.
  destruct (BuildingType_eqb (Building.type b) ty
            && Building.can_accept_worker b) eqn:E.
  - injection H as <-. exists [], b, rest.
    split; [reflexivity |]. split; [apply available_test; exact E |].
    constructor.
  - destruct (IH id H) as (before & b' & after & -> & A & F).
    exists ((k, b) :: before), b', after.
    split; [reflexivity |]. split; [exact A |].
    constructor; [| exact F].
    simpl. intro A'. apply available_test in A'. congruence.
Qed.

Lemma find_available_none (ty : BuildingType) (items : Dict.t Building.t) :
  GameState.find_available ty items = None
  <-> Forall (fun kb => ~ available ty (snd kb)) items.
Proof.
  induction items as [| [k b] rest IH]; simpl.
  - split; [constructor | reflexivity].
  - destruct (BuildingType_eqb (Building.type b) ty
              && Building.can_accept_worker b) eqn:E.
    + split; [discriminate |]. intro F. inversion F as [| ? ? N _]. subst.
      exfalso. apply N. apply available_test. exact E.
    + rewrite IH. split.
      * intro F. constructor; [| exact F].
        simpl. intro A. apply available_test in A. congruence.
      * intro F. inversion F. assumption.
Qed.

(** X19: The first building that fits.  [find_available_building] returns
    the identifier of the first building, in the order of the dictionary,
    that has the type asked for and room for one more worker, and [None]
    exactly when there is no such building.  [assign_nano_home] leaves a
    nano that has a home as it is, changes nothing of a homeless one but its
    home, gives it that first tent when its identifier is not 0, and is
    idempotent; the tent found is not told: any two homeless nanos are sent
    to the same one. *)
Theorem find_available_building_is_first_fit (ty : BuildingType)
    (s : GameState.t) :
  (forall id,
      GameState.find_available_building ty s = Some id ->
      exists before b after,
        GameState.buildings s = before ++ (id, b) :: after
        /\ available ty b
        /\ Forall (fun kb => ~ available ty (snd kb)) before)
  /\ (GameState.find_available_building ty s = None
      <-> Forall (fun kb => ~ available ty (snd kb)) (GameState.buildings s))
  /\ (forall nano : Nano.t,
         let nano' := GameState.assign_nano_home nano s in
         (Nano.home_building nano <> None -> nano' = nano)
         /\ nano' = Nano.with_home (Nano.home_building nano') nano
         /\ (forall id,
                Nano.home_building nano = None ->
                Nano.home_building nano' = Some id ->
                id <> 0%Z
                /\ GameState.find_available_building TENT s = Some id)
         /\ GameState.assign_nano_home nano' s = nano'
         /\ (forall other : Nano.t,
                Nano.home_building nano = None ->
                Nano.home_building other = None ->
                Nano.home_building (GameState.assign_nano_home other s)
                = Nano.home_building nano')).
Proof.
  split; [apply find_available_some |].
  split; [apply find_available_none |].
  intro nano. cbv zeta. unfold GameState.assign_nano_home.
  destruct nano as [i a ml h sk px py mv st ab hb cb ib mt hw].
  destruct hb as [home |]; simpl.
  - repeat apply conj; try reflexivity; intros; discriminate.
  - destruct (GameState.find_available_building TENT s) as [id |] eqn:F;
      simpl; [destruct (Z.eqb_spec id 0) as [E | E]; simpl |];
      repeat apply conj; try reflexivity; intros; try discriminate;
      try match goal with
          | H : Nano.home_building ?o = None
            |- context [match Nano.home_building ?o with _ => _ end] =>
              rewrite H; simpl
          end;
      try congruence; try (split; congruence).
Qed.

Lemma find_available_building_is_first_fit_witness :
  GameState.find_available_building MUSIC Sample.village = Some 2%Z
  /\ GameState.find_available_building TENT Sample.village = None.
Proof.
  split.
  - reflexivity.
  - apply (proj1 (proj2 (find_available_building_is_first_fit
                           TENT Sample.village))).
    repeat constructor; unfold available; simpl; intros [A B]; discriminate.
Defined.

(** ** The UPGD and SELL buttons *)

Lemma cells_not_empty (s : GameState.t) :
  0 < GameState.get_total_cell_energy s -> GameState.cells s <> [].
Proof.
  unfold GameState.get_total_cell_energy. intros H E. rewrite E in H.
  simpl in H. lra.
Qed.

Lemma drain_cell_energy_ok (amount : Q) (s : GameState.t) :
  GameState.cells s <> [] ->
  0 <= amount ->
  amount <= GameState.get_total_cell_energy s ->
  let r := GameState.drain_cell_energy amount s in
  fst r = true
  /\ GameState.get_total_cell_energy (snd r)
     == GameState.get_total_cell_energy s - amount
  /\ Forall2 drained (GameState.cells s) (GameState.cells (snd r))
  /\ GameState.resources (snd r) = GameState.resources s
  /\ GameState.buildings (snd r) = GameState.buildings s
  /\ GameState.nanos (snd r) = GameState.nanos s
  /\ GameState.next_building_id (snd r) = GameState.next_building_id s.
Proof.
  unfold GameState.drain_cell_energy. intros Hc Ha Hle.
  replace (Dict.len (GameState.cells s) =? 0)%Z with false
    by (symmetry; unfold Dict.len; destruct (GameState.cells s);
        [contradiction | reflexivity]).
  replace (Qltb (GameState.get_total_cell_energy s) amount) with false
    by (symmetry; apply Qltb_false; exact Hle).
  pose proof (@drain_loop_spec (GameState.cells s) amount Ha) as Hspec.
  pose proof (cell_energy_le_drainable (GameState.cells s)) as [Hd _].
  destruct (GameState.drain_loop amount (GameState.cells s)) as [r cs'].
  simpl in Hspec |- *. destruct Hspec as (H1 & H2 & H3 & H4).
  unfold GameState.get_total_cell_energy in *. simpl.
  fold (cell_energy cs'). fold (cell_energy (GameState.cells s)) in *.
  assert (Hr : r == 0) by (apply H3; lra).
  repeat split; try exact H4.
  - apply Qleb_true. lra.
  - lra.
Qed.



(** X21: The SELL button sells from one pool only.  With less than 1 EU in
    the cells and less than 1 EU in the surge capacitor it does nothing,
    even when the two together hold 1 EU or more.  Otherwise (and with 1 EU
    in total) it sells exactly 1 EU at the current rate: the credits grow by
    the sell rate, the rate decays to [max(rate * 0.9, floor)], and the
    unit comes from the cells when they hold it (the surge capacitor is
    then untouched) and from the surge capacitor only when they do not. *)
Theorem sell_button_sells_from_one_pool (s : GameState.t) :
  let surge := Resource.surge_capacitor (GameState.resources s) in
  let cell_eu := GameState.get_total_cell_energy s in
  let r := GameState.resources s in
  let s' := Game.sell_pressed s in
  let r' := GameState.resources s' in
  (cell_eu < 1 -> surge < 1 -> s' = s)
  /\ (surge + cell_eu < 1 -> s' = s)
  /\ (1 <= surge + cell_eu -> 1 <= cell_eu \/ 1 <= surge ->
      Resource.credits r' == Resource.credits r + Resource.sell_rate r
      /\ Resource.sell_rate r'
         = Qmax (Resource.sell_rate r * (9 # 10)) (Resource.sell_floor r)
      /\ Resource.surge_capacitor r' + GameState.get_total_cell_energy s'
         == surge + cell_eu - 1
      /\ (1 <= cell_eu -> Resource.surge_capacitor r' = surge)
      /\ (cell_eu < 1 -> GameState.cells s' = GameState.cells s)
      /\ Forall2 drained (GameState.cells s) (GameState.cells s')).
Proof.
  cbv zeta. unfold Game.sell_pressed. cbv zeta. repeat apply conj.
  - intros Hc Hs. apply Qgeb_false in Hc. apply Qgeb_false in Hs.
    destruct (Qgeb (Resource.surge_capacitor (GameState.resources s)
                    + GameState.get_total_cell_energy s) 1);
      [rewrite Hc, Hs |]; reflexivity.
  - intros Ht. apply Qgeb_false in Ht. rewrite Ht. reflexivity.
  - intros Ht Hp. apply Qgeb_true in Ht. rewrite Ht.
    destruct (Qgeb (GameState.get_total_cell_energy s) 1) eqn:Ec; read_tests.
    + unfold GameState.sell_cell_energy.
      destruct (@drain_cell_energy_ok 1 s)
        as (D1 & D2 & D3 & D4 & D5 & D6 & _).
      * apply cells_not_empty. lra.
      * lra.
      * exact Ec.
      * destruct (GameState.drain_cell_energy 1 s) as [ok s1].
        simpl in D1, D2, D3, D4. subst ok.
        unfold GameState.get_total_cell_energy in *. simpl. rewrite D4.
        repeat apply conj; intros;
          first [reflexivity | lra | assumption].
    + destruct Hp as [Hp | Hp]; [lra |].
      pose proof Hp as Hp'. apply Qgeb_true in Hp'. rewrite Hp'.
      unfold GameState.on_resources, Resource.sell_eu. rewrite Hp'.
      unfold GameState.get_total_cell_energy in *. simpl.
      repeat apply conj; intros;
        first [reflexivity | lra | apply drained_refl | exfalso; lra].
Qed.

Lemma sell_button_sells_from_one_pool_witness :
  Game.sell_pressed Sample.split_energy = Sample.split_energy.
Proof.
  apply (proj1 (sell_button_sells_from_one_pool Sample.split_energy));
    vm_compute; reflexivity.
Defined.

(** ** The cell bank stays within its capacity *)

Lemma drain_loop_drained (cs : Dict.t Cell.t) :
  forall amount : Q,
    Forall2 drained cs (snd (GameState.drain_loop amount cs)).
Proof.
  induction cs as [| [k c] cs IH]; intro amount; simpl; [constructor |].
  destruct (Qleb amount 0) eqn:E0; [apply drained_refl |].
  destruct (Qgtb (Cell.stored_energy c) 0) eqn:Ec; read_tests.
  - specialize (IH (amount - Qmin (Cell.stored_energy c) amount)).
    destruct (GameState.drain_loop _ cs) as [r cs']. simpl in *.
    constructor; [| exact IH].
    unfold drained. simpl. repeat split; split_minmax; lra.
  - specialize (IH amount).
    destruct (GameState.drain_loop amount cs) as [r cs']. simpl in *.
    constructor; [| exact IH].
    unfold drained. simpl. repeat split; try lra; try tauto.
    destruct c; reflexivity.
Qed.

Lemma drain_cell_energy_drained (amount : Q) (s : GameState.t) :
  let s' := snd (GameState.drain_cell_energy amount s) in
  Forall2 drained (GameState.cells s) (GameState.cells s')
  /\ GameState.resources s' = GameState.resources s
  /\ GameState.buildings s' = GameState.buildings s
  /\ GameState.nanos s' = GameState.nanos s
  /\ GameState.next_building_id s' = GameState.next_building_id s.
Proof.
  cbv zeta. unfold GameState.drain_cell_energy.
  destruct (Dict.len (GameState.cells s) =? 0)%Z;
    [simpl; repeat split; apply drained_refl |].
  destruct (Qltb (GameState.get_total_cell_energy s) amount);
    [simpl; repeat split; apply drained_refl |].
  pose proof (drain_loop_drained (GameState.cells s) amount) as D.
  destruct (GameState.drain_loop amount (GameState.cells s)) as [r cs'].
  simpl in *. repeat split. exact D.
Qed.

(** The payment of the energy of a purchase, as [build_cell], [upgrade_cell]
    and [build_building] make it *)
Lemma payment_drained (cost_eu : Q) (s : GameState.t) :
  let s' :=
    snd (if (Dict.len (GameState.cells s) >? 0)%Z
         then GameState.drain_cell_energy cost_eu s
         else GameState.on_resources (Resource.drain_eu cost_eu) s) in
  Forall2 drained (GameState.cells s) (GameState.cells s')
  /\ GameState.buildings s' = GameState.buildings s
  /\ GameState.nanos s' = GameState.nanos s
  /\ GameState.next_building_id s' = GameState.next_building_id s
  /\ Resource.credits (GameState.resources s')
     = Resource.credits (GameState.resources s).
Proof.
  cbv zeta. destruct (Dict.len (GameState.cells s) >? 0)%Z.
  - destruct (drain_cell_energy_drained cost_eu s) as (D & R & B & N & I).
    rewrite R. auto.
  - unfold GameState.on_resources, Resource.drain_eu.
    destruct (Qgeb _ cost_eu); simpl; repeat split; apply drained_refl.
Qed.

Lemma spend_credits_keeps (cost_credits : Q) (s : GameState.t) :
  let r := GameState.on_resources (Resource.spend_credits cost_credits) s in
  GameState.cells (snd r) = GameState.cells s
  /\ GameState.buildings (snd r) = GameState.buildings s
  /\ GameState.nanos (snd r) = GameState.nanos s
  /\ GameState.next_building_id (snd r) = GameState.next_building_id s
  /\ Resource.surge_capacitor (GameState.resources (snd r))
     = Resource.surge_capacitor (GameState.resources s).
Proof.
  cbv zeta. unfold GameState.on_resources, Resource.spend_credits.
  destruct (Qgeb _ cost_credits); simpl; repeat split.
Qed.

(** The cells after [build_cell]: the old ones, drained or not, and the new
    one when the purchase succeeded *)
Lemma build_cell_cells (x y : Z) (s : GameState.t) :
  let r := GameState.build_cell x y s in
  let number := (Dict.len (GameState.cells s) + 1)%Z in
  exists cs : Dict.t Cell.t,
    Forall2 drained (GameState.cells s) cs
    /\ (if fst r
        then (number <= 100)%Z
             /\ GameState.cells (snd r)
                = Dict.set number (Cell.init number x y) cs
        else GameState.cells (snd r) = cs)
    /\ GameState.buildings (snd r) = GameState.buildings s
    /\ GameState.nanos (snd r) = GameState.nanos s.
Proof.
  cbv zeta. unfold GameState.build_cell. cbv zeta.
  destruct (Z.gtb_spec (Dict.len (GameState.cells s) + 1) 100) as [G | G].
  { exists (GameState.cells s). simpl. repeat split. apply drained_refl. }
  destruct (Cell.get_purchase_cost
              (Cell.init (Dict.len (GameState.cells s) + 1) x y))
    as [cost_eu cost_credits].
  pose proof (payment_drained cost_eu s) as P. cbv zeta in P.
  destruct (if (Dict.len (GameState.cells s) >? 0)%Z
            then GameState.drain_cell_energy cost_eu s
            else GameState.on_resources (Resource.drain_eu cost_eu) s)
    as [ok1 s1].
  pose proof (spend_credits_keeps cost_credits s1) as K. cbv zeta in K.
  destruct (GameState.on_resources (Resource.spend_credits cost_credits) s1)
    as [ok2 s2].
  simpl in P, K.
  destruct P as (P1 & P2 & P3 & _). destruct K as (K1 & K2 & K3 & _).
  exists (GameState.cells s1). split; [exact P1 |].
  destruct ok1, ok2; simpl; rewrite ?K1, ?K2, ?K3; repeat split;
    try assumption; lia.
Qed.

(** The cells after [upgrade_cell]: drained or not, and the level of the
    cell raised by one when the purchase succeeded *)
Lemma upgrade_cell_cells (cell_number : Z) (s : GameState.t) :
  let r := GameState.upgrade_cell cell_number s in
  exists cs : Dict.t Cell.t,
    Forall2 drained (GameState.cells s) cs
    /\ (GameState.cells (snd r) = cs
        \/ exists cell2,
             Dict.get cell_number cs = Some cell2
             /\ GameState.cells (snd r)
                = Dict.set cell_number
                    (Cell.with_level (Cell.level cell2 + 1) cell2) cs)
    /\ GameState.buildings (snd r) = GameState.buildings s
    /\ GameState.nanos (snd r) = GameState.nanos s.
Proof.
  cbv zeta. unfold GameState.upgrade_cell.
  destruct (Dict.get cell_number (GameState.cells s)) as [cell |].
  2: { exists (GameState.cells s). simpl. repeat split;
       [apply drained_refl | left; reflexivity]. }
  destruct (Cell.level cell >=? 100)%Z.
  { exists (GameState.cells s). simpl. repeat split;
      [apply drained_refl | left; reflexivity]. }
  cbv zeta.
  destruct (Cell.get_upgrade_cost cell) as [cost_eu cost_credits].
  pose proof (payment_drained cost_eu s) as P. cbv zeta in P.
  destruct (if (Dict.len (GameState.cells s) >? 0)%Z
            then GameState.drain_cell_energy cost_eu s
            else GameState.on_resources (Resource.drain_eu cost_eu) s)
    as [ok1 s1].
  pose proof (spend_credits_keeps cost_credits s1) as K. cbv zeta in K.
  destruct (GameState.on_resources (Resource.spend_credits cost_credits) s1)
    as [ok2 s2].
  simpl in P, K.
  destruct P as (P1 & P2 & P3 & _). destruct K as (K1 & K2 & K3 & _).
  exists (GameState.cells s1). split; [exact P1 |].
  destruct ok1, ok2; simpl; rewrite ?K1, ?K2, ?K3;
    try (repeat split; try assumption; left; reflexivity).
  destruct (Dict.get cell_number (GameState.cells s1)) as [cell2 |] eqn:E;
    simpl; rewrite ?K1, ?K2, ?K3; repeat split; try assumption.
  - right. exists cell2. split; reflexivity.
  - left. reflexivity.
Qed.

Lemma build_building_cells (ty : BuildingType) (x y : Z) (s : GameState.t) :
  let r := GameState.build_building ty x y s in
  Forall2 drained (GameState.cells s) (GameState.cells (snd r))
  /\ GameState.nanos (snd r) = GameState.nanos s.
Proof.
  cbv zeta. unfold GameState.build_building. cbv zeta.
  destruct (Building.get_build_cost (Building.init ty x y))
    as [cost_eu cost_credits].
  pose proof (payment_drained cost_eu s) as P. cbv zeta in P.
  destruct (if (Dict.len (GameState.cells s) >? 0)%Z
            then GameState.drain_cell_energy cost_eu s
            else GameState.on_resources (Resource.drain_eu cost_eu) s)
    as [ok1 s1].
  pose proof (spend_credits_keeps cost_credits s1) as K. cbv zeta in K.
  destruct (GameState.on_resources (Resource.spend_credits cost_credits) s1)
    as [ok2 s2].
  simpl in P, K.
  destruct P as (P1 & P2 & P3 & _). destruct K as (K1 & K2 & K3 & _).
  destruct ok1, ok2; simpl; rewrite ?K1, ?K3; split; assumption.
Qed.

Lemma drained_within (cs cs' : Dict.t Cell.t) :
  Forall2 drained cs cs' -> within_capacity cs -> within_capacity cs'.
Proof.
  unfold within_capacity, Dict.values.
  induction 1 as [| [k c] [k' c'] cs cs' D _ IH]; intro W; [constructor |].
  simpl in *. inversion W as [| ? ? [W1 W2] W3]. subst.
  constructor; [| apply IH; exact W3].
  destruct D as (_ & D2 & D3 & D4). simpl in *.
  rewrite D2. simpl. split; [apply D4; exact W1 | lra].
Qed.

Lemma within_set (k : Z) (c : Cell.t) (cs : Dict.t Cell.t) :
  0 <= Cell.stored_energy c ->
  Cell.stored_energy c <= inject_Z (Cell.level c) ->
  within_capacity cs -> within_capacity (Dict.set k c cs).
Proof.
  intros H1 H2. unfold within_capacity.
  apply (@Dict_set_values Cell.t
           (fun c => 0 <= Cell.stored_energy c
                     /\ Cell.stored_energy c <= inject_Z (Cell.level c))).
  split; assumption.
Qed.

Lemma fill_loop_within (per : Q) (cs : Dict.t Cell.t) :
  forall total : Q,
    within_capacity cs ->
    within_capacity (fst (GameState.fill_loop per cs total)).
Proof.
  unfold within_capacity, Dict.values.
  induction cs as [| [k c] cs IH]; intros total W; simpl; [constructor |].
  simpl in W. inversion W as [| ? ? [W1 W2] W3]. subst.
  destruct (GameState.needs_energy c).
  - destruct (Qgtb (Qmin per (inject_Z (Cell.level c) - Cell.stored_energy c))
                   0) eqn:E; read_tests.
    + specialize (IH (total + Qmin per (inject_Z (Cell.level c)
                                        - Cell.stored_energy c)) W3).
      destruct (GameState.fill_loop per cs _) as [rest' t]. simpl in *.
      constructor; [| exact IH]. simpl.
      revert E. split_minmax; intros; split; lra.
    + specialize (IH total W3).
      destruct (GameState.fill_loop per cs total) as [rest' t]. simpl in *.
      constructor; [split; assumption | exact IH].
  - specialize (IH total W3).
    destruct (GameState.fill_loop per cs total) as [rest' t]. simpl in *.
    constructor; [split; assumption | exact IH].
Qed.

Lemma transfer_within (dt : Q) (s : GameState.t) :
  within_capacity (GameState.cells s) ->
  within_capacity (GameState.cells (GameState.transfer_to_cells dt s)).
Proof.
  intro W. unfold GameState.transfer_to_cells. cbv zeta.
  destruct (_ && _); [| exact W].
  destruct (Qgtb _ 0); [| exact W].
  destruct (GameState.cells_needing_energy (GameState.cells s)) as [| c0 l];
    [exact W |].
  pose proof (@fill_loop_within
                (Qmin (Resource.surge_capacitor (GameState.resources s))
                      ((1 # 2) * dt)
                 / inject_Z (Z.of_nat (length (c0 :: l))))
                (GameState.cells s) 0 W) as F.
  destruct (GameState.fill_loop _ (GameState.cells s) 0) as [cs total].
  simpl in F. destruct (Qgtb total 0); simpl; exact F.
Qed.

Lemma bleed_off_within (dt : Q) (s : GameState.t) :
  within_capacity (GameState.cells s) ->
  within_capacity (GameState.cells (GameState.bleed_off dt s)).
Proof.
  unfold within_capacity, GameState.bleed_off. simpl.
  rewrite map_values_values. intro W.
  apply Forall_map. revert W. apply Forall_impl. intros c [W1 W2].
  unfold GameState.bleed_cell. cbv zeta.
  assert (E : Qgtb (Cell.stored_energy c) (inject_Z (Cell.level c)) = false)
    by (apply Qgtb_false; exact W2).
  rewrite E. split; assumption.
Qed.

Lemma update_energy_system_within (dt : Q) (s : GameState.t) :
  within_capacity (GameState.cells s) ->
  within_capacity (GameState.cells (GameState.update_energy_system dt s)).
Proof.
  intro W. unfold GameState.update_energy_system. cbv zeta.
  rewrite produce_cells.
  apply bleed_off_within, transfer_within. exact W.
Qed.

Lemma power_effect_within (target_cell : Z) (energy_amount : Q)
    (s : GameState.t) :
  within_capacity (GameState.cells s) ->
  within_capacity
    (GameState.cells (Game.power_effect_arrives target_cell energy_amount s)).
Proof.
  intro W. unfold Game.power_effect_arrives.
  destruct (Dict.get target_cell (GameState.cells s)) as [cell |] eqn:E;
    [| exact W].
  cbv zeta.
  pose proof (@Dict_get_values Cell.t _ target_cell cell (GameState.cells s)
                W E) as [C1 C2].
  destruct (Qgtb _ 0) eqn:G; [| exact W]. read_tests. simpl.
  apply within_set; [| | exact W]; simpl; revert G; split_minmax; intros; lra.
Qed.

(** X22: The cells never hold more than their capacity.  From a bank in
    which every cell stores between nothing and its level, every operation
    that touches the cells leaves such a bank: any number of ticks of
    [update_energy_system] of any length, a drain or a sale of any amount,
    the three purchases whether they succeed or not (a new cell starts
    empty, an upgraded one has one more unit of room), the arrival of a
    power effect, and the UPGD and SELL buttons. *)
Theorem cells_stay_within_capacity (s : GameState.t) :
  within_capacity (GameState.cells s) ->
  (forall (n : nat) (dt : Q), within_capacity (GameState.cells (ticks n dt s)))
  /\ (forall amount,
         within_capacity
           (GameState.cells (snd (GameState.drain_cell_energy amount s))))
  /\ (forall amount,
         within_capacity
           (GameState.cells (snd (GameState.sell_cell_energy amount s))))
  /\ (forall x y,
         within_capacity (GameState.cells (snd (GameState.build_cell x y s))))
  /\ (forall cell_number,
         within_capacity
           (GameState.cells (snd (GameState.upgrade_cell cell_number s))))
  /\ (forall ty x y,
         within_capacity
           (GameState.cells (snd (GameState.build_building ty x y s))))
  /\ (forall target_cell energy_amount,
         within_capacity
           (GameState.cells
              (Game.power_effect_arrives target_cell energy_amount s)))
  /\ within_capacity (GameState.cells (Game.upgd_pressed s))
  /\ within_capacity (GameState.cells (Game.sell_pressed s)).
Proof.
  intro W.
  assert (D : forall amount s0,
             within_capacity (GameState.cells s0) ->
             within_capacity
               (GameState.cells (snd (GameState.drain_cell_energy amount s0)))).
  { intros amount s0 W0.
    destruct (drain_cell_energy_drained amount s0) as [D _].
    exact (drained_within D W0). }
  assert (S : forall amount,
             within_capacity
               (GameState.cells (snd (GameState.sell_cell_energy amount s)))).
  { intro amount. unfold GameState.sell_cell_energy.
    specialize (D amount s W).
    destruct (GameState.drain_cell_energy amount s) as [ok s1].
    destruct ok; simpl in *; exact D. }
  repeat apply conj.
  - intros n dt. clear D S. revert s W.
    induction n as [| n IH]; intros s W; [exact W |].
    simpl. apply IH. apply update_energy_system_within. exact W.
  - intro amount. apply D. exact W.
  - exact S.
  - intros x y.
    destruct (build_cell_cells x y s) as (cs & Dr & C & _).
    pose proof (drained_within Dr W) as Wc.
    destruct (fst (GameState.build_cell x y s)).
    + destruct C as [_ ->]. apply within_set; simpl; [lra | | exact Wc].
      unfold Qle. simpl. lia.
    + rewrite C. exact Wc.
  - intro cell_number.
    destruct (upgrade_cell_cells cell_number s) as (cs & Dr & C & _).
    pose proof (drained_within Dr W) as Wc.
    destruct C as [-> | (cell2 & G & ->)]; [exact Wc |].
    pose proof (@Dict_get_values Cell.t _ cell_number cell2 cs Wc G)
      as [C1 C2].
    apply within_set; simpl; [exact C1 | | exact Wc].
    rewrite inject_Z_plus. change (inject_Z 1) with 1. lra.
  - intros ty x y.
    destruct (build_building_cells ty x y s) as [Dr _].
    exact (drained_within Dr W).
  - intros target_cell energy_amount. apply power_effect_within. exact W.
  - unfold Game.upgd_pressed. cbv zeta.
    destruct (_ && _); [| exact W].
    destruct (Qgeb (Resource.surge_capacitor (GameState.resources s)) 1);
      simpl; [exact W |].
    destruct (Qgtb _ 0); simpl; [| exact W].
    apply D. exact W.
  - unfold Game.sell_pressed. cbv zeta.
    destruct (Qgeb (_ + _) 1); [| exact W].
    destruct (Qgeb (GameState.get_total_cell_energy s) 1); [apply S |].
    destruct (Qgeb _ 1); [| exact W].
    unfold GameState.on_resources.
    destruct (Resource.sell_eu 1 (GameState.resources s)). exact W.
Qed.

Lemma cells_stay_within_capacity_witness :
  within_capacity (GameState.cells Sample.three_cells)
  /\ within_capacity (GameState.cells (ticks 3 (1 # 60) Sample.three_cells)).
Proof.
  assert (W : within_capacity (GameState.cells Sample.three_cells)).
  { unfold within_capacity. simpl.
    repeat constructor; simpl; unfold Qle; simpl; lia. }
  split; [exact W |].
  exact (proj1 (@cells_stay_within_capacity Sample.three_cells W)
               3%nat (1 # 60)).
Defined.

(** ** The cells are numbered in the order of their purchase *)

Lemma keeps_number_refl (cs : Dict.t Cell.t) : Forall2 keeps_number cs cs.
Proof.
  induction cs as [| kc cs IH]; constructor; [split; reflexivity | exact IH].
Qed.

Lemma keeps_number_trans (cs1 cs2 cs3 : Dict.t Cell.t) :
  Forall2 keeps_number cs1 cs2 -> Forall2 keeps_number cs2 cs3 ->
  Forall2 keeps_number cs1 cs3.
Proof.
  intro H. revert cs3.
  induction H as [| a b l1 l2 [A1 A2] _ IH]; intros cs3 H';
    inversion H' as [| ? c ? l3 [B1 B2] T]; subst; constructor.
  - split; congruence.
  - apply IH. exact T.
Qed.

Lemma drained_keeps_number (cs cs' : Dict.t Cell.t) :
  Forall2 drained cs cs' -> Forall2 keeps_number cs cs'.
Proof.
  induction 1 as [| kc kc' cs cs' (D1 & D2 & _) _ IH]; constructor;
    [| exact IH].
  split; [exact D1 |]. rewrite D2. reflexivity.
Qed.

Lemma keeps_number_numbered (cs cs' : Dict.t Cell.t) :
  Forall2 keeps_number cs cs' ->
  length cs' = length cs /\ (numbered cs -> numbered cs').
Proof.
  intro H.
  assert (K : Dict.keys cs' = Dict.keys cs /\ length cs' = length cs
              /\ (Forall (fun kc => Cell.cell_number (snd kc) = fst kc) cs ->
                  Forall (fun kc => Cell.cell_number (snd kc) = fst kc) cs')).
  { induction H as [| kc kc' cs cs' [A1 A2] _ (IH1 & IH2 & IH3)]; simpl.
    - repeat split. auto.
    - repeat split; try congruence.
      intro F. inversion F; subst. constructor; [congruence | auto]. }
  destruct K as (K1 & K2 & K3). split; [exact K2 |].
  intros [N1 N2]. split; [rewrite K1, K2; exact N1 | apply K3; exact N2].
Qed.

Lemma Dict_set_new {V} (k : Z) (v : V) (d : Dict.t V) :
  ~ In k (Dict.keys d) -> Dict.set k v d = d ++ [(k, v)].
Proof.
  induction d as [| [k' v'] d IH]; simpl; intro H; [reflexivity |].
  destruct (Z.eqb_spec k k') as [E | E]; [exfalso; auto |].
  rewrite IH; [reflexivity | tauto].
Qed.

Lemma Dict_set_keeps_number (k : Z) (c c2 : Cell.t) (cs : Dict.t Cell.t) :
  Dict.get k cs = Some c ->
  Cell.cell_number c2 = Cell.cell_number c ->
  Forall2 keeps_number cs (Dict.set k c2 cs).
Proof.
  intros G N. induction cs as [| [k' c'] cs IH]; simpl in *; [discriminate |].
  destruct (Z.eqb_spec k k') as [E | E].
  - injection G as <-. subst k'. constructor;
      [split; [reflexivity | exact N] | apply keeps_number_refl].
  - constructor; [split; reflexivity | apply IH; exact G].
Qed.

Lemma numbered_next (cs : Dict.t Cell.t) (c : Cell.t) :
  numbered cs ->
  Cell.cell_number c = (Dict.len cs + 1)%Z ->
  Dict.set (Dict.len cs + 1) c cs = cs ++ [((Dict.len cs + 1)%Z, c)]
  /\ numbered (cs ++ [((Dict.len cs + 1)%Z, c)]).
Proof.
  intros [N1 N2] Hc. unfold Dict.len. split.
  - apply Dict_set_new. rewrite N1. intro H.
    apply in_map_iff in H. destruct H as (m & H1 & H2).
    apply in_seq in H2. lia.
  - split.
    + unfold Dict.keys in *. rewrite map_app, N1, length_app. simpl.
      rewrite Nat.add_1_r, seq_S, map_app. simpl.
      do 2 f_equal. lia.
    + apply Forall_app. split; [exact N2 |].
      constructor; [exact Hc | constructor].
Qed.

Lemma fill_loop_keeps_number (per : Q) (cs : Dict.t Cell.t) :
  forall total : Q,
    Forall2 keeps_number cs (fst (GameState.fill_loop per cs total)).
Proof.
  induction cs as [| [k c] cs IH]; intro total; simpl; [constructor |].
  destruct (GameState.needs_energy c);
    [destruct (Qgtb _ 0) |];
    match goal with
    | |- context [GameState.fill_loop per cs ?t] =>
        specialize (IH t); destruct (GameState.fill_loop per cs t)
    end;
    simpl in *; constructor; try exact IH; split; reflexivity.
Qed.

Lemma update_energy_system_keeps_number (dt : Q) (s : GameState.t) :
  Forall2 keeps_number (GameState.cells s)
          (GameState.cells (GameState.update_energy_system dt s)).
Proof.
  unfold GameState.update_energy_system. cbv zeta. rewrite produce_cells.
  unfold GameState.bleed_off. simpl.
  set (s1 := GameState.with_resources _ s).
  apply (@keeps_number_trans _ (GameState.cells
                                  (GameState.transfer_to_cells dt s1))).
  - change (GameState.cells s) with (GameState.cells s1).
    unfold GameState.transfer_to_cells. cbv zeta.
    destruct (_ && _); [| apply keeps_number_refl].
    destruct (Qgtb _ 0); [| apply keeps_number_refl].
    destruct (GameState.cells_needing_energy (GameState.cells s1))
      as [| c0 l]; [apply keeps_number_refl |].
    match goal with
    | |- context [GameState.fill_loop ?p (GameState.cells s1) 0] =>
        pose proof (fill_loop_keeps_number p (GameState.cells s1) 0) as F;
        destruct (GameState.fill_loop p (GameState.cells s1) 0)
          as [cs total]
    end.
    simpl in F. destruct (Qgtb total 0); simpl; exact F.
  - generalize (GameState.cells (GameState.transfer_to_cells dt s1)).
    intro cs. induction cs as [| [k c] cs IH]; simpl; constructor;
      [| exact IH].
    split; [reflexivity |]. simpl. unfold GameState.bleed_cell. cbv zeta.
    destruct (Qgtb _ _); reflexivity.
Qed.

(** X23: The cells are numbered in the order of their purchase.  In a bank
    whose cells are stored under the numbers 1, 2, ... in the order of the
    dictionary, each holding its own number, a successful [build_cell]
    never overwrites a cell: it adds the cell of the next number, of level 1
    and empty, at the place asked for, after the older ones, of which only
    the stored energy may have changed; a failed one leaves as many cells as
    there were, and no purchase takes the bank above 100 cells.  The other
    operations ([upgrade_cell], [build_building], a drain, the ticks of
    [update_energy_system], the arrival of a power effect) keep the cells,
    their order and their numbers. *)
Theorem cells_are_numbered_in_order (s : GameState.t) :
  numbered (GameState.cells s) ->
  (forall x y,
      let r := GameState.build_cell x y s in
      let number := (Dict.len (GameState.cells s) + 1)%Z in
      numbered (GameState.cells (snd r))
      /\ (fst r = true ->
          (number <= 100)%Z
          /\ exists cs,
               Forall2 drained (GameState.cells s) cs
               /\ GameState.cells (snd r)
                  = cs ++ [(number, Cell.init number x y)])
      /\ (fst r = false ->
          Dict.len (GameState.cells (snd r)) = Dict.len (GameState.cells s))
      /\ ((Dict.len (GameState.cells s) <= 100)%Z ->
          (Dict.len (GameState.cells (snd r)) <= 100)%Z))
  /\ (forall cell_number,
         let r := GameState.upgrade_cell cell_number s in
         numbered (GameState.cells (snd r))
         /\ Dict.len (GameState.cells (snd r))
            = Dict.len (GameState.cells s))
  /\ (forall ty x y,
         let r := GameState.build_building ty x y s in
         numbered (GameState.cells (snd r))
         /\ Dict.len (GameState.cells (snd r))
            = Dict.len (GameState.cells s))
  /\ (forall amount,
         let r := GameState.drain_cell_energy amount s in
         numbered (GameState.cells (snd r))
         /\ Dict.len (GameState.cells (snd r))
            = Dict.len (GameState.cells s))
  /\ (forall (n : nat) (dt : Q),
         numbered (GameState.cells (ticks n dt s))
         /\ Dict.len (GameState.cells (ticks n dt s))
            = Dict.len (GameState.cells s))
  /\ (forall target_cell energy_amount,
         let s' := Game.power_effect_arrives target_cell energy_amount s in
         numbered (GameState.cells s')
         /\ Dict.len (GameState.cells s') = Dict.len (GameState.cells s)).
Proof.
  intro N.
  assert (K : forall cs' : Dict.t Cell.t,
             Forall2 keeps_number (GameState.cells s) cs' ->
             numbered cs' /\ Dict.len cs' = Dict.len (GameState.cells s)).
  { intros cs' H. destruct (keeps_number_numbered H) as [L P].
    split; [apply P; exact N | unfold Dict.len; rewrite L; reflexivity]. }
  repeat apply conj.
  - intros x y. cbv zeta.
    destruct (build_cell_cells x y s) as (cs & Dr & C & _). cbv zeta in C.
    destruct (K cs (drained_keeps_number Dr)) as [Nc Lc].
    destruct (@numbered_next cs
                (Cell.init (Dict.len cs + 1) x y) Nc eq_refl) as [S1 S2].
    rewrite <- Lc in *.
    destruct (fst (GameState.build_cell x y s)).
    + destruct C as [Le C]. rewrite C, S1.
      split; [exact S2 |]. split; [| split].
      * intros _. split; [assumption |].
        exists cs. split; [exact Dr | reflexivity].
      * discriminate.
      * intros _. unfold Dict.len in *. rewrite length_app. simpl. lia.
    + rewrite C. split; [exact Nc |]. split; [discriminate |].
      split; intros; [reflexivity | assumption].
  - intro cell_number. cbv zeta.
    destruct (upgrade_cell_cells cell_number s) as (cs & Dr & C & _).
    cbv zeta in C.
    destruct C as [-> | (cell2 & G & ->)];
      [apply K, drained_keeps_number; exact Dr |].
    apply K.
    apply (@keeps_number_trans _ cs); [apply drained_keeps_number; exact Dr |].
    apply (@Dict_set_keeps_number cell_number cell2); [exact G | reflexivity].
  - intros ty x y. cbv zeta.
    destruct (build_building_cells ty x y s) as [Dr _].
    apply K, drained_keeps_number. exact Dr.
  - intro amount. cbv zeta.
    destruct (drain_cell_energy_drained amount s) as [Dr _].
    apply K, drained_keeps_number. exact Dr.
  - intros n dt. apply K. clear K N. revert s.
    induction n as [| n IH]; intro s; simpl; [apply keeps_number_refl |].
    apply (@keeps_number_trans
             _ (GameState.cells (GameState.update_energy_system dt s)));
      [apply update_energy_system_keeps_number | apply IH].
  - intros target_cell energy_amount. cbv zeta. apply K.
    unfold Game.power_effect_arrives.
    destruct (Dict.get target_cell (GameState.cells s)) as [cell |] eqn:E;
      [| apply keeps_number_refl].
    cbv zeta. destruct (Qgtb _ 0); [| apply keeps_number_refl].
    simpl. apply (@Dict_set_keeps_number target_cell cell);
      [exact E | reflexivity].
Qed.

Lemma cells_are_numbered_in_order_witness :
  numbered (GameState.cells Sample.three_cells)
  /\ numbered
       (GameState.cells (snd (GameState.build_cell 5 5 Sample.three_cells))).
Proof.
  assert (N : numbered (GameState.cells Sample.three_cells)).
  { split; [reflexivity |]. repeat constructor. }
  split; [exact N |].
  exact (proj1 (proj1 (@cells_are_numbered_in_order Sample.three_cells N)
                      5%Z 5%Z)).
Defined.

(** ** A purchase succeeds exactly when it can be paid *)

Lemma drained_length (cs cs' : Dict.t Cell.t) :
  Forall2 drained cs cs' -> Dict.len cs' = Dict.len cs.
Proof.
  intro H. unfold Dict.len. f_equal.
  induction H; simpl; congruence.
Qed.

Lemma drained_get (k : Z) (c : Cell.t) (cs cs' : Dict.t Cell.t) :
  Forall2 drained cs cs' ->
  Dict.get k cs = Some c ->
  exists c', Dict.get k cs' = Some c'
             /\ c' = Cell.with_stored_energy (Cell.stored_energy c') c.
Proof.
  induction 1 as [| [k1 c1] [k2 c2] cs cs' (D1 & D2 & _) _ IH]; simpl;
    [discriminate |].
  simpl in D1, D2. subst k2.
  destruct (k =? k1)%Z; [| exact IH].
  intro E. injection E as <-. exists c2. split; [reflexivity | exact D2].
Qed.

Lemma inject_Z_nonneg (z : Z) : (0 <= z)%Z -> 0 <= inject_Z z.
Proof. intro H. unfold Qle. simpl. lia. Qed.

Lemma has_cells_not_empty (s : GameState.t) :
  (Dict.len (GameState.cells s) >? 0)%Z = true -> GameState.cells s <> [].
Proof.
  intros H E. rewrite E in H. discriminate.
Qed.

(** The two payments of a purchase: the energy, from the cells when there
    are cells and from the surge capacitor otherwise, then the credits *)
Lemma purchase_payment (cost_eu cost_credits : Q) (s : GameState.t) :
  0 <= cost_eu ->
  let r1 :=
    if (Dict.len (GameState.cells s) >? 0)%Z
    then GameState.drain_cell_energy cost_eu s
    else GameState.on_resources (Resource.drain_eu cost_eu) s in
  let r2 :=
    GameState.on_resources (Resource.spend_credits cost_credits) (snd r1) in
  (fst r1 = true <-> cost_eu <= payable_energy s)
  /\ (fst r2 = true
      <-> cost_credits <= Resource.credits (GameState.resources s))
  /\ (fst r1 = true -> fst r2 = true ->
      Resource.credits (GameState.resources (snd r2))
      == Resource.credits (GameState.resources s) - cost_credits
      /\ Resource.surge_capacitor (GameState.resources (snd r2))
         + cell_energy (GameState.cells (snd r2))
         == Resource.surge_capacitor (GameState.resources s)
            + cell_energy (GameState.cells s) - cost_eu
      /\ Forall2 drained (GameState.cells s) (GameState.cells (snd r2))
      /\ GameState.buildings (snd r2) = GameState.buildings s
      /\ GameState.nanos (snd r2) = GameState.nanos s
      /\ GameState.next_building_id (snd r2) = GameState.next_building_id s).
Proof.
  intros Hc. cbv zeta.
  pose proof (payment_drained cost_eu s) as P. cbv zeta in P.
  unfold payable_energy.
  destruct (Dict.len (GameState.cells s) >? 0)%Z eqn:Hl.
  - pose proof (has_cells_not_empty s Hl) as Hne.
    destruct (Qlt_le_dec (GameState.get_total_cell_energy s) cost_eu)
      as [Hs | Hs].
    + (* not enough in the cells *)
      assert (E : GameState.drain_cell_energy cost_eu s = (false, s)).
      { unfold GameState.drain_cell_energy.
        destruct (_ =? _)%Z; [reflexivity |].
        apply Qltb_true in Hs. rewrite Hs. reflexivity. }
      rewrite E in *. simpl.
      unfold GameState.on_resources, Resource.spend_credits.
      destruct (Qgeb (Resource.credits (GameState.resources s)) cost_credits)
        eqn:Ec; read_tests; simpl;
        (split; [split; [discriminate | intro; exfalso; lra] |]);
        (split; [split; [auto | auto] | intros; discriminate]);
        try discriminate; try (intro; exfalso; lra).
    + destruct (@drain_cell_energy_ok cost_eu s Hne Hc Hs)
        as (D1 & D2 & D3 & D4 & D5 & D6 & D7).
      destruct (GameState.drain_cell_energy cost_eu s) as [ok s1].
      simpl in *. subst ok.
      unfold GameState.on_resources, Resource.spend_credits. rewrite D4.
      unfold GameState.get_total_cell_energy in *.
      fold (cell_energy (GameState.cells s1)) in D2.
      fold (cell_energy (GameState.cells s)) in D2, Hs |- *.
      destruct (Qgeb (Resource.credits (GameState.resources s)) cost_credits)
        eqn:Ec; read_tests; simpl.
      * split; [tauto |]. split; [tauto |]. intros _ _.
        repeat apply conj; try assumption; try reflexivity; lra.
      * split; [tauto |].
        split; [split; [discriminate | intro; exfalso; lra] |].
        intros; discriminate.
  - unfold GameState.on_resources, Resource.drain_eu, Resource.spend_credits.
    destruct (Qgeb (Resource.surge_capacitor (GameState.resources s)) cost_eu)
      eqn:Es; read_tests; simpl;
      destruct (Qgeb (Resource.credits (GameState.resources s)) cost_credits)
        eqn:Ec; read_tests; simpl;
      (split; [split; [try discriminate; auto
                      | try reflexivity; intro; exfalso; lra] |]);
      (split; [split; [try discriminate; auto
                      | try reflexivity; intro; exfalso; lra] |]);
      try (intros; discriminate).
    intros _ _. repeat apply conj; try reflexivity; try lra.
    apply drained_refl.
Qed.

(** X24: A purchase succeeds exactly when it can be paid.  [build_building],
    [build_cell] (below 100 cells) and [upgrade_cell] (of a cell below
    level 100) return [True] if and only if the energy they can draw on
    (the cells when there are cells, the surge capacitor otherwise) covers
    the energy cost and the credits cover the credit cost.  A successful
    purchase takes exactly the two costs (no cell gains energy) and does
    what was bought: the building is registered under [next_building_id],
    which then grows by one; the cell of the next number is stored, empty
    and of level 1; the level of the upgraded cell grows by one. *)
Theorem purchase_succeeds_iff_affordable (s : GameState.t) :
  let surge := Resource.surge_capacitor (GameState.resources s) in
  let credits := Resource.credits (GameState.resources s) in
  (forall ty x y,
      let cost := Building.get_build_cost (Building.init ty x y) in
      let r := GameState.build_building ty x y s in
      let r' := GameState.resources (snd r) in
      let building_id := GameState.next_building_id s in
      (fst r = true
       <-> fst cost <= payable_energy s /\ snd cost <= credits)
      /\ (fst r = true ->
          GameState.buildings (snd r)
          = Dict.set building_id
              (Building.with_building_id (Some building_id)
                                         (Building.init ty x y))
              (GameState.buildings s)
          /\ GameState.next_building_id (snd r) = (building_id + 1)%Z
          /\ Resource.credits r' == credits - snd cost
          /\ Resource.surge_capacitor r'
             + cell_energy (GameState.cells (snd r))
             == surge + cell_energy (GameState.cells s) - fst cost
          /\ Forall2 drained (GameState.cells s) (GameState.cells (snd r))))
  /\ (forall x y,
         (Dict.len (GameState.cells s) < 100)%Z ->
         let number := (Dict.len (GameState.cells s) + 1)%Z in
         let r := GameState.build_cell x y s in
         let r' := GameState.resources (snd r) in
         (fst r = true
          <-> inject_Z number <= payable_energy s /\ 100 <= credits)
         /\ (fst r = true ->
             exists cs,
               Forall2 drained (GameState.cells s) cs
               /\ GameState.cells (snd r)
                  = Dict.set number (Cell.init number x y) cs
               /\ Resource.credits r' == credits - 100
               /\ Resource.surge_capacitor r' + cell_energy cs
                  == surge + cell_energy (GameState.cells s)
                     - inject_Z number))
  /\ (forall cell_number cell,
         Dict.get cell_number (GameState.cells s) = Some cell ->
         (Cell.level cell < 100)%Z ->
         (0 <= Cell.cell_number cell * Cell.level cell)%Z ->
         let cost := Cell.get_upgrade_cost cell in
         let r := GameState.upgrade_cell cell_number s in
         let r' := GameState.resources (snd r) in
         (fst r = true
          <-> fst cost <= payable_energy s /\ snd cost <= credits)
         /\ (fst r = true ->
             exists cs c2,
               Forall2 drained (GameState.cells s) cs
               /\ Dict.get cell_number cs = Some c2
               /\ GameState.cells (snd r)
                  = Dict.set cell_number
                      (Cell.with_level (Cell.level cell + 1) c2) cs
               /\ Resource.credits r' == credits - snd cost
               /\ Resource.surge_capacitor r' + cell_energy cs
                  == surge + cell_energy (GameState.cells s) - fst cost)).
Proof.
  cbv zeta. split; [| split].
  - intros ty x y. unfold GameState.build_building. cbv zeta.
    assert (C0 : 0 <= fst (Building.get_build_cost (Building.init ty x y)))
      by (destruct ty; unfold Qle; simpl; lia).
    destruct (Building.get_build_cost (Building.init ty x y))
      as [cost_eu cost_credits].
    cbn [fst snd] in *.
    pose proof (@purchase_payment cost_eu cost_credits s C0) as P.
    cbv zeta in P.
    destruct (if (Dict.len (GameState.cells s) >? 0)%Z
              then GameState.drain_cell_energy cost_eu s
              else GameState.on_resources (Resource.drain_eu cost_eu) s)
      as [ok1 s1].
    cbn [fst snd] in P.
    destruct (GameState.on_resources (Resource.spend_credits cost_credits) s1)
      as [ok2 s2].
    cbn [fst snd] in P. destruct P as (P1 & P2 & P3).
    destruct ok1, ok2; cbn [andb fst snd].
    + split; [split; [intros _; split; [apply P1 | apply P2]; reflexivity
                     | reflexivity] |].
      intros _. destruct (P3 eq_refl eq_refl) as (A1 & A2 & A3 & A4 & A5 & A6).
      simpl. rewrite A4, A6. repeat apply conj; try reflexivity; assumption.
    + split; [split; [discriminate | intros [_ B]; apply P2 in B; discriminate]
             | discriminate].
    + split; [split; [discriminate | intros [A _]; apply P1 in A; discriminate]
             | discriminate].
    + split; [split; [discriminate | intros [A _]; apply P1 in A; discriminate]
             | discriminate].
  - intros x y L. unfold GameState.build_cell. cbv zeta.
    assert (G : (Dict.len (GameState.cells s) + 1 >? 100)%Z = false) by lia.
    rewrite G.
    assert (C0 : 0 <= inject_Z (Dict.len (GameState.cells s) + 1))
      by (apply inject_Z_nonneg; unfold Dict.len; lia).
    unfold Cell.get_purchase_cost. cbn [Cell.cell_number Cell.init].
    pose proof (@purchase_payment
                  (inject_Z (Dict.len (GameState.cells s) + 1)) 100 s C0)
      as P.
    cbv zeta in P.
    destruct (if (Dict.len (GameState.cells s) >? 0)%Z
              then GameState.drain_cell_energy
                     (inject_Z (Dict.len (GameState.cells s) + 1)) s
              else GameState.on_resources
                     (Resource.drain_eu
                        (inject_Z (Dict.len (GameState.cells s) + 1))) s)
      as [ok1 s1].
    cbn [fst snd] in P.
    destruct (GameState.on_resources (Resource.spend_credits 100) s1)
      as [ok2 s2].
    cbn [fst snd] in P. destruct P as (P1 & P2 & P3).
    destruct ok1, ok2; cbn [andb fst snd].
    + split; [split; [intros _; split; [apply P1 | apply P2]; reflexivity
                     | reflexivity] |].
      intros _. destruct (P3 eq_refl eq_refl) as (A1 & A2 & A3 & A4 & A5 & A6).
      exists (GameState.cells s2). simpl.
      repeat apply conj; try reflexivity; assumption.
    + split; [split; [discriminate | intros [_ B]; apply P2 in B; discriminate]
             | discriminate].
    + split; [split; [discriminate | intros [A _]; apply P1 in A; discriminate]
             | discriminate].
    + split; [split; [discriminate | intros [A _]; apply P1 in A; discriminate]
             | discriminate].
  - intros cell_number cell G L N. unfold GameState.upgrade_cell. rewrite G.
    assert (L' : (Cell.level cell >=? 100)%Z = false) by lia.
    rewrite L'. cbv zeta.
    assert (C0 : 0 <= fst (Cell.get_upgrade_cost cell))
      by (apply inject_Z_nonneg; exact N).
    destruct (Cell.get_upgrade_cost cell) as [cost_eu cost_credits].
    cbn [fst snd] in *.
    pose proof (@purchase_payment cost_eu cost_credits s C0) as P.
    cbv zeta in P.
    destruct (if (Dict.len (GameState.cells s) >? 0)%Z
              then GameState.drain_cell_energy cost_eu s
              else GameState.on_resources (Resource.drain_eu cost_eu) s)
      as [ok1 s1].
    cbn [fst snd] in P.
    destruct (GameState.on_resources (Resource.spend_credits cost_credits) s1)
      as [ok2 s2].
    cbn [fst snd] in P. destruct P as (P1 & P2 & P3).
    destruct ok1, ok2; cbn [andb fst snd].
    + destruct (P3 eq_refl eq_refl) as (A1 & A2 & A3 & A4 & A5 & A6).
      destruct (drained_get cell_number A3 G) as (c2 & G2 & E2).
      rewrite G2. cbn [fst snd].
      split; [split; [intros _; split; [apply P1 | apply P2]; reflexivity
                     | reflexivity] |].
      intros _. exists (GameState.cells s2), c2. simpl.
      assert (Lv : Cell.level c2 = Cell.level cell)
        by (rewrite E2; reflexivity).
      rewrite Lv.
      repeat apply conj; try reflexivity; assumption.
    + split; [split; [discriminate | intros [_ B]; apply P2 in B; discriminate]
             | discriminate].
    + split; [split; [discriminate | intros [A _]; apply P1 in A; discriminate]
             | discriminate].
    + split; [split; [discriminate | intros [A _]; apply P1 in A; discriminate]
             | discriminate].
Qed.

Lemma purchase_succeeds_iff_affordable_witness :
  fst (GameState.build_cell 4 4 Sample.wealthy) = true
  /\ fst (GameState.upgrade_cell 1 Sample.wealthy) = true.
Proof.
  destruct (purchase_succeeds_iff_affordable Sample.wealthy)
    as (_ & B & U).
  split.
  - apply (B 4 4)%Z; [reflexivity |].
    split; vm_compute; discriminate.
  - apply (U 1%Z (Cell.with_stored_energy 1
                    (Cell.with_level 2 (Cell.init 1 0 0))));
      try reflexivity.
    + discriminate.
    + split; vm_compute; discriminate.
Defined.

(** ** Meals *)








(** ** The sun and the moon *)

Lemma inject_Z_minus (a b : Z) : inject_Z (a - b) == inject_Z a - inject_Z b.
Proof.
  unfold Z.sub. rewrite inject_Z_plus, inject_Z_opp. reflexivity.
Qed.

(** X26: The sun and the moon cross the sky in twelve hours.  For a clock
    within its ranges [get_sun_moon_position] is the time since the last
    6 o'clock (morning or evening) as a fraction of twelve hours: it lies
    in [0, 1), is 0 at 6:00 and at 18:00, and grows by 1/720 with every
    minute between them, also across midnight.  The branch of the daytime
    that returns 0 for an hour before 6 is never taken. *)
Theorem sun_and_moon_cross_in_twelve_hours (s : Clock.t) :
  calendar_ok s ->
  let minutes := (60 * Clock.game_hour s + Clock.game_minute s)%Z in
  Clock.get_sun_moon_position s
  == inject_Z ((minutes + 360) mod 720) / 720
  /\ 0 <= Clock.get_sun_moon_position s
  /\ Clock.get_sun_moon_position s < 1
  /\ (Clock.is_daytime s = true <-> (360 <= minutes < 1080)%Z)
  /\ (Clock.get_sun_moon_position s == 0
      <-> minutes = 360%Z \/ minutes = 1080%Z).
Proof.
  intros (Hm & Hh & _). cbv zeta.
  set (h := Clock.game_hour s) in *. set (m := Clock.game_minute s) in *.
  assert (D : Clock.is_daytime s = true <-> (360 <= 60 * h + m < 1080)%Z).
  { unfold Clock.is_daytime. fold h. rewrite andb_true_iff.
    rewrite Z.leb_le, Z.ltb_lt. lia. }
  assert (P : Clock.get_sun_moon_position s
              == inject_Z ((60 * h + m + 360) mod 720) / 720).
  { unfold Clock.get_sun_moon_position. cbv zeta. fold h m.
    assert (Q60 : inject_Z h + inject_Z m / 60
                  == inject_Z (60 * h + m) / 60).
    { rewrite inject_Z_plus, inject_Z_mult. field. }
    destruct (Clock.is_daytime s) eqn:Ed.
    - assert (R : (360 <= 60 * h + m < 1080)%Z) by (apply D; reflexivity).
      assert (E : ((60 * h + m + 360) mod 720 = 60 * h + m - 360)%Z)
        by (Z.to_euclidean_division_equations; lia).
      rewrite E.
      assert (G : Qgeb (inject_Z h + inject_Z m / 60) 6 = true).
      { apply Qgeb_true. rewrite Q60. apply Qle_shift_div_l; [reflexivity |].
        change (6 * 60) with (inject_Z 360). rewrite <- Zle_Qle. lia. }
      rewrite G, Q60, inject_Z_minus. change (inject_Z 360) with 360.
      field.
    - assert (R : ~ (360 <= 60 * h + m < 1080)%Z).
      { intro R. apply D in R. congruence. }
      destruct (Z_lt_le_dec (60 * h + m) 1080) as [L | L].
      + assert (G : Qgeb (inject_Z h + inject_Z m / 60) 18 = false).
        { apply Qgeb_false. rewrite Q60.
          apply Qlt_shift_div_r; [reflexivity |].
          change (18 * 60) with (inject_Z 1080). rewrite <- Zlt_Qlt. lia. }
        assert (E : ((60 * h + m + 360) mod 720 = 60 * h + m + 360)%Z)
          by (Z.to_euclidean_division_equations; lia).
        rewrite G, E, Q60.
        rewrite (inject_Z_plus (60 * h + m) 360).
        change (inject_Z 360) with 360. field.
      + assert (G : Qgeb (inject_Z h + inject_Z m / 60) 18 = true).
        { apply Qgeb_true. rewrite Q60.
          apply Qle_shift_div_l; [reflexivity |].
          change (18 * 60) with (inject_Z 1080). rewrite <- Zle_Qle. lia. }
        assert (E : ((60 * h + m + 360) mod 720 = 60 * h + m - 1080)%Z)
          by (Z.to_euclidean_division_equations; lia).
        rewrite G, E, Q60, inject_Z_minus.
        change (inject_Z 1080) with 1080. field. }
  pose proof (Z.mod_pos_bound (60 * h + m + 360) 720 eq_refl) as B.
  set (k := ((60 * h + m + 360) mod 720)%Z) in *.
  assert (B1 : 0 <= inject_Z k)
    by (change 0 with (inject_Z 0); rewrite <- Zle_Qle; lia).
  assert (B2 : inject_Z k < 720)
    by (change 720 with (inject_Z 720); rewrite <- Zlt_Qlt; lia).
  split; [exact P |]. split; [| split; [| split; [exact D |]]].
  - rewrite P. apply Qle_shift_div_l; [reflexivity | lra].
  - rewrite P. apply Qlt_shift_div_r; [reflexivity | lra].
  - rewrite P. split.
    + intro Z0.
      assert (K : inject_Z k == 0).
      { assert (F : inject_Z k == inject_Z k / 720 * 720) by field.
        rewrite F, Z0. ring. }
      unfold Qeq in K. simpl in K. rewrite Z.mul_1_r in K.
      unfold k in K. clear - K Hm Hh.
      Z.to_euclidean_division_equations. lia.
    + intro H.
      assert (K : k = 0%Z)
        by (unfold k; clear - H Hm Hh;
            Z.to_euclidean_division_equations; lia).
      rewrite K. reflexivity.
Qed.

Lemma sun_and_moon_cross_in_twelve_hours_witness :
  Clock.get_sun_moon_position Sample.new_years_eve < 1.
Proof.
  destruct (@sun_and_moon_cross_in_twelve_hours Sample.new_years_eve)
    as (_ & _ & H & _).
  - unfold calendar_ok. simpl. lia.
  - exact H.
Defined.

(** ** Production and the balance of a tick *)

Lemma charged_only_refl (s : GameState.t) : charged_only s s.
Proof.
  unfold charged_only. repeat split; try lra; try tauto.
  destruct (GameState.resources s); reflexivity.
Qed.

Lemma surge_ceiling_cells (s s' : GameState.t) :
  GameState.cells s' = GameState.cells s -> surge_ceiling s' = surge_ceiling s.
Proof.
  unfold surge_ceiling, GameState.get_total_system_capacity.
  intros ->. reflexivity.
Qed.

Lemma charged_only_trans (s1 s2 s3 : GameState.t) :
  charged_only s1 s2 -> charged_only s2 s3 -> charged_only s1 s3.
Proof.
  unfold charged_only.
  intros (A1 & A2 & A3 & A4 & A5 & A6) (B1 & B2 & B3 & B4 & B5 & B6).
  rewrite (@surge_ceiling_cells s1 s2 A1) in B6.
  repeat split; try congruence; try lra.
  - clear - A4 B4.
    destruct (GameState.resources s3), (GameState.resources s2),
      (GameState.resources s1).
    unfold Resource.with_surge in *. simpl in *. congruence.
Qed.

Lemma distribute_charges (e : Q) (s : GameState.t) :
  charged_only s (GameState.distribute_energy_to_cells e s).
Proof.
  unfold GameState.distribute_energy_to_cells.
  destruct (Qleb e 0) eqn:E0; [apply charged_only_refl |].
  destruct (Dict.len (GameState.cells s) =? 0)%Z eqn:L.
  - destruct (Qltb _ _) eqn:E1; [| apply charged_only_refl].
    destruct (Qgtb _ 0) eqn:E2; [| apply charged_only_refl].
    assert (Ec : GameState.cells s = []).
    { unfold Dict.len in L. destruct (GameState.cells s);
        [reflexivity | discriminate]. }
    unfold charged_only, surge_ceiling. simpl. rewrite Ec. read_tests.
    repeat split; split_minmax; lra.
  - destruct (Qltb _ _) eqn:E1; [| apply charged_only_refl].
    destruct (Qgtb _ 0) eqn:E2; [| apply charged_only_refl].
    unfold charged_only, surge_ceiling. simpl.
    destruct (GameState.cells s) as [| kc cs] eqn:Ec; [discriminate |].
    read_tests.
    unfold GameState.get_total_system_capacity in *. rewrite Ec in *.
    repeat split; split_minmax; lra.
Qed.

Lemma produce_workers_charges (dt : Q) (b : Building.t) (ws : list Z) :
  forall s, charged_only s (GameState.produce_workers dt b ws s).
Proof.
  induction ws as [| nano_id rest IH]; intro s; simpl;
    [apply charged_only_refl |].
  eapply charged_only_trans; [| apply IH].
  destruct (Dict.get nano_id (GameState.nanos s)) as [nano |];
    [| apply charged_only_refl].
  destruct (_ && _); [| apply charged_only_refl].
  destruct (Qgtb _ 0); [apply distribute_charges | apply charged_only_refl].
Qed.

Lemma produce_charges (dt : Q) (bs : list Building.t) :
  forall s, charged_only s (GameState.produce dt bs s).
Proof.
  induction bs as [| b rest IH]; intro s; simpl; [apply charged_only_refl |].
  eapply charged_only_trans; [| apply IH].
  destruct (Building.type b); try apply charged_only_refl.
  apply produce_workers_charges.
Qed.

Lemma produce_workers_idle (dt : Q) (b : Building.t) (ws : list Z)
    (s : GameState.t) :
  (forall nano_id nano,
      In nano_id ws ->
      Dict.get nano_id (GameState.nanos s) = Some nano ->
      Nano.state nano = WORKING ->
      Nano.inside_building nano = true -> False) ->
  GameState.produce_workers dt b ws s = s.
Proof.
  induction ws as [| nano_id rest IH]; intro H; simpl; [reflexivity |].
  destruct (Dict.get nano_id (GameState.nanos s)) as [nano |] eqn:G.
  - destruct (NanoState_eqb (Nano.state nano) WORKING) eqn:W.
    + destruct (Nano.inside_building nano) eqn:I.
      * exfalso. apply (H nano_id nano); auto; [left; reflexivity |].
        destruct (Nano.state nano); try discriminate. reflexivity.
      * simpl. apply IH. intros. eapply H; eauto. right. assumption.
    + simpl. apply IH. intros. eapply H; eauto. right. assumption.
  - apply IH. intros. eapply H; eauto. right. assumption.
Qed.

Lemma produce_idle (dt : Q) (bs : list Building.t) (s : GameState.t) :
  (forall b nano_id nano,
      In b bs -> Building.type b = BIO ->
      In nano_id (Building.workers b) ->
      Dict.get nano_id (GameState.nanos s) = Some nano ->
      Nano.state nano = WORKING ->
      Nano.inside_building nano = true -> False) ->
  GameState.produce dt bs s = s.
Proof.
  induction bs as [| b rest IH]; intro H; simpl; [reflexivity |].
  assert (E : match Building.type b with
              | BIO =>
                  GameState.produce_workers dt b (Building.workers b) s
              | _ => s
              end = s).
  { destruct (Building.type b) eqn:T; try reflexivity.
    apply produce_workers_idle. intros. eapply (H b); eauto. left.
    reflexivity. }
  rewrite E. apply IH. intros. eapply (H b0); eauto. right. assumption.
Qed.

(** X27: The BIO generators charge the surge capacitor only.  The
    production loop of [update_energy_system] changes nothing of the state
    but the surge capacitor (the cells, the buildings, the nanos and the
    credits stay as they are, whatever the comment "goes directly to cells"
    says); the surge capacitor does not lose energy and does not pass its
    ceiling if it was not above it.  Nothing at all is produced unless a
    worker of a BIO generator that is a nano of the game is in the state
    WORKING and inside a building. *)
Theorem bio_production_charges_the_surge_capacitor (dt : Q)
    (s : GameState.t) :
  let s' := GameState.produce dt (Dict.values (GameState.buildings s)) s in
  charged_only s s' /\ (~ producing s -> s' = s).
Proof.
  cbv zeta. split; [apply produce_charges |].
  intro H. apply produce_idle. intros b nano_id nano H1 H2 H3 H4 H5 H6.
  apply H. exists b, nano_id, nano. auto 10.
Qed.

Lemma with_own_resources (s : GameState.t) :
  GameState.with_resources (GameState.resources s) s = s.
Proof. destruct s; reflexivity. Qed.

Lemma with_own_cells (s : GameState.t) :
  GameState.with_cells (GameState.cells s) s = s.
Proof. destruct s; reflexivity. Qed.

Lemma bleed_off_within_capacity (dt : Q) (s : GameState.t) :
  within_capacity (GameState.cells s) -> GameState.bleed_off dt s = s.
Proof.
  intro W. unfold GameState.bleed_off.
  assert (E : Dict.map_values (GameState.bleed_cell dt) (GameState.cells s)
              = GameState.cells s).
  { unfold within_capacity, Dict.values in W. unfold Dict.map_values.
    induction (GameState.cells s) as [| [k c] cs IH]; [reflexivity |].
    simpl in *. inversion W as [| ? ? [W1 W2] W3]. subst.
    rewrite (IH W3). unfold GameState.bleed_cell. cbv zeta.
    assert (E : Qgtb (Cell.stored_energy c) (inject_Z (Cell.level c)) = false)
      by (apply Qgtb_false; exact W2).
    rewrite E. reflexivity. }
  rewrite E. apply with_own_cells.
Qed.

(** What the transfer from the surge capacitor to the cells moves *)
Lemma transfer_conserves (dt : Q) (s : GameState.t) :
  0 <= dt ->
  all_active (GameState.cells s) ->
  let s' := GameState.transfer_to_cells dt s in
  let surge := Resource.surge_capacitor (GameState.resources s) in
  let surge' := Resource.surge_capacitor (GameState.resources s') in
  surge - surge'
  == cell_energy (GameState.cells s') - cell_energy (GameState.cells s)
  /\ 0 <= surge - surge'
  /\ surge - surge' <= (1 # 2) * dt
  /\ (0 <= surge -> 0 <= surge')
  /\ GameState.resources s' = Resource.with_surge surge' (GameState.resources s)
  /\ GameState.buildings s' = GameState.buildings s
  /\ GameState.nanos s' = GameState.nanos s.
Proof.
  intros Hdt Hact. cbv zeta.
  set (surge := Resource.surge_capacitor (GameState.resources s)) in *.
  assert (Hres : GameState.resources s
                 = Resource.with_surge surge (GameState.resources s))
    by (subst surge; destruct (GameState.resources s); reflexivity).
  assert (Same : surge - surge
                 == cell_energy (GameState.cells s)
                    - cell_energy (GameState.cells s)
                 /\ 0 <= surge - surge
                 /\ surge - surge <= (1 # 2) * dt
                 /\ (0 <= surge -> 0 <= surge)
                 /\ GameState.resources s
                    = Resource.with_surge surge (GameState.resources s)
                 /\ GameState.buildings s = GameState.buildings s
                 /\ GameState.nanos s = GameState.nanos s).
  { repeat split; try lra; try tauto; exact Hres. }
  unfold GameState.transfer_to_cells. fold surge. cbv zeta.
  destruct (Qgtb surge 0) eqn:Es; [| exact Same].
  destruct (Dict.len (GameState.cells s) >? 0)%Z; [| exact Same].
  cbn [andb].
  set (e := Qmin surge ((1 # 2) * dt)).
  assert (He1 : e <= (1 # 2) * dt) by (subst e; apply Q.le_min_r).
  assert (He2 : e <= surge) by (subst e; apply Q.le_min_l).
  destruct (Qgtb e 0) eqn:Ee; [| exact Same]. read_tests.
  rewrite (cells_needing_energy_active Hact).
  destruct (filter below_capacity (Dict.values (GameState.cells s)))
    as [| c0 l] eqn:En; [exact Same |].
  set (n := inject_Z (Z.of_nat (length (c0 :: l)))).
  assert (Hn : 0 < n).
  { subst n. change 0 with (inject_Z 0). rewrite <- Zlt_Qlt.
    simpl length. lia. }
  assert (Hper : 0 <= e / n).
  { apply Qle_shift_div_l; [exact Hn | lra]. }
  pose proof (@fill_loop_spec (e / n) (GameState.cells s) Hper Hact 0)
    as Hspec.
  assert (Hen : (e / n) * cells_below_capacity (GameState.cells s) == e).
  { unfold cells_below_capacity. rewrite En. fold n. field. lra. }
  destruct (GameState.fill_loop (e / n) (GameState.cells s) 0)
    as [cs' total].
  simpl in Hspec. destruct Hspec as (H1 & H2 & H3 & H4).
  rewrite Hen in H4.
  destruct (Qgtb total 0) eqn:Et; read_tests; simpl; fold surge;
    repeat split; try lra; try exact Hres.
Qed.

(** X28: A tick neither creates nor loses energy.  With cells that are
    all active and within their capacity and a time step that is not
    negative, [update_energy_system] loses no energy (nothing dissipates
    and nothing bleeds off) and, as long as no BIO generator is producing,
    creates none: the surge capacitor and the cells together hold exactly
    what they held.  What leaves the surge capacitor (at most 0.5 EU per
    second) is what the cells receive, and a surge capacitor that is not
    negative stays so. *)
Theorem tick_conserves_energy (dt : Q) (s : GameState.t) :
  0 <= dt ->
  GameState.cells s <> [] ->
  all_active (GameState.cells s) ->
  within_capacity (GameState.cells s) ->
  let s' := GameState.update_energy_system dt s in
  let surge := Resource.surge_capacitor (GameState.resources s) in
  let surge' := Resource.surge_capacitor (GameState.resources s') in
  surge + cell_energy (GameState.cells s)
  <= surge' + cell_energy (GameState.cells s')
  /\ cell_energy (GameState.cells s) <= cell_energy (GameState.cells s')
  /\ cell_energy (GameState.cells s') - cell_energy (GameState.cells s)
     <= (1 # 2) * dt
  /\ (~ producing s ->
      surge' + cell_energy (GameState.cells s')
      == surge + cell_energy (GameState.cells s)
      /\ surge' <= surge
      /\ (0 <= surge -> 0 <= surge')).
Proof.
  intros Hdt Hne Hact W. cbv zeta.
  unfold GameState.update_energy_system. cbv zeta.
  assert (E1 : Resource.dissipate_energy (Dict.len (GameState.cells s)) dt
                 (GameState.resources s) = GameState.resources s).
  { unfold Resource.dissipate_energy, Dict.len.
    destruct (GameState.cells s); [contradiction | reflexivity]. }
  rewrite E1, with_own_resources.
  destruct (@transfer_conserves dt s Hdt Hact)
    as (T1 & T2 & T3 & T4 & T5 & T6 & T7).
  pose proof (@transfer_within dt s W) as W2.
  rewrite (@bleed_off_within_capacity dt _ W2).
  set (s2 := GameState.transfer_to_cells dt s) in *.
  destruct (produce_charges dt (Dict.values (GameState.buildings s2)) s2)
    as (P1 & P2 & P3 & P4 & P5 & P6).
  rewrite P1.
  repeat apply conj; try lra.
  intro Idle.
  assert (E : GameState.produce dt (Dict.values (GameState.buildings s2)) s2
              = s2).
  { apply produce_idle. intros b nano_id nano H1 H2 H3 H4 H5 H6.
    apply Idle. exists b, nano_id, nano.
    rewrite T6 in H1. rewrite T7 in H4. auto 10. }
  rewrite E. repeat apply conj; lra.
Qed.

Lemma tick_conserves_energy_witness :
  Resource.surge_capacitor
    (GameState.resources
       (GameState.update_energy_system (1 # 60) Sample.three_cells))
  + cell_energy
      (GameState.cells
         (GameState.update_energy_system (1 # 60) Sample.three_cells))
  == Resource.surge_capacitor (GameState.resources Sample.three_cells)
     + cell_energy (GameState.cells Sample.three_cells).
Proof.
  assert (W : within_capacity (GameState.cells Sample.three_cells)).
  { unfold within_capacity. simpl.
    repeat constructor; simpl; unfold Qle; simpl; lia. }
  assert (A : all_active (GameState.cells Sample.three_cells)).
  { repeat constructor. }
  assert (D : 0 <= 1 # 60) by (unfold Qle; simpl; lia).
  assert (N : GameState.cells Sample.three_cells <> []) by discriminate.
  destruct (@tick_conserves_energy (1 # 60) Sample.three_cells D N A W)
    as (_ & _ & _ & H).
  apply H. intros (b & _ & _ & [] & _).
Defined.

(** ** The end of a walk *)

Lemma update_position_keeps (dt : Q) (n : Walk.t) :
  Walk.target_x (Walk.update_position dt n) = Walk.target_x n
  /\ Walk.target_y (Walk.update_position dt n) = Walk.target_y n
  /\ Walk.speed (Walk.update_position dt n) = Walk.speed n.
Proof.
  unfold Walk.update_position. cbv zeta. split_ifs; repeat split.
Qed.

Lemma move_speed_keeps (dt : Q) (n n' : Walk.t) :
  Walk.speed n' = Walk.speed n -> move_speed dt n' = move_speed dt n.
Proof. unfold move_speed. intros ->. reflexivity. Qed.

(** A step along the horizontal axis *)
Lemma update_position_x (dt : Q) (n : Walk.t) :
  Walk.moving n = true ->
  2 <= distance n ->
  1 < Qabs (Walk.target_x n - Walk.x n) ->
  let n' := Walk.update_position dt n in
  Walk.moving n' = true
  /\ Walk.y n' = Walk.y n
  /\ Qabs (Walk.target_x n' - Walk.x n')
     == Qabs (Qabs (Walk.target_x n - Walk.x n) - move_speed dt n).
Proof.
  intros M D X. cbv zeta. unfold Walk.update_position. rewrite M. cbv zeta.
  fold (distance n). fold (move_speed dt n).
  apply Qltb_false in D. rewrite D.
  pose proof X as X'. apply Qgtb_true in X'. rewrite X'.
  cbn [Walk.x Walk.y Walk.target_x Walk.target_y Walk.moving].
  split; [reflexivity |]. split; [reflexivity |].
  set (ms := move_speed dt n).
  destruct (Qgtb (Walk.target_x n - Walk.x n) 0) eqn:E; read_tests.
  - rewrite (Qabs_pos (Walk.target_x n - Walk.x n)) by lra.
    assert (R : Walk.target_x n - (Walk.x n + ms)
                == Walk.target_x n - Walk.x n - ms) by ring.
    rewrite R. reflexivity.
  - rewrite (Qabs_neg (Walk.target_x n - Walk.x n)) by lra.
    assert (R : Walk.target_x n - (Walk.x n + - ms)
                == - (- (Walk.target_x n - Walk.x n) - ms)) by ring.
    rewrite R. apply Qabs_opp.
Qed.

(** A step along the vertical axis *)
Lemma update_position_y (dt : Q) (n : Walk.t) :
  Walk.moving n = true ->
  2 <= distance n ->
  Qabs (Walk.target_x n - Walk.x n) <= 1 ->
  1 < Qabs (Walk.target_y n - Walk.y n) ->
  let n' := Walk.update_position dt n in
  Walk.moving n' = true
  /\ Walk.x n' = Walk.x n
  /\ Qabs (Walk.target_y n' - Walk.y n')
     == Qabs (Qabs (Walk.target_y n - Walk.y n) - move_speed dt n).
Proof.
  intros M D X Y. cbv zeta. unfold Walk.update_position. rewrite M. cbv zeta.
  fold (distance n). fold (move_speed dt n).
  apply Qltb_false in D. rewrite D.
  apply Qgtb_false in X. rewrite X.
  pose proof Y as Y'. apply Qgtb_true in Y'. rewrite Y'.
  cbn [Walk.x Walk.y Walk.target_x Walk.target_y Walk.moving].
  split; [reflexivity |]. split; [reflexivity |].
  set (ms := move_speed dt n).
  destruct (Qgtb (Walk.target_y n - Walk.y n) 0) eqn:E; read_tests.
  - rewrite (Qabs_pos (Walk.target_y n - Walk.y n)) by lra.
    assert (R : Walk.target_y n - (Walk.y n + ms)
                == Walk.target_y n - Walk.y n - ms) by ring.
    rewrite R. reflexivity.
  - rewrite (Qabs_neg (Walk.target_y n - Walk.y n)) by lra.
    assert (R : Walk.target_y n - (Walk.y n + - ms)
                == - (- (Walk.target_y n - Walk.y n) - ms)) by ring.
    rewrite R. apply Qabs_opp.
Qed.

Lemma update_position_arrives (dt : Q) (n : Walk.t) :
  Walk.moving n = true ->
  distance n < 2 ->
  arrived (Walk.update_position dt n).
Proof.
  intros M D. unfold Walk.update_position. rewrite M. cbv zeta.
  fold (distance n). apply Qltb_true in D. rewrite D.
  repeat split.
Qed.

(** The gap is within [k] steps of the band of width 1 around the target *)
Lemma gap_after_step (gap ms : Q) (k : nat) :
  0 < ms -> ms <= 2 -> 1 < gap ->
  gap <= inject_Z (Z.of_nat k) * ms ->
  Qabs (gap - ms) <= 1
  \/ (exists k', k = S k'
                 /\ Qabs (gap - ms) <= inject_Z (Z.of_nat k') * ms).
Proof.
  intros H0 H2 G K.
  destruct (Qlt_le_dec gap ms) as [L | L].
  - left. rewrite Qabs_neg by lra. lra.
  - destruct k as [| k'].
    + simpl in K. change (inject_Z 0) with 0 in K. lra.
    + right. exists k'. split; [reflexivity |].
      rewrite Qabs_pos by lra.
      rewrite Nat2Z.inj_succ, <- Z.add_1_r, inject_Z_plus in K.
      change (inject_Z 1) with 1 in K. lra.
Qed.

Lemma walk_ends_within (dt ms : Q) :
  0 < ms -> ms <= 2 ->
  forall (N a b : nat) (n : Walk.t),
    (a + b <= N)%nat ->
    Walk.moving n = true ->
    move_speed dt n = ms ->
    Qabs (Walk.target_x n - Walk.x n) <= 1
    \/ Qabs (Walk.target_x n - Walk.x n) <= inject_Z (Z.of_nat a) * ms ->
    Qabs (Walk.target_y n - Walk.y n) <= 1
    \/ Qabs (Walk.target_y n - Walk.y n) <= inject_Z (Z.of_nat b) * ms ->
    exists k : nat,
      (k <= N + 1)%nat
      /\ (arrived (Nat.iter k (Walk.update_position dt) n)
          \/ in_corner (Nat.iter k (Walk.update_position dt) n)).
Proof.
  intros H0 H2. induction N as [| N IH]; intros a b n L M Hs A B.
  - (* no step left on either axis *)
    assert (a = 0%nat) by lia. assert (b = 0%nat) by lia. subst a b.
    change (inject_Z (Z.of_nat 0)) with 0 in A, B.
    pose proof (Qabs_nonneg (Walk.target_x n - Walk.x n)).
    pose proof (Qabs_nonneg (Walk.target_y n - Walk.y n)).
    destruct (Qlt_le_dec (distance n) 2) as [D | D].
    + exists 1%nat. split; [lia |]. left. simpl.
      apply update_position_arrives; assumption.
    + exists 0%nat. split; [lia |]. right. simpl.
      unfold in_corner, distance in *. split; [exact M |].
      split; apply Qle_antisym; destruct A, B; lra.
  - destruct (Qlt_le_dec (distance n) 2) as [D | D].
    { exists 1%nat. split; [lia |]. left. simpl.
      apply update_position_arrives; assumption. }
    destruct (update_position_keeps dt n) as (K1 & K2 & K3).
    destruct (Qlt_le_dec 1 (Qabs (Walk.target_x n - Walk.x n))) as [X | X].
    + (* a step along the horizontal axis *)
      destruct (@update_position_x dt n M D X) as (M' & Y' & X').
      rewrite Hs in X'.
      destruct A as [A | A]; [lra |].
      assert (B' : Qabs (Walk.target_y (Walk.update_position dt n)
                         - Walk.y (Walk.update_position dt n)) <= 1
                   \/ Qabs (Walk.target_y (Walk.update_position dt n)
                            - Walk.y (Walk.update_position dt n))
                      <= inject_Z (Z.of_nat b) * ms)
        by (rewrite K2, Y'; exact B).
      assert (S' : move_speed dt (Walk.update_position dt n) = ms)
        by (rewrite (@move_speed_keeps dt n _ K3); exact Hs).
      assert (Ha : (1 <= a)%nat).
      { destruct a; [| lia].
        change (inject_Z (Z.of_nat 0)) with 0 in A. lra. }
      destruct (@gap_after_step _ _ _ H0 H2 X A) as [G | (a' & -> & G)].
      * destruct (IH 0%nat b (Walk.update_position dt n))
          as (k & Lk & E); try assumption; [lia | left; lra |].
        exists (S k). split; [lia |]. rewrite Nat.iter_succ_r. exact E.
      * destruct (IH a' b (Walk.update_position dt n))
          as (k & Lk & E); try assumption; [lia | right; lra |].
        exists (S k). split; [lia |]. rewrite Nat.iter_succ_r. exact E.
    + destruct (Qlt_le_dec 1 (Qabs (Walk.target_y n - Walk.y n))) as [Y | Y].
      * (* a step along the vertical axis *)
        destruct (@update_position_y dt n M D X Y) as (M' & X' & Y').
        rewrite Hs in Y'.
        destruct B as [B | B]; [lra |].
        assert (A' : Qabs (Walk.target_x (Walk.update_position dt n)
                           - Walk.x (Walk.update_position dt n)) <= 1
                     \/ Qabs (Walk.target_x (Walk.update_position dt n)
                              - Walk.x (Walk.update_position dt n))
                        <= inject_Z (Z.of_nat 0) * ms)
          by (left; rewrite K1, X'; exact X).
        assert (S' : move_speed dt (Walk.update_position dt n) = ms)
          by (rewrite (@move_speed_keeps dt n _ K3); exact Hs).
        assert (Hb : (1 <= b)%nat).
        { destruct b; [| lia].
          change (inject_Z (Z.of_nat 0)) with 0 in B. lra. }
        destruct (@gap_after_step _ _ _ H0 H2 Y B) as [G | (b' & -> & G)].
        -- destruct (IH 0%nat 0%nat (Walk.update_position dt n))
             as (k & Lk & E); try assumption; [lia | left; lra |].
           exists (S k). split; [lia |]. rewrite Nat.iter_succ_r. exact E.
        -- destruct (IH 0%nat b' (Walk.update_position dt n))
             as (k & Lk & E); try assumption; [lia | right; lra |].
           exists (S k). split; [lia |]. rewrite Nat.iter_succ_r. exact E.
      * exists 0%nat. split; [lia |]. right. simpl.
        unfold in_corner, distance in *. split; [exact M |].
        split; apply Qle_antisym; lra.
Qed.

Lemma steps_for (gap ms : Q) :
  0 < ms -> exists k : nat, gap <= inject_Z (Z.of_nat k) * ms.
Proof.
  intro H. exists (Z.to_nat (Qceiling (gap / ms))).
  destruct (Qlt_le_dec gap 0) as [G | G].
  - assert (0 <= inject_Z (Z.of_nat (Z.to_nat (Qceiling (gap / ms)))))
      by (apply inject_Z_nonneg; lia).
    nra.
  - assert (P : 0 <= gap / ms) by (apply Qle_shift_div_l; lra).
    pose proof (Qle_ceiling (gap / ms)) as C.
    assert (Z0 : (0 <= Qceiling (gap / ms))%Z).
    { rewrite Zle_Qle. change (inject_Z 0) with 0. lra. }
    rewrite Z2Nat.id by exact Z0.
    assert (E : gap == gap / ms * ms) by (field; lra).
    rewrite E at 1. apply Qmult_le_compat_r; lra.
Qed.

(** X29: A walk with short frames comes to an end.  When the step of a
    frame is positive and at most 2, a walking nano reaches, after finitely
    many frames of that length, either its target ([update_position] puts
    it there and ends the walk) or the corner that is exactly 1 away from
    the target in each coordinate, where it stays.  With a longer step the
    walk need not end: a nano whose horizontal gap is half a step, with a
    vertical gap of 1 or more, jumps over its target and back for ever. *)
Theorem walk_ends_for_short_frames (dt : Q) (n : Walk.t) :
  Walk.moving n = true ->
  (0 < move_speed dt n -> move_speed dt n <= 2 ->
   exists k : nat,
     arrived (Nat.iter k (Walk.update_position dt) n)
     \/ in_corner (Nat.iter k (Walk.update_position dt) n))
  /\ (2 < move_speed dt n ->
      Qabs (Walk.target_x n - Walk.x n) == move_speed dt n / 2 ->
      1 <= Qabs (Walk.target_y n - Walk.y n) ->
      forall k : nat,
        let n' := Nat.iter k (Walk.update_position dt) n in
        Walk.moving n' = true
        /\ Walk.y n' = Walk.y n
        /\ Qabs (Walk.target_x n' - Walk.x n') == move_speed dt n / 2).
Proof.
  intro M. split.
  - intros H0 H2.
    destruct (@steps_for (Qabs (Walk.target_x n - Walk.x n))
                         (move_speed dt n) H0) as [a A].
    destruct (@steps_for (Qabs (Walk.target_y n - Walk.y n))
                         (move_speed dt n) H0) as [b B].
    destruct (@walk_ends_within dt (move_speed dt n) H0 H2 (a + b) a b n)
      as (k & _ & E); auto.
    exists k. exact E.
  - intros H2 X Y k. cbv zeta.
    induction k as [| k (I1 & I2 & I3)].
    + simpl. repeat split; [exact M | exact X].
    + rewrite Nat.iter_succ.
      set (p := Nat.iter k (Walk.update_position dt) n) in *.
      assert (K : Walk.target_x p = Walk.target_x n
                  /\ Walk.target_y p = Walk.target_y n
                  /\ Walk.speed p = Walk.speed n).
      { subst p. clear. induction k as [| k (J1 & J2 & J3)];
          [repeat split |].
        rewrite Nat.iter_succ.
        destruct (update_position_keeps
                    dt (Nat.iter k (Walk.update_position dt) n))
          as (K1 & K2 & K3).
        repeat split; congruence. }
      destruct K as (K1 & K2 & K3).
      pose proof (@move_speed_keeps dt n p K3) as Hs.
      assert (X1 : 1 < Qabs (Walk.target_x p - Walk.x p)).
      { rewrite I3. apply Qlt_shift_div_l; lra. }
      assert (D : 2 <= distance p).
      { unfold distance. rewrite K2, I2. lra. }
      destruct (@update_position_x dt p I1 D X1) as (M' & Y' & X').
      split; [exact M' |]. split; [congruence |].
      rewrite X', I3, Hs.
      assert (R : move_speed dt n / 2 - move_speed dt n
                  == - (move_speed dt n / 2)) by field.
      rewrite R, Qabs_opp. apply Qabs_pos.
      apply Qle_shift_div_l; lra.
Qed.

Lemma walk_ends_for_short_frames_witness :
  exists k : nat,
    arrived (Nat.iter k (Walk.update_position (1 # 60)) Sample.walker)
    \/ in_corner (Nat.iter k (Walk.update_position (1 # 60)) Sample.walker).
Proof.
  destruct (@walk_ends_for_short_frames (1 # 60) Sample.walker eq_refl)
    as [H _].
  apply H; vm_compute; reflexivity || discriminate.
Defined.

(** ** The totals of the system *)

Lemma fold_left_total (cs : list Cell.t) :
  forall total : Q,
    fold_left (fun t c => t + Cell.stored_energy c) cs total
    == total + GameState.Qsum (map Cell.stored_energy cs).
Proof.
  induction cs as [| c cs IH]; intro total; simpl; [ring |].
  rewrite IH. ring.
Qed.

(** X4: The totals of the energy system agree.  The running total of
    [get_total_system_energy] is the surge capacitor plus
    [get_total_cell_energy]; in a bank within its capacity the energy of the
    cells lies between 0 and [get_total_system_capacity], so the system
    holds at most the surge capacitor plus the total capacity; and a new
    game holds nothing and has no capacity. *)
Theorem system_totals_agree (s : GameState.t) :
  GameState.get_total_system_energy s
  == Resource.surge_capacitor (GameState.resources s)
     + GameState.get_total_cell_energy s
  /\ (within_capacity (GameState.cells s) ->
      0 <= GameState.get_total_cell_energy s
      /\ GameState.get_total_cell_energy s
         <= GameState.get_total_system_capacity s
      /\ GameState.get_total_system_energy s
         <= Resource.surge_capacitor (GameState.resources s)
            + GameState.get_total_system_capacity s)
  /\ GameState.get_total_system_energy GameState.init == 0
  /\ GameState.get_total_system_capacity GameState.init == 0.
Proof.
  assert (T : GameState.get_total_system_energy s
              == Resource.surge_capacitor (GameState.resources s)
                 + GameState.get_total_cell_energy s).
  { unfold GameState.get_total_system_energy, GameState.get_total_cell_energy.
    apply fold_left_total. }
  split; [exact T |]. split; [| split; reflexivity].
  intro W.
  assert (B : 0 <= GameState.get_total_cell_energy s
              /\ GameState.get_total_cell_energy s
                 <= GameState.get_total_system_capacity s).
  { clear T. unfold GameState.get_total_cell_energy,
      GameState.get_total_system_capacity, within_capacity in *.
    induction (Dict.values (GameState.cells s)) as [| c cs IH]; simpl;
      [split; lra |].
    inversion W as [| ? ? [W1 W2] W3]. subst.
    destruct (IH W3) as [I1 I2]. split; lra. }
  destruct B as [B1 B2]. repeat split; try assumption. rewrite T. lra.
Qed.

Lemma system_totals_agree_witness :
  GameState.get_total_cell_energy Sample.three_cells
  <= GameState.get_total_system_capacity Sample.three_cells.
Proof.
  assert (W : within_capacity (GameState.cells Sample.three_cells)).
  { unfold within_capacity. simpl.
    repeat constructor; simpl; unfold Qle; simpl; lia. }
  destruct (system_totals_agree Sample.three_cells) as (_ & H & _).
  destruct (H W) as (_ & H2 & _). exact H2.
Defined.

(** ** The power effect of the WORK button *)

Lemma cell_energy_set (k : Z) (c c' : Cell.t) (cs : Dict.t Cell.t) :
  Dict.get k cs = Some c ->
  cell_energy (Dict.set k c' cs)
  == cell_energy cs - Cell.stored_energy c + Cell.stored_energy c'.
Proof.
  unfold cell_energy, Dict.values.
  induction cs as [| [k1 c1] cs IH]; simpl; [discriminate |].
  destruct (k =? k1)%Z.
  - intro E. injection E as <-. simpl. ring.
  - intro E. simpl. rewrite (IH E). ring.
Qed.

(** X30: the power effect of a press of WORK adds energy of its own.  When
    a power effect arrives at a cell of the bank, the cell gains the energy
    of the effect or the room it has left, whichever is less (nothing when
    that is not positive), and nothing is taken from the surge capacitor or
    from anywhere else; an effect aimed at a cell that does not exist
    changes nothing.  The WORK button starts such an effect with the work
    power after [work_button_pressed] has added the work power to the surge
    capacitor: with room for it in both, one press puts twice the work
    power into the system. *)
Theorem power_effect_adds_energy_of_its_own (target_cell : Z)
    (energy_amount : Q) (s : GameState.t) :
  (Dict.get target_cell (GameState.cells s) = None ->
   Game.power_effect_arrives target_cell energy_amount s = s)
  /\ (forall cell,
         Dict.get target_cell (GameState.cells s) = Some cell ->
         let s' := Game.power_effect_arrives target_cell energy_amount s in
         let gain :=
           Qmax 0 (Qmin energy_amount
                        (inject_Z (Cell.level cell)
                         - Cell.stored_energy cell)) in
         GameState.resources s' = GameState.resources s
         /\ GameState.buildings s' = GameState.buildings s
         /\ GameState.nanos s' = GameState.nanos s
         /\ cell_energy (GameState.cells s')
            == cell_energy (GameState.cells s) + gain
         /\ exists cell',
              Dict.get target_cell (GameState.cells s') = Some cell'
              /\ cell' = Cell.with_stored_energy (Cell.stored_energy cell')
                                                 cell
              /\ Cell.stored_energy cell' == Cell.stored_energy cell + gain)
  /\ (forall cell,
         Dict.get target_cell (GameState.cells s) = Some cell ->
         let work_power := Resource.work_power (GameState.resources s) in
         let surge := Resource.surge_capacitor (GameState.resources s) in
         0 < work_power ->
         surge + work_power <= GameState.get_total_system_capacity s ->
         Cell.stored_energy cell + work_power <= inject_Z (Cell.level cell) ->
         let s1 := GameState.work_button_pressed s in
         let s2 :=
           Game.power_effect_arrives
             target_cell (Resource.work_power (GameState.resources s1)) s1 in
         Resource.surge_capacitor (GameState.resources s2)
         + cell_energy (GameState.cells s2)
         == surge + cell_energy (GameState.cells s) + 2 * work_power).
Proof.
  assert (A : forall (s0 : GameState.t) (amount : Q) (cell : Cell.t),
             Dict.get target_cell (GameState.cells s0) = Some cell ->
             let s' := Game.power_effect_arrives target_cell amount s0 in
             let gain :=
               Qmax 0 (Qmin amount
                            (inject_Z (Cell.level cell)
                             - Cell.stored_energy cell)) in
             GameState.resources s' = GameState.resources s0
             /\ GameState.buildings s' = GameState.buildings s0
             /\ GameState.nanos s' = GameState.nanos s0
             /\ cell_energy (GameState.cells s')
                == cell_energy (GameState.cells s0) + gain
             /\ exists cell',
                  Dict.get target_cell (GameState.cells s') = Some cell'
                  /\ cell' = Cell.with_stored_energy
                               (Cell.stored_energy cell') cell
                  /\ Cell.stored_energy cell'
                     == Cell.stored_energy cell + gain).
  { intros s0 amount cell G. cbv zeta. unfold Game.power_effect_arrives.
    rewrite G. cbv zeta.
    destruct (Qgtb _ 0) eqn:E; read_tests.
    - simpl. repeat split.
      + rewrite (@cell_energy_set target_cell cell _ _ G). simpl.
        rewrite Q.max_r by lra. ring.
      + eexists. split; [apply Dict_get_set_same |].
        split; [reflexivity |]. simpl. rewrite Q.max_r by lra. reflexivity.
    - repeat split.
      + rewrite Q.max_l by lra. ring.
      + exists cell. split; [exact G |].
        split; [destruct cell; reflexivity |].
        rewrite Q.max_l by lra. ring. }
  split; [| split].
  - intro G. unfold Game.power_effect_arrives. rewrite G. reflexivity.
  - intros cell G. apply A. exact G.
  - intros cell G. cbv zeta. intros Hw Hs Hc.
    assert (P : GameState.cells (GameState.work_button_pressed s)
                = GameState.cells s
                /\ Resource.work_power
                     (GameState.resources (GameState.work_button_pressed s))
                   = Resource.work_power (GameState.resources s)
                /\ Resource.surge_capacitor
                     (GameState.resources (GameState.work_button_pressed s))
                   == Resource.surge_capacitor (GameState.resources s)
                      + Resource.work_power (GameState.resources s)).
    { unfold GameState.work_button_pressed. cbv zeta.
      assert (L : (Dict.len (GameState.cells s) >? 0)%Z = true).
      { unfold Dict.len. destruct (GameState.cells s); [discriminate |].
        reflexivity. }
      rewrite L.
      assert (E1 : Qltb (Resource.surge_capacitor (GameState.resources s))
                        (GameState.get_total_system_capacity s) = true)
        by (apply Qltb_true; lra).
      rewrite E1.
      assert (E2 : Qgtb (Qmin (Resource.work_power (GameState.resources s))
                              (GameState.get_total_system_capacity s
                               - Resource.surge_capacitor
                                   (GameState.resources s))) 0 = true)
        by (apply Qgtb_true; split_minmax; lra).
      rewrite E2. simpl. repeat split.
      rewrite Q.min_l by lra. reflexivity. }
    destruct P as (P1 & P2 & P3).
    rewrite <- P1 in G.
    destruct (A (GameState.work_button_pressed s)
                (Resource.work_power
                   (GameState.resources (GameState.work_button_pressed s)))
                cell G) as (A1 & _ & _ & A4 & _).
    rewrite A1, A4, P1, P2, P3.
    rewrite Q.min_l by lra. rewrite Q.max_r by lra. ring.
Qed.

Lemma power_effect_adds_energy_of_its_own_witness :
  Resource.surge_capacitor
    (GameState.resources
       (Game.power_effect_arrives
          1 (Resource.work_power
               (GameState.resources
                  (GameState.work_button_pressed Sample.idle_bank)))
          (GameState.work_button_pressed Sample.idle_bank)))
  + cell_energy
      (GameState.cells
         (Game.power_effect_arrives
            1 (Resource.work_power
                 (GameState.resources
                    (GameState.work_button_pressed Sample.idle_bank)))
            (GameState.work_button_pressed Sample.idle_bank)))
  == Resource.surge_capacitor (GameState.resources Sample.idle_bank)
     + cell_energy (GameState.cells Sample.idle_bank)
     + 2 * Resource.work_power (GameState.resources Sample.idle_bank).
Proof.
  destruct (power_effect_adds_energy_of_its_own 1 0 Sample.idle_bank)
    as (_ & _ & H).
  apply (H (Cell.init 1 0 0)).
  - reflexivity.
  - reflexivity.
  - vm_compute. discriminate.
  - vm_compute. discriminate.
Defined.
